(** * rcon-mcp-server: the RCON protocol client and the session registry

    A shallow embedding of package [internal/rcon] (the protocol client and
    the session manager) and of the connect tool of [internal/mcp/server.go],
    with the properties of the protocol client, of the packet codec and of
    the session registry.

    Conventions.
    - An [int32] is a [Z]; every place where Go wraps is written with
      [int32] below.
    - A Go [string] is a byte sequence; [[]byte(s)] is
      [list_byte_of_string s] and [string(bs)] is [string_of_list_byte bs].
    - Every method of the source mutates its receiver and may return early
      with an error: a method is a function [S -> S * result A] (the state
      after the call, and what the call returned).
    - The mutexes are not modelled: every method runs alone. *)

From Stdlib Require Import ZArith Lia List String.
From Stdlib.Strings Require Import Byte.
From stdpp Require Import base option gmap strings list.

Local Open Scope Z_scope.

(** ** Fixed-width integers and bytes *)

(** Conversion of an integer to [int32] (two's complement wrap-around). *)
Definition int32 (z : Z) : Z := (z + 2 ^ 31) mod 2 ^ 32 - 2 ^ 31.

Definition int32_range (z : Z) : Prop := - 2 ^ 31 <= z < 2 ^ 31.

(** Go's [byte(v)]: the low eight bits. *)
Definition byte_of_Z (z : Z) : byte :=
  match Byte.of_N (Z.to_N (z mod 256)) with
  | Some b => b
  | None => x00
  end.

Definition Z_of_byte (b : byte) : Z := Z.of_N (Byte.to_N b).

(** [binary.LittleEndian.PutUint32(b, uint32(v))]:
    [b[0] = byte(v); b[1] = byte(v >> 8); b[2] = byte(v >> 16);
     b[3] = byte(v >> 24)]. *)
Definition put_int32_le (v : Z) : list byte :=
  [ byte_of_Z v;
    byte_of_Z (Z.shiftr v 8);
    byte_of_Z (Z.shiftr v 16);
    byte_of_Z (Z.shiftr v 24) ].

(** [binary.LittleEndian.Uint32(b)]:
    [uint32(b[0]) | uint32(b[1])<<8 | uint32(b[2])<<16 | uint32(b[3])<<24]. *)
Definition uint32_le (b0 b1 b2 b3 : byte) : Z :=
  Z.lor (Z_of_byte b0)
    (Z.lor (Z.shiftl (Z_of_byte b1) 8)
       (Z.lor (Z.shiftl (Z_of_byte b2) 16) (Z.shiftl (Z_of_byte b3) 24))).

(** [binary.Read(r, binary.LittleEndian, &x)] for [x : int32], on the four
    bytes at the head of [bs]; [None] when fewer than four are there. *)
Definition get_int32_le (bs : list byte) : option Z :=
  match bs with
  | b0 :: b1 :: b2 :: b3 :: _ => Some (int32 (uint32_le b0 b1 b2 b3))
  | _ => None
  end.

(** ** Errors and results *)

(** The errors of the two packages.  The source builds them with
    [errors.New] and [fmt.Errorf]; each constructor stands for one message,
    and a [cause] argument is the error wrapped with [%w]. *)
Inductive error : Type :=
  | NetError (msg : string)            (* an error of the transport (package net) *)
  | EOF                                (* io.EOF *)
  | UnexpectedEOF                      (* io.ErrUnexpectedEOF *)
  | AlreadyConnected                   (* "already connected" *)
  | ConnectionError (cause : error)    (* "failed to connect: %w" *)
  | NotConnected                       (* "not connected" *)
  | AlreadyAuthenticated               (* "already authenticated" *)
  | SendAuthError (cause : error)      (* "failed to send auth packet: %w" *)
  | ReadAuthError (cause : error)      (* "failed to read auth response: %w" *)
  | AuthenticationFailed               (* "authentication failed: invalid password" *)
  | UnexpectedResponse                 (* "authentication failed: unexpected response ID" *)
  | NotAuthenticated                   (* "not authenticated" *)
  | SendCommandError (cause : error)   (* "failed to send command: %w" *)
  | ReadResponseError (cause : error)  (* "failed to read response: %w" *)
  | ResponseMismatch                   (* "response ID mismatch" *)
  | CloseError (cause : error)         (* "failed to close connection: %w" *)
  | WriteDeadlineError (cause : error) (* "failed to set write deadline: %w" *)
  | ReadDeadlineError (cause : error)  (* "failed to set read deadline: %w" *)
  | InvalidPacketSize (size : Z)       (* "invalid packet size: %d" *)
  | DuplicateSession (id : string)     (* "session with ID %s already exists" *)
  | SessionNotFound (id : string)      (* "session with ID %s not found" *)
  | DisconnectClientError (cause : error) (* "failed to disconnect client: %w" *)
  | CreateSessionFailed (cause : error)   (* mcp: "failed to create session: %w" *)
  | ConnectFailed (cause : error)         (* mcp: "failed to connect: %w" *)
  | AuthenticateFailed (cause : error).   (* mcp: "failed to authenticate: %w" *)

(** What a call returns: a value, an error, or a run-time panic (a method
    called through a nil [conn]). *)
Inductive result (A : Type) : Type :=
  | Ok (a : A)
  | Err (e : error)
  | Panic.
Arguments Ok {A} a.
Arguments Err {A} e.
Arguments Panic {A}.

(** A method with receiver state [S] returning [A]. *)
Definition M (S A : Type) : Type := S -> S * result A.

Definition ret {S A} (a : A) : M S A := fun s => (s, Ok a).
Definition throw {S A} (e : error) : M S A := fun s => (s, Err e).

(** Sequencing: an error or a panic of the first call ends the method, the
    state changes made so far stay. *)
Definition bind {S A B} (m : M S A) (f : A -> M S B) : M S B :=
  fun s =>
    match m s with
    | (s', Ok a) => f a s'
    | (s', Err e) => (s', Err e)
    | (s', Panic) => (s', Panic)
    end.

Definition gets {S A} (f : S -> A) : M S A := fun s => (s, Ok (f s)).
Definition modify {S} (f : S -> S) : M S unit := fun s => (f s, Ok tt).

(** [if err := m; err != nil { return fmt.Errorf("...: %w", err) }] *)
Definition wrap {S A} (w : error -> error) (m : M S A) : M S A :=
  fun s =>
    match m s with
    | (s', Err e) => (s', Err (w e))
    | r => r
    end.

(** [if err := m; err != nil { h(err) }]: the handler runs on the state the
    failed call left. *)
Definition on_error {S A} (m : M S A) (h : error -> M S A) : M S A :=
  fun s =>
    match m s with
    | (s', Err e) => h e s'
    | r => r
    end.

(** [_ = m]: the error of the call is dropped. *)
Definition discard {S A} (m : M S A) : M S unit :=
  fun s =>
    match m s with
    | (s', Ok _) => (s', Ok tt)
    | (s', Err _) => (s', Ok tt)
    | (s', Panic) => (s', Panic)
    end.

Declare Scope method_scope.
Delimit Scope method_scope with method.
Notation "'let*' x := m 'in' k" := (bind m (fun x => k))
  (at level 10, x binder, m at level 200, k at level 200) : method_scope.
Notation "'run' m 'in' k" := (bind m (fun _ => k))
  (at level 10, m at level 200, k at level 200) : method_scope.
Local Open Scope method_scope.

(** The errors built around those above by the operations that go over
    several sessions and by the tools: they are returned as values, beside
    the result, as Go does. *)
Inductive session_failure : Type :=
  | DisconnectSessionError (id : string) (cause : error).
                                       (* "failed to disconnect session %s: %w" *)

Inductive outer_error : Type :=
  | Join (errs : list session_failure) (* errors.Join(errs...) *)
  | DisconnectFailed (cause : error)   (* mcp: "failed to disconnect: %w" *)
  | SessionLookupFailed (cause : error) (* mcp: "session not found: %w" *)
  | ExecuteFailed (cause : error).     (* mcp: "failed to execute command: %w" *)

(** [v, err := m]: the error of the call as a value. *)
Definition attempt {S A} (m : M S A) : M S (error + A) :=
  fun s =>
    match m s with
    | (s', Ok a) => (s', Ok (inr a))
    | (s', Err e) => (s', Ok (inl e))
    | (s', Panic) => (s', Panic)
    end.

(** ** The transport *)

(** The object behind the [net.Conn] stored in a client: the in-memory
    connection of the tests ([mockConn]: a read buffer, a write buffer, a
    closed flag, a read error and a write error), with the identity of the
    object ([handle]) and, for the three calls [mockConn] lets always
    succeed, the error each one returns ([closeErr], [readDeadlineErr],
    [writeDeadlineErr]). *)
Record Conn : Type := mkConn {
  handle : nat;
  readBuf : list byte;
  writeBuf : list byte;
  closed : bool;
  readErr : option error;
  writeErr : option error;
  closeErr : option error;
  readDeadlineErr : option error;
  writeDeadlineErr : option error
}.

Definition set_readBuf (bs : list byte) (k : Conn) : Conn :=
  mkConn (handle k) bs (writeBuf k) (closed k) (readErr k) (writeErr k)
    (closeErr k) (readDeadlineErr k) (writeDeadlineErr k).

Definition set_writeBuf (bs : list byte) (k : Conn) : Conn :=
  mkConn (handle k) (readBuf k) bs (closed k) (readErr k) (writeErr k)
    (closeErr k) (readDeadlineErr k) (writeDeadlineErr k).

Definition set_closed (b : bool) (k : Conn) : Conn :=
  mkConn (handle k) (readBuf k) (writeBuf k) b (readErr k) (writeErr k)
    (closeErr k) (readDeadlineErr k) (writeDeadlineErr k).

Definition of_err {S} (o : option error) : M S unit :=
  match o with
  | Some e => throw e
  | None => ret tt
  end.

Definition SetWriteDeadline : M Conn unit := fun k => of_err (writeDeadlineErr k) k.
Definition SetReadDeadline : M Conn unit := fun k => of_err (readDeadlineErr k) k.

(** [conn.Write(b)]: the bytes are appended to what was written. *)
Definition Write (bs : list byte) : M Conn unit :=
  fun k =>
    match writeErr k with
    | Some e => (k, Err e)
    | None => (set_writeBuf (writeBuf k ++ bs) k, Ok tt)
    end.

(** [io.ReadFull(conn, buf)] with [len(buf) = n]: exactly [n] bytes, or an
    error: the read error of the connection, [io.EOF] when the stream ended
    with nothing read, [io.ErrUnexpectedEOF] when it ended after some
    bytes. *)
Definition ReadFull (n : nat) : M Conn (list byte) :=
  fun k =>
    match readErr k with
    | Some e => (k, Err e)
    | None =>
        if (n <=? length (readBuf k))%nat
        then (set_readBuf (drop n (readBuf k)) k, Ok (take n (readBuf k)))
        else (set_readBuf [] k,
              Err (match readBuf k with [] => EOF | _ => UnexpectedEOF end))
    end.

(** [conn.Close()]. *)
Definition Close : M Conn unit :=
  fun k =>
    match closeErr k with
    | Some e => (k, Err e)
    | None => (set_closed true k, Ok tt)
    end.

(** ** Package rcon: packets and the client *)

Module rcon.

Definition PacketTypeAuth : Z := 3.
Definition PacketTypeAuthResponse : Z := 2.
Definition PacketTypeCommand : Z := 2.
Definition PacketTypeResponse : Z := 0.

Definition maxPacketSize : Z := 4096.

Record Packet : Type := mkPacket {
  Size : Z;
  ID : Z;
  Type_ : Z;
  Body : string
}.

Record Client : Type := mkClient {
  conn : option Conn;
  requestID : Z;
  isConnected : bool;
  isAuthorized : bool
}.

Definition set_conn (k : option Conn) (c : Client) : Client :=
  mkClient k (requestID c) (isConnected c) (isAuthorized c).
Definition set_requestID (n : Z) (c : Client) : Client :=
  mkClient (conn c) n (isConnected c) (isAuthorized c).
Definition set_isConnected (b : bool) (c : Client) : Client :=
  mkClient (conn c) (requestID c) b (isAuthorized c).
Definition set_isAuthorized (b : bool) (c : Client) : Client :=
  mkClient (conn c) (requestID c) (isConnected c) b.

(** A call [c.conn.m(...)]: a nil [conn] panics. *)
Definition on_conn {A} (m : M Conn A) : M Client A :=
  fun c =>
    match conn c with
    | None => (c, Panic)
    | Some k => let (k', r) := m k in (set_conn (Some k') c, r)
    end.

Definition NewClient : Client := mkClient None 1 false false.

(** [id := c.requestID; c.requestID++; return id] *)
Definition getNextRequestID : M Client Z :=
  fun c => (set_requestID (int32 (requestID c + 1)) c, Ok (requestID c)).

(** [packet.Size = int32(len(bodyBytes) + 10)] *)
Definition packetSize (packet : Packet) : Z :=
  int32 (Z.of_nat (length (list_byte_of_string (Body packet))) + 10).

(** The buffer [sendPacket] fills: size, id, type, the body, two zero bytes. *)
Definition packetBytes (packet : Packet) : list byte :=
  put_int32_le (packetSize packet) ++ put_int32_le (ID packet)
    ++ put_int32_le (Type_ packet)
    ++ list_byte_of_string (Body packet) ++ [x00; x00].

(** The [Size] that [sendPacket] stores in the caller's packet is read by
    no caller; the method returns nothing. *)
Definition sendPacket (packet : Packet) : M Client unit :=
  let buf := packetBytes packet in
  run wrap WriteDeadlineError (on_conn SetWriteDeadline) in
  on_conn (Write buf).

(** [packetBuf[8 : len(packetBuf)-2]] *)
Definition bodySlice (packetBuf : list byte) : list byte :=
  take (length packetBuf - 2 - 8)%nat (drop 8 packetBuf).

Definition readPacket : M Client Packet :=
  run wrap ReadDeadlineError (on_conn SetReadDeadline) in
  let* sizeBuf := on_conn (ReadFull 4) in
  match get_int32_le sizeBuf with
  | None => throw UnexpectedEOF
  | Some size =>
      if (size <? 10) || (maxPacketSize <? size)
      then throw (InvalidPacketSize size)
      else
        let* packetBuf := on_conn (ReadFull (Z.to_nat size)) in
        match get_int32_le packetBuf, get_int32_le (drop 4 packetBuf) with
        | Some id, Some pType =>
            ret (mkPacket 0 id pType (string_of_list_byte (bodySlice packetBuf)))
        | _, _ => throw UnexpectedEOF
        end
  end.

(** The answer of [net.DialTimeout("tcp", address, timeout)]: a connection
    or an error.  It is the network's to give, so it is a parameter. *)
Definition Dialer : Type := string -> Conn + error.

Definition Connect (dial : Dialer) (address : string) : M Client unit :=
  let* connected := gets isConnected in
  if (connected : bool) then throw AlreadyConnected
  else
    match dial address with
    | inr err => throw (ConnectionError err)
    | inl k =>
        run modify (set_conn (Some k)) in
        modify (set_isConnected true)
    end.

Definition Authenticate (password : string) : M Client unit :=
  let* connected := gets isConnected in
  if negb connected then throw NotConnected
  else
    let* authorized := gets isAuthorized in
    if (authorized : bool) then throw AlreadyAuthenticated
    else
      let* id := getNextRequestID in
      let authPacket := mkPacket 0 id PacketTypeAuth password in
      run wrap SendAuthError (sendPacket authPacket) in
      let* response := wrap ReadAuthError readPacket in
      if ID response =? -1 then throw AuthenticationFailed
      else if negb (ID response =? ID authPacket) then throw UnexpectedResponse
      else modify (set_isAuthorized true).

Definition Execute (command : string) : M Client string :=
  let* connected := gets isConnected in
  if negb connected then throw NotConnected
  else
    let* authorized := gets isAuthorized in
    if negb authorized then throw NotAuthenticated
    else
      let* id := getNextRequestID in
      let cmdPacket := mkPacket 0 id PacketTypeCommand command in
      run wrap SendCommandError (sendPacket cmdPacket) in
      let* response := wrap ReadResponseError readPacket in
      if negb (ID response =? ID cmdPacket) then throw ResponseMismatch
      else ret (Body response).

Definition Disconnect : M Client unit :=
  let* connected := gets isConnected in
  if negb connected then ret tt
  else
    run wrap CloseError (on_conn Close) in
    run modify (set_conn None) in
    run modify (set_isConnected false) in
    modify (set_isAuthorized false).

Definition IsConnected : M Client bool := gets isConnected.
Definition IsAuthenticated : M Client bool := gets isAuthorized.

(** ** Package rcon: the session manager *)

(** [Session.Client] is a pointer: the client of a session is reached from
    the registry and from every caller that holds the session.  A pointer is
    a location [loc] of the store below. *)
Definition loc : Type := positive.

Record Session : Type := mkSession {
  Session_ID : string;
  Session_Client : loc;
  Session_Address : string;
  Session_Name : string;
  Session_Created : Z
}.

(** The memory the manager works on: the clients allocated so far, and the
    [sessions] map of the [SessionManager]. *)
Record Store : Type := mkStore {
  clients : gmap loc Client;
  sessions : gmap string Session
}.

Definition set_clients (h : gmap loc Client) (st : Store) : Store :=
  mkStore h (sessions st).
Definition set_sessions (m : gmap string Session) (st : Store) : Store :=
  mkStore (clients st) m.

(** [NewSessionManager()], in a memory without clients. *)
Definition NewSessionManager : Store := mkStore ∅ ∅.

(** A method call on the client at [l]; a dangling pointer panics. *)
Definition on_client {A} (l : loc) (m : M Client A) : M Store A :=
  fun st =>
    match clients st !! l with
    | None => (st, Panic)
    | Some c => let (c', r) := m c in (set_clients (<[l := c']> (clients st)) st, r)
    end.

(** [NewClient()] in the store: the new client lives at a location that
    was not in use. *)
Definition alloc_client : M Store loc :=
  fun st =>
    let l := fresh (dom (clients st)) in
    (set_clients (<[l := NewClient]> (clients st)) st, Ok l).

(** [now] is what [getCurrentTimestamp()] returns at the call. *)
Definition CreateSession (now : Z) (id name address : string) : M Store Session :=
  let* existing := gets (fun st => sessions st !! id) in
  match existing with
  | Some _ => throw (DuplicateSession id)
  | None =>
      let* client := alloc_client in
      let session := mkSession id client address name now in
      run modify (fun st => set_sessions (<[id := session]> (sessions st)) st) in
      ret session
  end.

Definition GetSession (id : string) : M Store Session :=
  let* found := gets (fun st => sessions st !! id) in
  match found with
  | None => throw (SessionNotFound id)
  | Some session => ret session
  end.

Definition RemoveSession (id : string) : M Store unit :=
  let* found := gets (fun st => sessions st !! id) in
  match found with
  | None => throw (SessionNotFound id)
  | Some session =>
      let* connected := on_client (Session_Client session) IsConnected in
      run (if (connected : bool)
           then wrap DisconnectClientError
                  (on_client (Session_Client session) Disconnect)
           else ret tt) in
      modify (fun st => set_sessions (delete id (sessions st)) st)
  end.

(** Go ranges over a map in an order it does not specify.  The order of a
    range is a parameter: a function that lists the entries of the map. *)
Definition RangeOrder : Type := gmap string Session -> list (string * Session).

(** [for _, session := range sm.sessions { sessions = append(sessions, session) }] *)
Definition ListSessions (range : RangeOrder) : M Store (list Session) :=
  let* entries := gets (fun st => range (sessions st)) in
  ret (foldl (fun sessions entry => sessions ++ [entry.2]) [] entries).

(** The loop of [DisconnectAll], with the [errs] collected so far. *)
Fixpoint disconnectEach (entries : list (string * Session))
    (errs : list session_failure) : M Store (list session_failure) :=
  match entries with
  | [] => ret errs
  | (id, session) :: rest =>
      let* connected := on_client (Session_Client session) IsConnected in
      if (connected : bool)
      then
        let* closed := attempt (on_client (Session_Client session) Disconnect) in
        match closed with
        | inl err => disconnectEach rest (errs ++ [DisconnectSessionError id err])
        | inr _ => disconnectEach rest errs
        end
      else disconnectEach rest errs
  end.

(** The value returned is the [error] of the source: [None] is [nil]. *)
Definition DisconnectAll (range : RangeOrder) : M Store (option outer_error) :=
  let* entries := gets (fun st => range (sessions st)) in
  let* errs := disconnectEach entries [] in
  run modify (set_sessions ∅) in
  if (0 <? length errs)%nat then ret (Some (Join errs)) else ret None.

End rcon.

(** ** Package mcp: the connect tool (server.go) *)

Module mcp.
Import rcon.

Record ConnectParams : Type := mkConnectParams {
  SessionID : string;
  Name : string;
  Address : string;
  Password : string
}.

(** The tool works on the package-level [sessionManager]: the store.  The
    result is the text of the tool's answer. *)
Definition Connect (now : Z) (dial : Dialer) (params : ConnectParams)
  : M Store string :=
  let* session :=
    wrap CreateSessionFailed
      (CreateSession now (SessionID params) (Name params) (Address params)) in
  run on_error
        (on_client (Session_Client session) (rcon.Connect dial (Address params)))
        (fun err =>
           run discard (RemoveSession (SessionID params)) in
           throw (ConnectFailed err)) in
  run on_error
        (on_client (Session_Client session) (Authenticate (Password params)))
        (fun err =>
           run discard (RemoveSession (SessionID params)) in
           throw (AuthenticateFailed err)) in
  ret ("Connected to RCON server at " ++ Address params
         ++ " (session: " ++ SessionID params ++ ")")%string.

Record DisconnectParams : Type := mkDisconnectParams {
  Disconnect_SessionID : string
}.

Record ExecuteParams : Type := mkExecuteParams {
  Execute_SessionID : string;
  Execute_Command : string
}.

(** The three tools below return their error as a value: [inl] is the
    error of the tool, [inr] the text of its answer. *)
Definition Disconnect (params : DisconnectParams) : M Store (outer_error + string) :=
  let* removed := attempt (RemoveSession (Disconnect_SessionID params)) in
  match removed with
  | inl err => ret (inl (DisconnectFailed err))
  | inr _ => ret (inr ("Disconnected session: " ++ Disconnect_SessionID params)%string)
  end.

Definition Execute (params : ExecuteParams) : M Store (outer_error + string) :=
  let* found := attempt (GetSession (Execute_SessionID params)) in
  match found with
  | inl err => ret (inl (SessionLookupFailed err))
  | inr session =>
      let* answer :=
        attempt (on_client (Session_Client session)
                   (rcon.Execute (Execute_Command params))) in
      match answer with
      | inl err => ret (inl (ExecuteFailed err))
      | inr response => ret (inr response)
      end
  end.

(** The line feed of the format strings. *)
Definition nl : string := String (Ascii.ascii_of_nat 10) EmptyString.

(** [fmt.Sprintf("- %s (%s): %s - %s\n", id, name, address, status)] *)
Definition sessionLine (id name address status : string) : string :=
  ("- " ++ id ++ " (" ++ name ++ "): " ++ address ++ " - " ++ status ++ nl)%string.

(** The loop of [ListSessions], with the [sessionInfo] built so far. *)
Fixpoint describeEach (listed : list Session) (sessionInfo : string)
  : M Store string :=
  match listed with
  | [] => ret sessionInfo
  | session :: rest =>
      let* connected := on_client (Session_Client session) IsConnected in
      let* status :=
        if (connected : bool)
        then
          let* authenticated :=
            on_client (Session_Client session) IsAuthenticated in
          if (authenticated : bool)
          then ret "connected & authenticated"%string
          else ret "connected (not authenticated)"%string
        else ret "disconnected"%string in
      let name :=
        if String.eqb (Session_Name session) ""
        then "unnamed"%string else Session_Name session in
      describeEach rest
        (sessionInfo
           ++ sessionLine (Session_ID session) name (Session_Address session) status)%string
  end.

Definition ListSessions (range : RangeOrder) : M Store string :=
  let* listed := rcon.ListSessions range in
  if (length listed =? 0)%nat
  then ret "No active RCON sessions"%string
  else describeEach listed ("Active RCON sessions:" ++ nl)%string.

End mcp.

(** ** Vocabulary of the properties *)

Import rcon.

(** A connection on which the deadline setters and the reads (the writes)
    do not fail by themselves. *)
Definition readable (k : Conn) : Prop :=
  readDeadlineErr k = None /\ readErr k = None.

Definition writable (k : Conn) : Prop :=
  writeDeadlineErr k = None /\ writeErr k = None.

(** [k'] is the object [k] after some traffic: the same handle, the same
    failures; the buffers and the closed flag may differ. *)
Definition same_endpoint (k k' : Conn) : Prop :=
  handle k' = handle k /\ readErr k' = readErr k /\ writeErr k' = writeErr k
  /\ closeErr k' = closeErr k /\ readDeadlineErr k' = readDeadlineErr k
  /\ writeDeadlineErr k' = writeDeadlineErr k.

(** The transport handle a client holds ([c.conn] as a pointer). *)
Definition handle_of (c : Client) : option nat := handle <$> conn c.

(** The clients a program can build: [NewClient()], then any calls of the
    four operations, whatever they return, and in between any traffic on the
    connection the client holds (the peer sends, the network fails). *)
Inductive reachable : Client -> Prop :=
  | reach_NewClient : reachable NewClient
  | reach_Connect dial address c :
      reachable c -> reachable (Connect dial address c).1
  | reach_Authenticate password c :
      reachable c -> reachable (Authenticate password c).1
  | reach_Execute command c :
      reachable c -> reachable (Execute command c).1
  | reach_Disconnect c :
      reachable c -> reachable (Disconnect c).1
  | reach_traffic c k k' :
      reachable c -> conn c = Some k -> handle k' = handle k ->
      reachable (set_conn (Some k') c).

(** A client holds a connection exactly while it is connected, and is
    authenticated only while connected. *)
Definition well_formed (c : Client) : Prop :=
  if isConnected c then is_Some (conn c)
  else conn c = None /\ isAuthorized c = false.

(** The client after [n] bytes were taken from the incoming bytes of its
    connection, and after [bs] was written to it. *)
Definition consume (n : nat) (c : Client) : Client :=
  set_conn ((fun k => set_readBuf (drop n (readBuf k)) k) <$> conn c) c.

Definition emit (bs : list byte) (c : Client) : Client :=
  set_conn ((fun k => set_writeBuf (writeBuf k ++ bs) k) <$> conn c) c.

(** A method that does nothing to the client but take bytes from its
    connection. *)
Definition reads_only {A} (m : M Client A) : Prop :=
  forall c, exists n, (m c).1 = consume n c.

(** *** Connections and clients used as concrete inputs *)

(** A healthy connection whose peer has sent [incoming]. *)
Definition loopback (incoming : list byte) : Conn :=
  mkConn 1 incoming [] false None None None None None.

(** The same, but [Close] fails. *)
Definition unclosable (incoming : list byte) : Conn :=
  mkConn 1 incoming [] false None None (Some (NetError "close failed")) None None.

(** The answer of a server that rejects the password, and a connected
    client (next request id 2, as in the tests) that is about to read it. *)
Definition auth_rejection : Packet := mkPacket 0 (-1) PacketTypeAuthResponse "".

Definition rejected_client : Client :=
  mkClient (Some (loopback (packetBytes auth_rejection))) 2 true false.

(** A multi-line answer to a command, and the authenticated client (next
    request id 2) about to read it. *)
Definition player_list : string :=
  ("Player1" ++ String (Ascii.ascii_of_nat 10) " Player2 ")%string.

Definition player_response : Packet := mkPacket 0 2 PacketTypeResponse player_list.

Definition listing_client : Client :=
  mkClient (Some (loopback (packetBytes player_response))) 2 true true.

(** A server that accepts the first authentication of a fresh client
    (request id 1), and the client connected to it and authenticated. *)
Definition accepting_dialer : Dialer :=
  fun _ => inl (loopback (packetBytes (mkPacket 0 1 PacketTypeAuthResponse ""))).

Definition session_client : Client :=
  (Authenticate "secret" (Connect accepting_dialer "127.0.0.1:25575" NewClient).1).1.

(** A client connected over a connection that cannot be closed. *)
Definition unclosable_dialer : Dialer := fun _ => inl (unclosable []).

Definition stuck_client : Client :=
  (Connect unclosable_dialer "127.0.0.1:25575" NewClient).1.

(** A registry with the session ["s1"], whose client is connected over a
    connection that cannot be closed. *)
Definition stuck_store : Store :=
  (on_client 1%positive (Connect unclosable_dialer "127.0.0.1:25575")
     (CreateSession 0 "s1" "" "127.0.0.1:25575" NewSessionManager).1).1.

(** A registry with the session ["s1"], connected and authenticated. *)
Definition live_store : Store :=
  (mcp.Connect 0 accepting_dialer
     (mcp.mkConnectParams "s1" "" "127.0.0.1:25575" "secret")
     NewSessionManager).1.

(** A server that rejects the password, over a connection that cannot be
    closed. *)
Definition rejecting_unclosable_dialer : Dialer :=
  fun _ => inl (unclosable (packetBytes auth_rejection)).

(** The connect tool against that server, on an empty registry; and
    against a server that refuses the connection. *)
Definition connect_params : mcp.ConnectParams :=
  mcp.mkConnectParams "s1" "" "127.0.0.1:25575" "badpass".

Definition failed_connect : Store * result string :=
  mcp.Connect 0 rejecting_unclosable_dialer connect_params NewSessionManager.

Definition refusing_dialer : Dialer :=
  fun _ => inr (NetError "connection refused").

(** *** Vocabulary of the further properties *)

(** A packet that fits the wire format: 32-bit id and type, a body of at
    most 4086 bytes; and the packet [readPacket] makes of its frame. *)
Definition sendable (p : Packet) : Prop :=
  int32_range (ID p) /\ int32_range (Type_ p)
  /\ Z.of_nat (length (list_byte_of_string (Body p))) + 10 <= 4096.

Definition received (p : Packet) : Packet :=
  mkPacket 0 (ID p) (Type_ p) (Body p).

(** [n] calls of [readPacket] in a row, as a reader of a stream makes. *)
Fixpoint readPackets (n : nat) : M Client (list Packet) :=
  match n with
  | O => ret []
  | S n' =>
      let* packet := readPacket in
      let* packets := readPackets n' in
      ret (packet :: packets)
  end.

(** An order of range that Go may choose: each entry of the map, once. *)
Definition range_ok (range : RangeOrder) : Prop :=
  forall m, range m ≡ₚ map_to_list m.

(** What the registry keeps true: a session is bound under its own
    identifier; its client is allocated and well formed; no two sessions
    have the same client. *)
Definition registry_inv (st : Store) : Prop :=
  forall id session,
    sessions st !! id = Some session ->
    Session_ID session = id
    /\ (exists c, clients st !! Session_Client session = Some c /\ well_formed c)
    /\ (forall id' session',
          sessions st !! id' = Some session' ->
          Session_Client session' = Session_Client session -> id' = id).

(** The stores a program can build: [NewSessionManager()], then any calls
    of the operations of the manager and of the four tools, whatever they
    return, and in between any traffic on the connection of a registered
    client. *)
Inductive reachable_store : Store -> Prop :=
  | store_new : reachable_store NewSessionManager
  | store_CreateSession now id name address st :
      reachable_store st ->
      reachable_store (CreateSession now id name address st).1
  | store_GetSession id st :
      reachable_store st -> reachable_store (GetSession id st).1
  | store_ListSessions range st :
      reachable_store st -> reachable_store (ListSessions range st).1
  | store_RemoveSession id st :
      reachable_store st -> reachable_store (RemoveSession id st).1
  | store_DisconnectAll range st :
      reachable_store st -> reachable_store (DisconnectAll range st).1
  | store_tool_Connect now dial params st :
      reachable_store st -> reachable_store (mcp.Connect now dial params st).1
  | store_tool_Disconnect params st :
      reachable_store st -> reachable_store (mcp.Disconnect params st).1
  | store_tool_Execute params st :
      reachable_store st -> reachable_store (mcp.Execute params st).1
  | store_tool_ListSessions range st :
      reachable_store st -> reachable_store (mcp.ListSessions range st).1
  | store_traffic st id session c k k' :
      reachable_store st ->
      sessions st !! id = Some session ->
      clients st !! Session_Client session = Some c ->
      conn c = Some k -> handle k' = handle k ->
      reachable_store
        (set_clients (<[Session_Client session := set_conn (Some k') c]> (clients st)) st).

(** A method of the store that keeps the invariant of the registry. *)
Definition preserves {A} (m : M Store A) : Prop :=
  forall st, registry_inv st -> registry_inv (m st).1.

(** The failure, if there is one, of the disconnect of the client of an
    entry of the registry, as [DisconnectAll] records it. *)
Definition disconnectFailure (st : Store) (entry : string * Session)
  : option session_failure :=
  match clients st !! Session_Client entry.2 with
  | Some c =>
      match (Disconnect c).2 with
      | Err err => Some (DisconnectSessionError entry.1 err)
      | _ => None
      end
  | None => None
  end.

(** The session a failure recorded by [DisconnectAll] is about. *)
Definition failedSession (f : session_failure) : string :=
  match f with DisconnectSessionError id _ => id end.

(** A caller that creates one session for each identifier of a list, one
    after the other, and stops at the first failure. *)
Fixpoint createEach (now : Z) (ids : list string) (name address : string)
  : M Store unit :=
  match ids with
  | [] => ret tt
  | id :: rest =>
      run CreateSession now id name address in
      createEach now rest name address
  end.

(** What the list tool shows of a session: the status of its client, the
    name or ["unnamed"], and the whole line. *)
Definition statusOf (c : Client) : string :=
  if isConnected c
  then if isAuthorized c
       then "connected & authenticated"
       else "connected (not authenticated)"
  else "disconnected".

Definition displayName (session : Session) : string :=
  if String.eqb (Session_Name session) "" then "unnamed" else Session_Name session.

Definition describe (st : Store) (session : Session) : string :=
  match clients st !! Session_Client session with
  | Some c =>
      mcp.sessionLine (Session_ID session) (displayName session)
        (Session_Address session) (statusOf c)
  | None => ""
  end.

(** The lines of a listing, one after the other. *)
Definition joinLines (lines : list string) : string :=
  foldr String.append "" lines.

(** Session [id] is the same in [st'] as in [st]: the same binding, and
    the same client behind it. *)
Definition same_session (id : string) (st st' : Store) : Prop :=
  sessions st' !! id = sessions st !! id
  /\ (forall session, sessions st !! id = Some session ->
        clients st' !! Session_Client session
        = clients st !! Session_Client session).

(** * Properties *)

(** ** The codec *)

Lemma Z_of_byte_of_Z z : Z_of_byte (byte_of_Z z) = z mod 256.
Proof.
  unfold Z_of_byte, byte_of_Z.
  assert (Hz : 0 <= z mod 256 < 256) by (apply Z.mod_pos_bound; lia).
  destruct (Byte.of_N (Z.to_N (z mod 256))) as [b|] eqn:Hb.
  - apply Byte.to_of_N in Hb. rewrite Hb. lia.
  - apply Byte.of_N_None_iff in Hb. lia.
Qed.

Lemma uint32_le_put v :
  uint32_le (byte_of_Z v) (byte_of_Z (Z.shiftr v 8))
    (byte_of_Z (Z.shiftr v 16)) (byte_of_Z (Z.shiftr v 24)) = v mod 2 ^ 32.
Proof.
  unfold uint32_le. rewrite !Z_of_byte_of_Z.
  change 256 with (2 ^ 8).
  apply Z.bits_inj'; intros n Hn.
  rewrite !Z.lor_spec, !Z.shiftl_spec by lia.
  rewrite !Z.testbit_mod_pow2 by lia.
  destruct (Z.ltb_spec n 8);
    [|destruct (Z.ltb_spec n 16);
      [|destruct (Z.ltb_spec n 24); [|destruct (Z.ltb_spec n 32)]]].
  all: repeat match goal with
       | |- context [Z.testbit ?a (?m - ?k)] =>
           first [ rewrite (Z.testbit_neg_r a (m - k)) by lia
                 | rewrite (Z.shiftr_spec _ _ (m - k)) by lia;
                   replace (m - k + k) with m by lia ]
       end.
  all: repeat match goal with
       | |- context [?a <? ?b] => destruct (Z.ltb_spec a b); try lia
       end.
  all: simpl; rewrite ?orb_false_r, ?andb_false_r; reflexivity.
Qed.

Lemma int32_of_range z : int32_range z -> int32 z = z.
Proof.
  unfold int32, int32_range. intros Hz.
  rewrite Z.mod_small by lia. lia.
Qed.

Lemma int32_mod z : int32 (z mod 2 ^ 32) = int32 z.
Proof.
  unfold int32. f_equal.
  rewrite Zplus_mod_idemp_l. reflexivity.
Qed.

Lemma get_put_int32_le v rest :
  get_int32_le (put_int32_le v ++ rest) = Some (int32 v).
Proof.
  unfold put_int32_le. simpl. rewrite uint32_le_put, int32_mod. reflexivity.
Qed.

Lemma length_put_int32_le v : length (put_int32_le v) = 4%nat.
Proof. reflexivity. Qed.

(** *** Method calls through [c.conn] *)

Lemma on_conn_Some {A} (m : M Conn A) c k :
  conn c = Some k ->
  on_conn m c = (set_conn (Some (fst (m k))) c, snd (m k)).
Proof. intros Hk. unfold on_conn. rewrite Hk. destruct (m k); reflexivity. Qed.

Lemma on_conn_None {A} (m : M Conn A) c :
  conn c = None -> on_conn m c = (c, Panic).
Proof. intros Hk. unfold on_conn. rewrite Hk. reflexivity. Qed.

Lemma set_conn_id c k : conn c = Some k -> set_conn (Some k) c = c.
Proof. destruct c; simpl; intros ->; reflexivity. Qed.

Lemma sendPacket_Some packet c k :
  conn c = Some k ->
  sendPacket packet c =
    match writeDeadlineErr k with
    | Some e => (c, Err (WriteDeadlineError e))
    | None =>
        match writeErr k with
        | Some e => (c, Err e)
        | None =>
            (set_conn (Some (set_writeBuf (writeBuf k ++ packetBytes packet) k)) c,
             Ok tt)
        end
    end.
Proof.
  intros Hk. unfold sendPacket, bind, wrap.
  rewrite (on_conn_Some _ _ _ Hk). unfold SetWriteDeadline, of_err.
  destruct (writeDeadlineErr k) eqn:Hd; simpl.
  - rewrite (set_conn_id _ _ Hk). reflexivity.
  - rewrite (set_conn_id _ _ Hk), (on_conn_Some _ _ _ Hk). unfold Write.
    destruct (writeErr k) eqn:Hw; simpl.
    + rewrite (set_conn_id _ _ Hk). reflexivity.
    + reflexivity.
Qed.

Lemma SetReadDeadline_ok k :
  readDeadlineErr k = None -> SetReadDeadline k = (k, Ok tt).
Proof. unfold SetReadDeadline. intros ->. reflexivity. Qed.

Lemma ReadFull_enough n k :
  readErr k = None -> (n <= length (readBuf k))%nat ->
  ReadFull n k = (set_readBuf (drop n (readBuf k)) k, Ok (take n (readBuf k))).
Proof.
  unfold ReadFull. intros -> Hn.
  destruct (Nat.leb_spec n (length (readBuf k))); [reflexivity | lia].
Qed.

Lemma ReadFull_short n k :
  readErr k = None -> (length (readBuf k) < n)%nat ->
  ReadFull n k =
    (set_readBuf [] k,
     Err (match readBuf k with [] => EOF | _ => UnexpectedEOF end)).
Proof.
  unfold ReadFull. intros -> Hn.
  destruct (Nat.leb_spec n (length (readBuf k))); [lia | reflexivity].
Qed.

Lemma readPacket_header c k b0 b1 b2 b3 rest :
  conn c = Some k -> readable k ->
  readBuf k = b0 :: b1 :: b2 :: b3 :: rest ->
  let size := int32 (uint32_le b0 b1 b2 b3) in
  readPacket c =
    if (size <? 10) || (maxPacketSize <? size)
    then (set_conn (Some (set_readBuf rest k)) c, Err (InvalidPacketSize size))
    else if (Z.to_nat size <=? length rest)%nat
    then
      let packetBuf := take (Z.to_nat size) rest in
      (set_conn (Some (set_readBuf (drop (Z.to_nat size) rest) k)) c,
       match get_int32_le packetBuf, get_int32_le (drop 4 packetBuf) with
       | Some id, Some pType =>
           Ok (mkPacket 0 id pType (string_of_list_byte (bodySlice packetBuf)))
       | _, _ => Err UnexpectedEOF
       end)
    else (set_conn (Some (set_readBuf [] k)) c,
          Err (match rest with [] => EOF | _ => UnexpectedEOF end)).
Proof.
  intros Hk [Hd Hr] Hbuf size. unfold readPacket, bind, wrap.
  rewrite (on_conn_Some _ _ _ Hk), (SetReadDeadline_ok _ Hd). simpl.
  rewrite (set_conn_id _ _ Hk), (on_conn_Some _ _ _ Hk).
  rewrite ReadFull_enough by (rewrite ?Hbuf; simpl; auto with lia).
  rewrite Hbuf. simpl. fold size.
  destruct ((size <? 10) || (maxPacketSize <? size)); [reflexivity|].
  set (k1 := set_readBuf rest k).
  assert (Hk1 : conn (set_conn (Some k1) c) = Some k1) by reflexivity.
  rewrite (on_conn_Some _ _ _ Hk1).
  destruct (Nat.leb_spec (Z.to_nat size) (length rest)) as [Hle|Hlt].
  - rewrite ReadFull_enough by (subst k1; simpl; auto). simpl.
    destruct (get_int32_le (take (Z.to_nat size) rest)); [|reflexivity].
    destruct (get_int32_le (drop 4 (take (Z.to_nat size) rest))); reflexivity.
  - rewrite ReadFull_short by (subst k1; simpl; auto). reflexivity.
Qed.

Lemma bodySlice_frame (hdr body : list byte) t1 t2 :
  length hdr = 8%nat -> bodySlice (hdr ++ body ++ [t1; t2]) = body.
Proof.
  intros Hh. unfold bodySlice.
  rewrite drop_app_length' by (symmetry; exact Hh).
  rewrite !length_app, Hh. simpl.
  apply take_app_length'. lia.
Qed.

Lemma readPacket_packetBytes p c k rest :
  int32_range (ID p) -> int32_range (Type_ p) ->
  Z.of_nat (length (list_byte_of_string (Body p))) + 10 <= maxPacketSize ->
  conn c = Some k -> readable k ->
  readBuf k = packetBytes p ++ rest ->
  readPacket c =
    (set_conn (Some (set_readBuf rest k)) c,
     Ok (mkPacket 0 (ID p) (Type_ p) (Body p))).
Proof.
  intros HI HT HB Hk Hread Hbuf. unfold maxPacketSize in HB.
  set (body := list_byte_of_string (Body p)) in *.
  assert (Hsize : packetSize p = Z.of_nat (length body) + 10).
  { unfold packetSize. fold body. apply int32_of_range. unfold int32_range. lia. }
  set (payload := (put_int32_le (ID p) ++ put_int32_le (Type_ p))
                    ++ body ++ [x00; x00]).
  assert (Hbytes : packetBytes p ++ rest
                   = put_int32_le (packetSize p) ++ payload ++ rest).
  { unfold packetBytes, payload. fold body. rewrite <- !app_assoc. reflexivity. }
  assert (Hlen : length payload = Z.to_nat (packetSize p)).
  { unfold payload. rewrite !length_app, !length_put_int32_le, Hsize. simpl. lia. }
  assert (Hbuf' : readBuf k =
            byte_of_Z (packetSize p) :: byte_of_Z (Z.shiftr (packetSize p) 8)
              :: byte_of_Z (Z.shiftr (packetSize p) 16)
              :: byte_of_Z (Z.shiftr (packetSize p) 24) :: payload ++ rest).
  { rewrite Hbuf, Hbytes. reflexivity. }
  rewrite (readPacket_header _ _ _ _ _ _ _ Hk Hread Hbuf').
  rewrite uint32_le_put, int32_mod, (int32_of_range (packetSize p))
    by (rewrite Hsize; unfold int32_range; lia).
  unfold maxPacketSize.
  destruct (Z.ltb_spec (packetSize p) 10); [lia|].
  destruct (Z.ltb_spec 4096 (packetSize p)); [lia|]. simpl orb. cbv iota.
  destruct (Nat.leb_spec (Z.to_nat (packetSize p)) (length (payload ++ rest)))
    as [_|Hlt]; [|rewrite length_app in Hlt; lia].
  cbv zeta.
  rewrite (take_app_length' payload rest) by (symmetry; exact Hlen).
  rewrite (drop_app_length' payload rest) by (symmetry; exact Hlen).
  assert (Hid : get_int32_le payload = Some (ID p)).
  { unfold payload. rewrite <- !app_assoc, get_put_int32_le.
    rewrite int32_of_range by assumption. reflexivity. }
  assert (Hty : get_int32_le (drop 4 payload) = Some (Type_ p)).
  { unfold payload. rewrite <- !app_assoc.
    rewrite (drop_app_length' (put_int32_le (ID p))) by reflexivity.
    rewrite get_put_int32_le, int32_of_range by assumption. reflexivity. }
  assert (Hbody : bodySlice payload = body).
  { unfold payload. apply bodySlice_frame. reflexivity. }
  rewrite Hid, Hty, Hbody. unfold body.
  rewrite string_of_list_byte_of_string. reflexivity.
Qed.

(** C5. Packet round trip: a packet whose id and type are 32-bit integers
    and whose body has at most 4086 bytes is written by [sendPacket] as
    [packetBytes], appended to what the connection had written; and
    [readPacket], on a connection whose incoming bytes start with these,
    consumes exactly them and returns a packet with the same id, the same
    type and the same body, byte for byte (the empty body included).  Null
    bytes in the body do not matter to the law. *)
Theorem packet_round_trip (p : Packet) (cs : Client) (ks : Conn) :
  int32_range (ID p) -> int32_range (Type_ p) ->
  Z.of_nat (length (list_byte_of_string (Body p))) + 10 <= 4096 ->
  conn cs = Some ks -> writable ks ->
  sendPacket p cs
  = (set_conn (Some (set_writeBuf (writeBuf ks ++ packetBytes p) ks)) cs, Ok tt)
  /\ forall (cr : Client) (kr : Conn) (rest : list byte),
       conn cr = Some kr -> readable kr ->
       readBuf kr = packetBytes p ++ rest ->
       readPacket cr
       = (set_conn (Some (set_readBuf rest kr)) cr,
          Ok (mkPacket 0 (ID p) (Type_ p) (Body p))).
Proof.
  intros HI HT HB Hks [Hwd Hw]. split.
  - rewrite (sendPacket_Some _ _ _ Hks), Hwd, Hw. reflexivity.
  - intros cr kr rest Hkr Hread Hbuf.
    apply readPacket_packetBytes; assumption.
Qed.

Lemma packet_round_trip_witness :
  let p := mkPacket 0 3 PacketTypeResponse "" in
  let cs := mkClient (Some (loopback [])) 1 true true in
  (int32_range (ID p) /\ int32_range (Type_ p)
   /\ Z.of_nat (length (list_byte_of_string (Body p))) + 10 <= 4096)
  /\ (sendPacket p cs).2 = Ok tt
  /\ (readPacket (mkClient (Some (loopback (packetBytes p))) 1 true true)).2
     = Ok p.
Proof.
  intros p cs.
  assert (HI : int32_range (ID p)) by (unfold int32_range; simpl; lia).
  assert (HT : int32_range (Type_ p))
    by (unfold int32_range; simpl; unfold PacketTypeResponse; lia).
  assert (HB : Z.of_nat (length (list_byte_of_string (Body p))) + 10 <= 4096)
    by (simpl; lia).
  destruct (packet_round_trip p cs (loopback []) HI HT HB eq_refl
              (conj eq_refl eq_refl)) as [Hsend Hread].
  split; [auto|]. split.
  - rewrite Hsend. reflexivity.
  - rewrite (Hread (mkClient (Some (loopback (packetBytes p))) 1 true true)
               (loopback (packetBytes p)) [] eq_refl (conj eq_refl eq_refl)).
    + reflexivity.
    + symmetry. apply app_nil_r.
Defined.

Lemma readPacket_short c k :
  conn c = Some k -> readable k -> (length (readBuf k) < 4)%nat ->
  (readPacket c).2 = Err (match readBuf k with [] => EOF | _ => UnexpectedEOF end).
Proof.
  intros Hk [Hd Hr] Hlen. unfold readPacket, bind, wrap.
  rewrite (on_conn_Some _ _ _ Hk), (SetReadDeadline_ok _ Hd). simpl.
  rewrite (set_conn_id _ _ Hk), (on_conn_Some _ _ _ Hk).
  rewrite ReadFull_short by assumption. reflexivity.
Qed.

Lemma readPacket_short_run c k :
  conn c = Some k -> readable k -> (length (readBuf k) < 4)%nat ->
  readPacket c
  = (set_conn (Some (set_readBuf [] k)) c,
     Err (match readBuf k with [] => EOF | _ => UnexpectedEOF end)).
Proof.
  intros Hk [Hd Hr] Hlen. unfold readPacket, bind, wrap.
  rewrite (on_conn_Some _ _ _ Hk), (SetReadDeadline_ok _ Hd). simpl.
  rewrite (set_conn_id _ _ Hk), (on_conn_Some _ _ _ Hk).
  rewrite ReadFull_short by assumption. reflexivity.
Qed.

(** C6. Packet receive size bounds: on every incoming byte stream that can
    be read, [readPacket] fails with [InvalidPacketSize] exactly when the
    stream has four bytes and those, decoded as a little-endian signed
    length, are below 10 or above 4096; so a declared length of 9 and one of
    4097 are rejected, and 10 and 4096 are not. *)
Theorem readPacket_size_bounds (c : Client) (k : Conn) :
  conn c = Some k -> readable k ->
  (forall s,
      (readPacket c).2 = Err (InvalidPacketSize s)
      <-> exists b0 b1 b2 b3 rest,
            readBuf k = b0 :: b1 :: b2 :: b3 :: rest
            /\ s = int32 (uint32_le b0 b1 b2 b3)
            /\ (s < 10 \/ 4096 < s))
  /\ (forall rest, readBuf k = put_int32_le 9 ++ rest ->
      (readPacket c).2 = Err (InvalidPacketSize 9))
  /\ (forall rest, readBuf k = put_int32_le 4097 ++ rest ->
      (readPacket c).2 = Err (InvalidPacketSize 4097))
  /\ (forall rest,
        readBuf k = put_int32_le 10 ++ rest
        \/ readBuf k = put_int32_le 4096 ++ rest ->
        forall s, (readPacket c).2 <> Err (InvalidPacketSize s)).
Proof.
  intros Hk Hread.
  assert (Hhead : forall b0 b1 b2 b3 rest s,
             readBuf k = b0 :: b1 :: b2 :: b3 :: rest ->
             (readPacket c).2 = Err (InvalidPacketSize s)
             <-> s = int32 (uint32_le b0 b1 b2 b3) /\ (s < 10 \/ 4096 < s)).
  { intros b0 b1 b2 b3 rest s Hbuf.
    rewrite (readPacket_header _ _ _ _ _ _ _ Hk Hread Hbuf).
    set (size := int32 (uint32_le b0 b1 b2 b3)). unfold maxPacketSize.
    destruct (Z.ltb_spec size 10); simpl.
    - split; [intros [= Hs]; lia | intros [-> _]; reflexivity].
    - destruct (Z.ltb_spec 4096 size); simpl.
      + split; [intros [= Hs]; lia | intros [-> _]; reflexivity].
      + split; [|lia]. intros Hs. exfalso.
        destruct (Z.to_nat size <=? length rest)%nat; simpl in Hs.
        * destruct (get_int32_le (take (Z.to_nat size) rest)); [|discriminate].
          destruct (get_int32_le (drop 4 (take (Z.to_nat size) rest)));
            discriminate.
        * destruct rest; discriminate. }
  assert (Hiff : forall s,
             (readPacket c).2 = Err (InvalidPacketSize s)
             <-> exists b0 b1 b2 b3 rest,
                   readBuf k = b0 :: b1 :: b2 :: b3 :: rest
                   /\ s = int32 (uint32_le b0 b1 b2 b3)
                   /\ (s < 10 \/ 4096 < s)).
  { intros s. split.
    - intros Hs.
      destruct (readBuf k) as [|b0 [|b1 [|b2 [|b3 rest]]]] eqn:Hbuf;
        try (rewrite (readPacket_short _ _ Hk Hread) in Hs
               by (rewrite Hbuf; simpl; lia);
             rewrite Hbuf in Hs; discriminate).
      exists b0, b1, b2, b3, rest. split; [reflexivity|].
      apply (Hhead _ _ _ _ _ _ eq_refl). exact Hs.
    - intros (b0 & b1 & b2 & b3 & rest & Hbuf & Hs).
      apply (Hhead _ _ _ _ _ _ Hbuf). exact Hs. }
  assert (Hdecl : forall v rest s,
             int32_range v -> readBuf k = put_int32_le v ++ rest ->
             (readPacket c).2 = Err (InvalidPacketSize s)
             <-> s = v /\ (s < 10 \/ 4096 < s)).
  { intros v rest s Hv Hbuf. unfold put_int32_le in Hbuf. simpl in Hbuf.
    rewrite (Hhead _ _ _ _ _ s Hbuf), uint32_le_put, int32_mod,
      (int32_of_range _ Hv). reflexivity. }
  split; [exact Hiff|]. split; [|split].
  - intros rest Hbuf. apply (Hdecl 9 rest); [unfold int32_range|..]; auto with lia.
  - intros rest Hbuf. apply (Hdecl 4097 rest); [unfold int32_range|..]; auto with lia.
  - intros rest [Hbuf|Hbuf] s Hs.
    + apply (Hdecl 10 rest) in Hs; [lia|unfold int32_range; lia|exact Hbuf].
    + apply (Hdecl 4096 rest) in Hs; [lia|unfold int32_range; lia|exact Hbuf].
Qed.

Lemma readPacket_size_bounds_witness :
  let k := loopback (put_int32_le 9 ++ repeat x00 9) in
  let c := mkClient (Some k) 1 true true in
  (conn c = Some k /\ readable k)
  /\ (readPacket c).2 = Err (InvalidPacketSize 9).
Proof.
  intros k c.
  assert (Hread : readable k) by (split; reflexivity).
  destruct (readPacket_size_bounds c k eq_refl Hread) as (_ & Hnine & _).
  split; [split; [reflexivity | exact Hread]|].
  apply (Hnine (repeat x00 9)). reflexivity.
Defined.

(** The four boundary lengths, on streams that carry a whole packet of
    zero bytes after the length. *)
Example readPacket_length_9 :
  (readPacket (mkClient (Some (loopback (put_int32_le 9 ++ repeat x00 9)))
                 1 true true)).2
  = Err (InvalidPacketSize 9).
Proof. vm_compute. reflexivity. Qed.

Example readPacket_length_10 :
  (readPacket (mkClient (Some (loopback (put_int32_le 10 ++ repeat x00 10)))
                 1 true true)).2
  = Ok (mkPacket 0 0 0 "").
Proof. vm_compute. reflexivity. Qed.

Example readPacket_length_4096 :
  exists packet,
    (readPacket (mkClient (Some (loopback (put_int32_le 4096 ++ repeat x00 4096)))
                   1 true true)).2
    = Ok packet
    /\ String.length (Body packet) = 4086%nat.
Proof. eexists. split; vm_compute; reflexivity. Qed.

Example readPacket_length_4097 :
  (readPacket (mkClient (Some (loopback (put_int32_le 4097 ++ repeat x00 4097)))
                 1 true true)).2
  = Err (InvalidPacketSize 4097).
Proof. vm_compute. reflexivity. Qed.

(** ** Traffic on the connection of a client *)

Lemma set_readBuf_id k : set_readBuf (readBuf k) k = k.
Proof. destruct k; reflexivity. Qed.

Lemma consume_0 c : consume 0 c = c.
Proof.
  unfold consume. destruct c as [[k|] n b1 b2]; simpl; [|reflexivity].
  unfold set_conn; simpl. rewrite drop_0, set_readBuf_id. reflexivity.
Qed.

Lemma consume_consume n m c : consume m (consume n c) = consume (n + m) c.
Proof.
  unfold consume. destruct c as [[k|] i b1 b2]; simpl; [|reflexivity].
  unfold set_conn, set_readBuf; simpl. rewrite drop_drop. reflexivity.
Qed.

Lemma consume_Some n c k :
  conn c = Some k ->
  consume n c = set_conn (Some (set_readBuf (drop n (readBuf k)) k)) c.
Proof. unfold consume. intros ->. reflexivity. Qed.

Lemma emit_Some bs c k :
  conn c = Some k ->
  emit bs c = set_conn (Some (set_writeBuf (writeBuf k ++ bs) k)) c.
Proof. unfold emit. intros ->. reflexivity. Qed.

Lemma reads_only_ret {A} (a : A) : reads_only (ret a).
Proof. intros c. exists 0%nat. simpl. symmetry. apply consume_0. Qed.

Lemma reads_only_throw {A} e : reads_only (@throw Client A e).
Proof. intros c. exists 0%nat. simpl. symmetry. apply consume_0. Qed.

Lemma reads_only_wrap {A} w (m : M Client A) :
  reads_only m -> reads_only (wrap w m).
Proof.
  intros Hm c. destruct (Hm c) as [n Hn]. exists n.
  unfold wrap. destruct (m c) as [c' [a|e|]]; exact Hn.
Qed.

Lemma reads_only_bind {A B} (m : M Client A) (f : A -> M Client B) :
  reads_only m -> (forall a, reads_only (f a)) -> reads_only (bind m f).
Proof.
  intros Hm Hf c. destruct (Hm c) as [n Hn]. unfold bind.
  destruct (m c) as [c' [a|e|]]; simpl in Hn; subst c'.
  - destruct (Hf a (consume n c)) as [n' Hn']. exists (n + n')%nat.
    rewrite Hn'. apply consume_consume.
  - exists n. reflexivity.
  - exists n. reflexivity.
Qed.

Lemma reads_only_on_conn {A} (m : M Conn A) :
  (forall k, exists n, (m k).1 = set_readBuf (drop n (readBuf k)) k) ->
  reads_only (on_conn m).
Proof.
  intros Hm c. destruct (conn c) as [k|] eqn:Hk.
  - destruct (Hm k) as [n Hn]. exists n.
    rewrite (on_conn_Some _ _ _ Hk), (consume_Some _ _ _ Hk). simpl.
    rewrite Hn. reflexivity.
  - exists 0%nat. rewrite (on_conn_None _ _ Hk). simpl.
    symmetry. apply consume_0.
Qed.

Lemma SetReadDeadline_reads k :
  exists n, (SetReadDeadline k).1 = set_readBuf (drop n (readBuf k)) k.
Proof.
  exists 0%nat. unfold SetReadDeadline, of_err.
  destruct (readDeadlineErr k); simpl; rewrite drop_0, set_readBuf_id; reflexivity.
Qed.

Lemma ReadFull_reads len k :
  exists n, (ReadFull len k).1 = set_readBuf (drop n (readBuf k)) k.
Proof.
  unfold ReadFull. destruct (readErr k).
  - exists 0%nat. simpl. rewrite drop_0, set_readBuf_id. reflexivity.
  - destruct (len <=? length (readBuf k))%nat.
    + exists len. reflexivity.
    + exists (length (readBuf k)). simpl. rewrite drop_all. reflexivity.
Qed.

Lemma readPacket_reads_only : reads_only readPacket.
Proof.
  unfold readPacket.
  apply reads_only_bind.
  { apply reads_only_wrap, reads_only_on_conn, SetReadDeadline_reads. }
  intros _. apply reads_only_bind.
  { apply reads_only_on_conn, ReadFull_reads. }
  intros sizeBuf. destruct (get_int32_le sizeBuf) as [size|];
    [|apply reads_only_throw].
  destruct ((size <? 10) || (maxPacketSize <? size)); [apply reads_only_throw|].
  apply reads_only_bind.
  { apply reads_only_on_conn, ReadFull_reads. }
  intros packetBuf.
  destruct (get_int32_le packetBuf); [|apply reads_only_throw].
  destruct (get_int32_le (drop 4 packetBuf));
    [apply reads_only_ret | apply reads_only_throw].
Qed.

(** [sendPacket] writes the packet and succeeds, or fails and leaves the
    client as it was. *)
Lemma sendPacket_state packet c :
  (sendPacket packet c = (emit (packetBytes packet) c, Ok tt)
   /\ exists k, conn c = Some k /\ writable k)
  \/ ((sendPacket packet c).1 = c /\ (sendPacket packet c).2 <> Ok tt).
Proof.
  destruct (conn c) as [k|] eqn:Hk.
  - rewrite (sendPacket_Some _ _ _ Hk).
    destruct (writeDeadlineErr k) eqn:Hd; [right; split; [reflexivity|discriminate]|].
    destruct (writeErr k) eqn:Hw; [right; split; [reflexivity|discriminate]|].
    left. rewrite (emit_Some _ _ _ Hk). split; [reflexivity|].
    exists k. repeat split; assumption.
  - right. unfold sendPacket, bind, wrap. rewrite (on_conn_None _ _ Hk).
    split; [reflexivity|discriminate].
Qed.

(** ** The operations of the client, step by step *)

Lemma Authenticate_run password c :
  isConnected c = true -> isAuthorized c = false ->
  Authenticate password c =
    let authPacket := mkPacket 0 (requestID c) PacketTypeAuth password in
    match sendPacket authPacket (getNextRequestID c).1 with
    | (c1, Ok _) =>
        match readPacket c1 with
        | (c2, Ok response) =>
            if ID response =? -1 then (c2, Err AuthenticationFailed)
            else if ID response =? requestID c
                 then (set_isAuthorized true c2, Ok tt)
                 else (c2, Err UnexpectedResponse)
        | (c2, Err e) => (c2, Err (ReadAuthError e))
        | (c2, Panic) => (c2, Panic)
        end
    | (c1, Err e) => (c1, Err (SendAuthError e))
    | (c1, Panic) => (c1, Panic)
    end.
Proof.
  intros Hc Ha. unfold Authenticate, bind, gets, wrap. simpl. rewrite Hc. simpl. rewrite Ha. simpl.
  destruct (sendPacket _ _) as [c1 [[]|e|]]; try reflexivity.
  destruct (readPacket c1) as [c2 [response|e|]]; try reflexivity.
  simpl. destruct (ID response =? -1); [reflexivity|].
  destruct (ID response =? requestID c); reflexivity.
Qed.

Lemma Execute_run command c :
  isConnected c = true -> isAuthorized c = true ->
  Execute command c =
    let cmdPacket := mkPacket 0 (requestID c) PacketTypeCommand command in
    match sendPacket cmdPacket (getNextRequestID c).1 with
    | (c1, Ok _) =>
        match readPacket c1 with
        | (c2, Ok response) =>
            if ID response =? requestID c
            then (c2, Ok (Body response))
            else (c2, Err ResponseMismatch)
        | (c2, Err e) => (c2, Err (ReadResponseError e))
        | (c2, Panic) => (c2, Panic)
        end
    | (c1, Err e) => (c1, Err (SendCommandError e))
    | (c1, Panic) => (c1, Panic)
    end.
Proof.
  intros Hc Ha. unfold Execute, bind, gets, wrap. simpl. rewrite Hc. simpl. rewrite Ha. simpl.
  destruct (sendPacket _ _) as [c1 [[]|e|]]; try reflexivity.
  destruct (readPacket c1) as [c2 [response|e|]]; try reflexivity.
  simpl. destruct (ID response =? requestID c); reflexivity.
Qed.

Lemma Execute_not_connected command c :
  isConnected c = false -> Execute command c = (c, Err NotConnected).
Proof. intros Hc. unfold Execute, bind, gets. rewrite Hc. reflexivity. Qed.

Lemma Execute_not_authenticated command c :
  isConnected c = true -> isAuthorized c = false ->
  Execute command c = (c, Err NotAuthenticated).
Proof.
  intros Hc Ha. unfold Execute, bind, gets. simpl. rewrite Hc. simpl. rewrite Ha. reflexivity.
Qed.

(** The client one [sendPacket] leaves. *)
Lemma exchange_state packet c0 c1 r1 :
  sendPacket packet c0 = (c1, r1) ->
  (c1 = c0 /\ r1 <> Ok tt)
  \/ (c1 = emit (packetBytes packet) c0 /\ r1 = Ok tt).
Proof.
  intros Hs.
  destruct (sendPacket_state packet c0) as [[H _]|[H1 H2]]; rewrite Hs in *.
  - right. inversion H. auto.
  - left. auto.
Qed.

Lemma Execute_state command c :
  (isConnected c && isAuthorized c = false /\ (Execute command c).1 = c)
  \/ (isConnected c && isAuthorized c = true
      /\ exists n, let c0 := (getNextRequestID c).1 in
           (Execute command c).1 = consume n c0
           \/ (Execute command c).1
              = consume n (emit (packetBytes
                   (mkPacket 0 (requestID c) PacketTypeCommand command)) c0)).
Proof.
  destruct (isConnected c) eqn:Hc.
  - destruct (isAuthorized c) eqn:Ha.
    + right. split; [reflexivity|]. rewrite (Execute_run _ _ Hc Ha). cbv zeta.
      destruct (sendPacket _ _) as [c1 r1] eqn:Hs.
      assert (Hc1 : c1 = (getNextRequestID c).1
                \/ c1 = emit (packetBytes
                     (mkPacket 0 (requestID c) PacketTypeCommand command))
                     (getNextRequestID c).1)
        by (destruct (exchange_state _ _ _ _ Hs) as [[? _]|[? _]]; auto).
      assert (Hno : exists n, c1 = consume n (getNextRequestID c).1
                \/ c1 = consume n (emit (packetBytes
                     (mkPacket 0 (requestID c) PacketTypeCommand command))
                     (getNextRequestID c).1)).
      { exists 0%nat. rewrite !consume_0. exact Hc1. }
      destruct r1 as [[]|e|]; try exact Hno.
      destruct (readPacket_reads_only c1) as [n Hn].
      destruct (readPacket c1) as [c2 r2]. simpl in Hn. subst c2.
      assert (Hyes : exists m, consume n c1 = consume m (getNextRequestID c).1
                \/ consume n c1 = consume m (emit (packetBytes
                     (mkPacket 0 (requestID c) PacketTypeCommand command))
                     (getNextRequestID c).1)).
      { exists n. destruct Hc1 as [-> | ->]; auto. }
      destruct r2 as [response|e|]; try exact Hyes.
      destruct (ID response =? requestID c); exact Hyes.
    + left. split; [reflexivity|].
      rewrite (Execute_not_authenticated _ _ Hc Ha). reflexivity.
  - left. split; [reflexivity|].
    rewrite (Execute_not_connected _ _ Hc). reflexivity.
Qed.

(** One exchange against a peer that has sent the packet [resp]. *)
Lemma exchange_on_wire packet resp c0 k rest :
  conn c0 = Some k -> writable k -> readable k ->
  int32_range (ID resp) -> int32_range (Type_ resp) ->
  Z.of_nat (length (list_byte_of_string (Body resp))) + 10 <= 4096 ->
  readBuf k = packetBytes resp ++ rest ->
  let k1 := set_writeBuf (writeBuf k ++ packetBytes packet) k in
  sendPacket packet c0 = (set_conn (Some k1) c0, Ok tt)
  /\ readPacket (set_conn (Some k1) c0)
     = (set_conn (Some (set_readBuf rest k1)) c0,
        Ok (mkPacket 0 (ID resp) (Type_ resp) (Body resp))).
Proof.
  intros Hk [Hwd Hw] Hread HI HT HB Hbuf k1. split.
  - rewrite (sendPacket_Some _ _ _ Hk), Hwd, Hw. reflexivity.
  - rewrite (readPacket_packetBytes resp (set_conn (Some k1) c0) k1 rest);
      try assumption; reflexivity.
Qed.

(** C3. [Authenticate] on a connected client that is not authenticated:
    the packet it sends is the Auth packet carrying the client's next
    request id and the password, and it is sent once; a response with id -1
    is [AuthenticationFailed] whatever id was sent; any other response id
    that differs from the sent one is [UnexpectedResponse]; a response with
    the sent id makes the client authenticated; and whenever the call fails
    the client is still not authenticated. *)
Theorem Authenticate_outcome (password : string) (c : Client) :
  isConnected c = true -> isAuthorized c = false ->
  let id := requestID c in
  let authPacket := mkPacket 0 id PacketTypeAuth password in
  let c0 := (getNextRequestID c).1 in
  (forall c1 c2 response,
      sendPacket authPacket c0 = (c1, Ok tt) ->
      readPacket c1 = (c2, Ok response) ->
      (ID response = -1 ->
       Authenticate password c = (c2, Err AuthenticationFailed))
      /\ (ID response <> -1 -> ID response <> id ->
          Authenticate password c = (c2, Err UnexpectedResponse))
      /\ (ID response <> -1 -> ID response = id ->
          Authenticate password c = (set_isAuthorized true c2, Ok tt)))
  /\ (forall k c' r,
        conn c = Some k -> writable k ->
        Authenticate password c = (c', r) ->
        exists k', conn c' = Some k'
                   /\ writeBuf k' = writeBuf k ++ packetBytes authPacket)
  /\ (forall c' r,
        Authenticate password c = (c', r) ->
        (r = Ok tt -> isAuthorized c' = true)
        /\ (r <> Ok tt -> isAuthorized c' = false))
  /\ (forall k resp rest,
        conn c = Some k -> writable k -> readable k ->
        int32_range (ID resp) -> int32_range (Type_ resp) ->
        Z.of_nat (length (list_byte_of_string (Body resp))) + 10 <= 4096 ->
        readBuf k = packetBytes resp ++ rest ->
        let c2 := set_conn (Some (set_readBuf rest
                    (set_writeBuf (writeBuf k ++ packetBytes authPacket) k))) c0 in
        Authenticate password c =
          if ID resp =? -1 then (c2, Err AuthenticationFailed)
          else if ID resp =? id then (set_isAuthorized true c2, Ok tt)
          else (c2, Err UnexpectedResponse)).
Proof.
  intros Hc Ha id authPacket c0.
  pose proof (Authenticate_run password c Hc Ha) as Hrun. cbv zeta in Hrun.
  fold id authPacket c0 in Hrun. split; [|split; [|split]]; cycle 3.
  { intros k resp rest Hk Hwr Hrd HI HT HB Hbuf c2.
    assert (Hk0 : conn c0 = Some k) by exact Hk.
    destruct (exchange_on_wire authPacket resp c0 k rest Hk0 Hwr Hrd HI HT HB Hbuf)
      as [Hs Hr].
    rewrite Hrun, Hs, Hr. reflexivity. }
  - intros c1 c2 response Hs Hr. rewrite Hrun, Hs, Hr.
    repeat split.
    + intros ->. reflexivity.
    + intros Hne1 Hne. destruct (Z.eqb_spec (ID response) (-1)); [lia|].
      destruct (Z.eqb_spec (ID response) id); [lia|reflexivity].
    + intros Hne1 He. destruct (Z.eqb_spec (ID response) (-1)); [lia|].
      destruct (Z.eqb_spec (ID response) id); [reflexivity|lia].
  - intros k c' r Hk Hwr Hres.
    assert (Hk0 : conn c0 = Some k) by exact Hk.
    destruct Hwr as [Hwd Hw].
    rewrite Hrun, (sendPacket_Some _ _ _ Hk0), Hwd, Hw in Hres.
    set (k1 := set_writeBuf (writeBuf k ++ packetBytes authPacket) k) in *.
    destruct (readPacket_reads_only (set_conn (Some k1) c0)) as [n Hn].
    destruct (readPacket (set_conn (Some k1) c0)) as [c2 r2].
    simpl in Hn. subst c2.
    exists (set_readBuf (drop n (readBuf k1)) k1). split; [|reflexivity].
    destruct r2 as [response|e|]; [|inversion Hres; reflexivity..].
    destruct (ID response =? -1); [inversion Hres; reflexivity|].
    destruct (ID response =? id); inversion Hres; reflexivity.
  - intros c' r Hres. rewrite Hrun in Hres.
    destruct (sendPacket authPacket c0) as [c1 r1] eqn:Hs.
    assert (Hc1 : isAuthorized c1 = false).
    { destruct (exchange_state _ _ _ _ Hs) as [[-> _]|[-> _]]; exact Ha. }
    destruct r1 as [[]|e|];
      [|inversion Hres; subst; split; [discriminate|auto]..].
    destruct (readPacket_reads_only c1) as [n Hn].
    destruct (readPacket c1) as [c2 r2]. simpl in Hn. subst c2.
    destruct r2 as [response|e|];
      [|inversion Hres; subst; split; [discriminate|auto]..].
    destruct (ID response =? -1);
      [inversion Hres; subst; split; [discriminate|auto]|].
    destruct (ID response =? id); inversion Hres; subst.
    + split; [reflexivity|congruence].
    + split; [discriminate|auto].
Qed.

Lemma Authenticate_outcome_witness :
  isConnected rejected_client = true /\ isAuthorized rejected_client = false
  /\ (Authenticate "badpass" rejected_client).2 = Err AuthenticationFailed
  /\ isAuthorized (Authenticate "badpass" rejected_client).1 = false.
Proof.
  destruct (Authenticate_outcome "badpass" rejected_client eq_refl eq_refl)
    as (_ & _ & Hflag & Hwire).
  assert (Hrun : Authenticate "badpass" rejected_client
                 = ((Authenticate "badpass" rejected_client).1,
                    Err AuthenticationFailed)).
  { rewrite (Hwire (loopback (packetBytes auth_rejection)) auth_rejection []
               eq_refl (conj eq_refl eq_refl) (conj eq_refl eq_refl)).
    - reflexivity.
    - unfold int32_range. simpl. lia.
    - unfold int32_range. simpl. unfold PacketTypeAuthResponse. lia.
    - simpl. lia.
    - symmetry. apply app_nil_r. }
  split; [reflexivity|]. split; [reflexivity|]. split.
  - rewrite Hrun. reflexivity.
  - apply (Hflag _ _ Hrun). discriminate.
Defined.

(** C4. [Execute]: [NotConnected] on a client that is not connected,
    [NotAuthenticated] on a connected client that is not authenticated, and
    in both cases nothing else happens.  Otherwise one Command packet with
    the next request id is sent and one packet is read; a response whose id
    is not the sent id is [ResponseMismatch], and otherwise the body of the
    response is returned as it is.  Against a peer that has sent a packet,
    the body returned is, byte for byte, the body the peer encoded (empty,
    multi-line, with or without surrounding blanks), the command packet is
    what was written and the response packet is what was consumed.  The
    send comes first and does not depend on the answer: over a connection
    that can be written to, the Command packet has been written, once,
    whatever is read afterwards and whatever the call returns (also when
    the peer sends nothing); when the send fails the call fails with
    [SendCommandError] and nothing is read; when the read fails the call
    fails with [ReadResponseError]. *)
Theorem Execute_outcome (command : string) (c : Client) :
  (isConnected c = false -> Execute command c = (c, Err NotConnected))
  /\ (isConnected c = true -> isAuthorized c = false ->
      Execute command c = (c, Err NotAuthenticated))
  /\ (isConnected c = true -> isAuthorized c = true ->
      let id := requestID c in
      let cmdPacket := mkPacket 0 id PacketTypeCommand command in
      let c0 := (getNextRequestID c).1 in
      (forall c1 c2 response,
          sendPacket cmdPacket c0 = (c1, Ok tt) ->
          readPacket c1 = (c2, Ok response) ->
          Execute command c =
            if ID response =? id then (c2, Ok (Body response))
            else (c2, Err ResponseMismatch))
      /\ (forall k resp rest,
            conn c = Some k -> writable k -> readable k ->
            int32_range (ID resp) -> int32_range (Type_ resp) ->
            Z.of_nat (length (list_byte_of_string (Body resp))) + 10 <= 4096 ->
            readBuf k = packetBytes resp ++ rest ->
            let c2 := set_conn (Some (set_readBuf rest
                        (set_writeBuf (writeBuf k ++ packetBytes cmdPacket) k))) c0 in
            Execute command c =
              if ID resp =? id then (c2, Ok (Body resp))
              else (c2, Err ResponseMismatch))
      /\ (forall k c' r,
            conn c = Some k -> writable k ->
            Execute command c = (c', r) ->
            exists k', conn c' = Some k'
                       /\ writeBuf k' = writeBuf k ++ packetBytes cmdPacket)
      /\ (forall k,
            conn c = Some k -> writable k -> readable k -> readBuf k = [] ->
            Execute command c
            = (set_conn (Some (set_writeBuf (writeBuf k ++ packetBytes cmdPacket) k))
                 c0,
               Err (ReadResponseError EOF)))
      /\ (forall c1 e,
            sendPacket cmdPacket c0 = (c1, Err e) ->
            c1 = c0 /\ Execute command c = (c0, Err (SendCommandError e)))
      /\ (forall c1 c2 e,
            sendPacket cmdPacket c0 = (c1, Ok tt) ->
            readPacket c1 = (c2, Err e) ->
            Execute command c = (c2, Err (ReadResponseError e)))).
Proof.
  split; [apply Execute_not_connected|].
  split; [apply Execute_not_authenticated|].
  intros Hc Ha id cmdPacket c0.
  pose proof (Execute_run command c Hc Ha) as Hrun. cbv zeta in Hrun.
  fold id cmdPacket c0 in Hrun.
  split; [|split; [|split; [|split; [|split]]]].
  - intros c1 c2 response Hs Hr. rewrite Hrun, Hs, Hr. reflexivity.
  - intros k resp rest Hk Hwr Hrd HI HT HB Hbuf c2.
    assert (Hk0 : conn c0 = Some k) by exact Hk.
    destruct (exchange_on_wire cmdPacket resp c0 k rest Hk0 Hwr Hrd HI HT HB Hbuf)
      as [Hs Hr].
    rewrite Hrun, Hs, Hr. reflexivity.
  - intros k c' r Hk Hwr Hres.
    assert (Hk0 : conn c0 = Some k) by exact Hk.
    destruct Hwr as [Hwd Hw].
    rewrite Hrun, (sendPacket_Some _ _ _ Hk0), Hwd, Hw in Hres.
    set (k1 := set_writeBuf (writeBuf k ++ packetBytes cmdPacket) k) in *.
    destruct (readPacket_reads_only (set_conn (Some k1) c0)) as [n Hn].
    destruct (readPacket (set_conn (Some k1) c0)) as [c2 r2].
    simpl in Hn. subst c2.
    exists (set_readBuf (drop n (readBuf k1)) k1). split; [|reflexivity].
    destruct r2 as [response|e|]; [|inversion Hres; reflexivity..].
    destruct (ID response =? id); inversion Hres; reflexivity.
  - intros k Hk [Hwd Hw] Hrd Hbuf.
    assert (Hk0 : conn c0 = Some k) by exact Hk.
    rewrite Hrun, (sendPacket_Some _ _ _ Hk0), Hwd, Hw.
    set (k1 := set_writeBuf (writeBuf k ++ packetBytes cmdPacket) k).
    assert (Hk1 : conn (set_conn (Some k1) c0) = Some k1) by reflexivity.
    assert (Hrd1 : readable k1) by exact Hrd.
    assert (Hshort : (length (readBuf k1) < 4)%nat)
      by (change (readBuf k1) with (readBuf k); rewrite Hbuf; simpl; lia).
    rewrite (readPacket_short_run _ k1 Hk1 Hrd1 Hshort).
    change (readBuf k1) with (readBuf k).
    unfold k1, set_conn, set_readBuf, set_writeBuf. simpl.
    rewrite Hbuf. reflexivity.
  - intros c1 e Hs.
    destruct (exchange_state _ _ _ _ Hs) as [[-> _]|[_ Hok]]; [|discriminate].
    split; [reflexivity|]. rewrite Hrun, Hs. reflexivity.
  - intros c1 c2 e Hs Hr. rewrite Hrun, Hs, Hr. reflexivity.
Qed.

Lemma Execute_outcome_witness :
  (Execute "list" NewClient).2 = Err NotConnected
  /\ (Execute "list" rejected_client).2 = Err NotAuthenticated
  /\ (Execute "list" listing_client).2 = Ok player_list.
Proof.
  destruct (Execute_outcome "list" NewClient) as (H1 & _).
  destruct (Execute_outcome "list" rejected_client) as (_ & H2 & _).
  destruct (Execute_outcome "list" listing_client) as (_ & _ & H3).
  destruct (H3 eq_refl eq_refl) as (_ & Hwire & _).
  split; [|split].
  - rewrite (H1 eq_refl). reflexivity.
  - rewrite (H2 eq_refl eq_refl). reflexivity.
  - rewrite (Hwire (loopback (packetBytes player_response)) player_response []
               eq_refl (conj eq_refl eq_refl) (conj eq_refl eq_refl)).
    + reflexivity.
    + unfold int32_range. simpl. lia.
    + unfold int32_range. simpl. unfold PacketTypeResponse. lia.
    + vm_compute. discriminate.
    + symmetry. apply app_nil_r.
Defined.

Lemma emit_nil c : emit [] c = c.
Proof.
  unfold emit. destruct c as [[k|] i b1 b2]; simpl; [|reflexivity].
  unfold set_conn; simpl. rewrite app_nil_r. destruct k; reflexivity.
Qed.

(** C10. Frame of [Execute]: whatever it returns, the connected flag, the
    authenticated flag and the transport handle of the client are what they
    were; the request-id counter is untouched when a precondition check
    fails and is advanced by one (as an [int32]) as soon as both checks
    pass, also when the exchange then fails.  Apart from the counter, the
    client differs from what it was only by bytes written to and bytes
    taken from the connection it holds. *)
Theorem Execute_frame (command : string) (c : Client) :
  let c' := (Execute command c).1 in
  isConnected c' = isConnected c
  /\ isAuthorized c' = isAuthorized c
  /\ handle_of c' = handle_of c
  /\ requestID c'
     = (if isConnected c && isAuthorized c
        then int32 (requestID c + 1) else requestID c)
  /\ (isConnected c = true -> isAuthorized c = true ->
      requestID c < 2 ^ 31 - 1 -> - 2 ^ 31 <= requestID c ->
      requestID c' = requestID c + 1)
  /\ exists n bs, c' = consume n (emit bs (set_requestID (requestID c') c)).
Proof.
  intros c'.
  assert (Hshape : (isConnected c && isAuthorized c = false /\ c' = c)
                   \/ (isConnected c && isAuthorized c = true
                       /\ exists n bs,
                            c' = consume n (emit bs (getNextRequestID c).1))).
  { subst c'. destruct (Execute_state command c) as [[Hb ->]|[Hb [n Hn]]].
    - left. auto.
    - right. split; [exact Hb|]. cbv zeta in Hn. destruct Hn as [-> | ->].
      + exists n, []. rewrite emit_nil. reflexivity.
      + eexists n, _. reflexivity. }
  destruct Hshape as [[Hb ->]|[Hb (n & bs & ->)]]; rewrite Hb.
  - repeat split; try reflexivity.
    + intros Hc Ha. rewrite Hc, Ha in Hb. discriminate.
    + exists 0%nat, []. rewrite emit_nil, consume_0. destruct c; reflexivity.
  - assert (Hid : requestID (consume n (emit bs (getNextRequestID c).1))
                  = int32 (requestID c + 1)) by reflexivity.
    split; [reflexivity|]. split; [reflexivity|]. split.
    { unfold handle_of, consume, emit. destruct c as [[k|] i b1 b2]; reflexivity. }
    split; [exact Hid|]. split.
    + intros _ _ Hlt Hge. rewrite Hid.
      apply int32_of_range. unfold int32_range. lia.
    + exists n, bs. rewrite Hid. reflexivity.
Qed.

Lemma Connect_run dial address c :
  Connect dial address c =
    if isConnected c then (c, Err AlreadyConnected)
    else match dial address with
         | inr err => (c, Err (ConnectionError err))
         | inl k => (mkClient (Some k) (requestID c) true (isAuthorized c), Ok tt)
         end.
Proof.
  unfold Connect, bind, gets. simpl. destruct (isConnected c); [reflexivity|].
  destruct (dial address); reflexivity.
Qed.

Lemma Disconnect_not_connected c :
  isConnected c = false -> Disconnect c = (c, Ok tt).
Proof. intros Hc. unfold Disconnect, bind, gets. simpl. rewrite Hc. reflexivity. Qed.

Lemma Disconnect_connected c k :
  isConnected c = true -> conn c = Some k ->
  Disconnect c =
    match closeErr k with
    | Some cause => (c, Err (CloseError cause))
    | None => (mkClient None (requestID c) false false, Ok tt)
    end.
Proof.
  intros Hc Hk. unfold Disconnect, bind, gets, wrap. simpl. rewrite Hc. simpl.
  rewrite (on_conn_Some _ _ _ Hk). unfold Close.
  destruct (closeErr k); simpl.
  - rewrite (set_conn_id _ _ Hk). reflexivity.
  - reflexivity.
Qed.

Lemma Authenticate_state password c :
  (Authenticate password c).1 = c
  \/ (isConnected c = true
      /\ exists n,
           let c0 := (getNextRequestID c).1 in
           let sent := emit (packetBytes
                         (mkPacket 0 (requestID c) PacketTypeAuth password)) c0 in
           (Authenticate password c).1 = consume n c0
           \/ (Authenticate password c).1 = consume n sent
           \/ (Authenticate password c).1 = set_isAuthorized true (consume n sent)).
Proof.
  destruct (isConnected c) eqn:Hc.
  - destruct (isAuthorized c) eqn:Ha.
    + left. unfold Authenticate, bind, gets. simpl. rewrite Hc. simpl.
      rewrite Ha. reflexivity.
    + right. split; [reflexivity|]. rewrite (Authenticate_run _ _ Hc Ha).
      cbv zeta.
      destruct (sendPacket _ _) as [c1 r1] eqn:Hs.
      destruct (exchange_state _ _ _ _ Hs) as [[-> Hr1]|[-> ->]].
      * exists 0%nat. rewrite !consume_0.
        destruct r1 as [[]|e|]; [congruence|simpl; tauto..].
      * destruct (readPacket_reads_only
                    (emit (packetBytes
                       (mkPacket 0 (requestID c) PacketTypeAuth password))
                       (getNextRequestID c).1)) as [n Hn].
        destruct (readPacket _) as [c2 r2]. simpl in Hn. subst c2.
        exists n. destruct r2 as [response|e|]; [|simpl; tauto..].
        destruct (ID response =? -1); [simpl; tauto|].
        destruct (ID response =? requestID c); simpl; tauto.
  - left. unfold Authenticate, bind, gets. simpl. rewrite Hc. reflexivity.
Qed.

(** ** The state machine of the client *)

Lemma well_formed_consume n c : well_formed c -> well_formed (consume n c).
Proof.
  unfold well_formed, consume.
  destruct c as [[k|] i [] b]; simpl; intros H;
    try (eexists; reflexivity); try (destruct H; discriminate); auto.
Qed.

Lemma well_formed_emit bs c : well_formed c -> well_formed (emit bs c).
Proof.
  unfold well_formed, emit.
  destruct c as [[k|] i [] b]; simpl; intros H;
    try (eexists; reflexivity); try (destruct H; discriminate); auto.
Qed.

Lemma well_formed_getNextRequestID c :
  well_formed c -> well_formed (getNextRequestID c).1.
Proof. unfold well_formed. destruct c; simpl; auto. Qed.

Lemma well_formed_set_isAuthorized c :
  isConnected c = true -> well_formed c -> well_formed (set_isAuthorized true c).
Proof. unfold well_formed. destruct c; simpl. intros ->. auto. Qed.

Create HintDb well_formed discriminated.
#[local] Hint Resolve well_formed_consume well_formed_emit
  well_formed_getNextRequestID well_formed_set_isAuthorized : well_formed.

Lemma well_formed_Connect dial address c :
  well_formed c -> well_formed (Connect dial address c).1.
Proof.
  intros Hwf. rewrite Connect_run. destruct (isConnected c) eqn:Hc; [exact Hwf|].
  destruct (dial address) as [k|e]; [|exact Hwf].
  unfold well_formed. simpl. eexists; reflexivity.
Qed.

Lemma well_formed_Authenticate password c :
  well_formed c -> well_formed (Authenticate password c).1.
Proof.
  intros Hwf.
  destruct (Authenticate_state password c) as [-> | [Hc [n H]]]; [exact Hwf|].
  cbv zeta in H.
  destruct H as [-> | [-> | ->]]; auto with well_formed.
Qed.

Lemma well_formed_Execute command c :
  well_formed c -> well_formed (Execute command c).1.
Proof.
  intros Hwf.
  destruct (Execute_state command c) as [[_ ->] | [_ [n H]]]; [exact Hwf|].
  cbv zeta in H.
  destruct H as [-> | ->]; auto with well_formed.
Qed.

Lemma well_formed_Disconnect c :
  well_formed c -> well_formed (Disconnect c).1.
Proof.
  intros Hwf. destruct (isConnected c) eqn:Hc.
  - assert (Hsome : is_Some (conn c))
      by (unfold well_formed in Hwf; rewrite Hc in Hwf; exact Hwf).
    destruct Hsome as [k Hk]. rewrite (Disconnect_connected _ _ Hc Hk).
    destruct (closeErr k); [exact Hwf|]. unfold well_formed. simpl. auto.
  - rewrite (Disconnect_not_connected _ Hc). exact Hwf.
Qed.

Lemma reachable_well_formed c : reachable c -> well_formed c.
Proof.
  induction 1 as [| dial address c _ IH | password c _ IH | command c _ IH
                  | c _ IH | c k k' _ IH Hk Hh].
  - unfold well_formed. simpl. auto.
  - apply well_formed_Connect, IH.
  - apply well_formed_Authenticate, IH.
  - apply well_formed_Execute, IH.
  - apply well_formed_Disconnect, IH.
  - unfold well_formed in *. destruct c as [q i [] b]; simpl in *.
    + eexists; reflexivity.
    + destruct IH as [Hq _]. congruence.
Qed.

(** C7. State-machine invariant: in every client reachable from
    [NewClient()] by calls of [Connect], [Authenticate], [Execute] and
    [Disconnect], whatever each returned and whatever happened on the
    connection in between, authenticated implies connected; and [Execute]
    returns at one of its two precondition checks, touching nothing, unless
    both flags are set. *)
Theorem authenticated_implies_connected (c : Client) :
  reachable c ->
  (isAuthorized c = true -> isConnected c = true)
  /\ forall command,
       (isConnected c && isAuthorized c = false ->
        Execute command c
        = (c, Err (if isConnected c then NotAuthenticated else NotConnected)))
       /\ (forall c' r,
             Execute command c = (c', r) ->
             r <> Err NotConnected -> r <> Err NotAuthenticated ->
             isConnected c = true /\ isAuthorized c = true).
Proof.
  intros Hreach. apply reachable_well_formed in Hreach. split.
  - unfold well_formed in Hreach. destruct (isConnected c); [auto|].
    destruct Hreach as [_ Ha]. congruence.
  - intros command.
    destruct (isConnected c) eqn:Hc; [destruct (isAuthorized c) eqn:Ha|]; simpl.
    + split; [discriminate|auto].
    + rewrite (Execute_not_authenticated _ _ Hc Ha).
      split; [reflexivity|]. intros c' r [= _ <-] _ Hr. congruence.
    + rewrite (Execute_not_connected _ _ Hc).
      split; [reflexivity|]. intros c' r [= _ <-] Hr. congruence.
Qed.

Lemma session_client_reachable : reachable session_client.
Proof. apply reach_Authenticate, reach_Connect, reach_NewClient. Defined.

Lemma authenticated_implies_connected_witness :
  reachable session_client
  /\ isAuthorized session_client = true
  /\ isConnected session_client = true.
Proof.
  split; [exact session_client_reachable|].
  destruct (authenticated_implies_connected session_client
              session_client_reachable) as [Hinv _].
  assert (Ha : isAuthorized session_client = true) by reflexivity.
  split; [exact Ha | exact (Hinv Ha)].
Defined.

Lemma stuck_client_reachable : reachable stuck_client.
Proof. apply reach_Connect, reach_NewClient. Defined.

(** C1, as stated, fails: on a reachable client whose connection cannot be
    closed, [Disconnect] signals [CloseError] and leaves the client
    connected, with its transport handle; so it is not true that after any
    [Disconnect] call both flags are false and the handle is released. *)
Lemma Disconnect_close_failure_keeps_state :
  reachable stuck_client
  /\ Disconnect stuck_client
     = (stuck_client, Err (CloseError (NetError "close failed")))
  /\ isConnected (Disconnect stuck_client).1 = true
  /\ conn (Disconnect stuck_client).1 = Some (unclosable [])
  /\ ~ (forall c, reachable c ->
          isConnected (Disconnect c).1 = false
          /\ isAuthorized (Disconnect c).1 = false
          /\ conn (Disconnect c).1 = None).
Proof.
  split; [exact stuck_client_reachable|].
  split; [reflexivity|]. split; [reflexivity|]. split; [reflexivity|].
  intros Hclaim.
  destruct (Hclaim stuck_client stuck_client_reachable) as [Hc _].
  discriminate Hc.
Qed.

(** C1, amended. [Disconnect] is idempotent: on a client that is not
    connected (never connected, or disconnected before) it succeeds and
    changes nothing, and such a client has both flags false and no transport
    handle; after every call that succeeds both flags are false, the handle
    is released, and a further call succeeds again.  A call fails only when
    the close of the connection fails.  And when the close of the connection
    of a connected client fails, the call does fail: it signals [CloseError]
    around the cause and leaves the client as it was, still connected, with
    its flags and its connection; when the close succeeds the call succeeds
    and clears the client. *)
Theorem Disconnect_outcome (c : Client) :
  reachable c ->
  (isConnected c = false ->
   Disconnect c = (c, Ok tt) /\ isAuthorized c = false /\ conn c = None)
  /\ (forall c',
        Disconnect c = (c', Ok tt) ->
        isConnected c' = false /\ isAuthorized c' = false /\ conn c' = None
        /\ Disconnect c' = (c', Ok tt))
  /\ (forall c' e,
        Disconnect c = (c', Err e) ->
        c' = c /\ isConnected c = true
        /\ exists k cause,
             conn c = Some k /\ closeErr k = Some cause /\ e = CloseError cause)
  /\ (Disconnect c).2 <> Panic
  /\ (forall k cause,
        isConnected c = true -> conn c = Some k -> closeErr k = Some cause ->
        Disconnect c = (c, Err (CloseError cause)))
  /\ (forall k,
        isConnected c = true -> conn c = Some k -> closeErr k = None ->
        Disconnect c = (mkClient None (requestID c) false false, Ok tt))
  /\ (isConnected c = true ->
      exists k, conn c = Some k
                /\ ((Disconnect c).2 = Ok tt <-> closeErr k = None)).
Proof.
  intros Hreach. apply reachable_well_formed in Hreach.
  unfold well_formed in Hreach.
  assert (Hfail : forall k cause,
             isConnected c = true -> conn c = Some k -> closeErr k = Some cause ->
             Disconnect c = (c, Err (CloseError cause))).
  { intros k cause Hc Hk Hclose.
    rewrite (Disconnect_connected _ _ Hc Hk), Hclose. reflexivity. }
  assert (Hclear : forall k,
             isConnected c = true -> conn c = Some k -> closeErr k = None ->
             Disconnect c = (mkClient None (requestID c) false false, Ok tt)).
  { intros k Hc Hk Hclose.
    rewrite (Disconnect_connected _ _ Hc Hk), Hclose. reflexivity. }
  split; [|split; [|split; [|split; [|split; [exact Hfail|split; [exact Hclear|]]]]]].
  - intros Hc. rewrite Hc in Hreach. destruct Hreach as [Hk Ha].
    rewrite (Disconnect_not_connected _ Hc). auto.
  - intros c' Hrun. destruct (isConnected c) eqn:Hc.
    + destruct Hreach as [k Hk].
      destruct (closeErr k) as [cause|] eqn:Hclose.
      * rewrite (Hfail k cause eq_refl Hk Hclose) in Hrun. discriminate.
      * rewrite (Hclear k eq_refl Hk Hclose) in Hrun. inversion Hrun.
        split; [reflexivity|]. split; [reflexivity|]. split; reflexivity.
    + destruct Hreach as [Hk Ha].
      rewrite (Disconnect_not_connected _ Hc) in Hrun. inversion Hrun. subst c'.
      rewrite (Disconnect_not_connected _ Hc). auto.
  - intros c' e Hrun. destruct (isConnected c) eqn:Hc.
    + destruct Hreach as [k Hk].
      destruct (closeErr k) as [cause|] eqn:Hclose.
      * rewrite (Hfail k cause eq_refl Hk Hclose) in Hrun. inversion Hrun.
        subst c' e.
        split; [reflexivity|]. split; [reflexivity|]. exists k, cause. auto.
      * rewrite (Hclear k eq_refl Hk Hclose) in Hrun. discriminate.
    + rewrite (Disconnect_not_connected _ Hc) in Hrun. discriminate.
  - destruct (isConnected c) eqn:Hc.
    + destruct Hreach as [k Hk].
      destruct (closeErr k) as [cause|] eqn:Hclose.
      * rewrite (Hfail k cause eq_refl Hk Hclose). discriminate.
      * rewrite (Hclear k eq_refl Hk Hclose). discriminate.
    + rewrite (Disconnect_not_connected _ Hc). discriminate.
  - intros Hc. rewrite Hc in Hreach. destruct Hreach as [k Hk].
    exists k. split; [exact Hk|].
    destruct (closeErr k) as [cause|] eqn:Hclose.
    + rewrite (Hfail k cause Hc Hk Hclose). split; discriminate.
    + rewrite (Hclear k Hc Hk Hclose). split; reflexivity.
Qed.

Lemma Disconnect_outcome_witness :
  reachable session_client
  /\ (Disconnect session_client).2 = Ok tt
  /\ isConnected (Disconnect session_client).1 = false
  /\ isAuthorized (Disconnect session_client).1 = false
  /\ conn (Disconnect session_client).1 = None
  /\ Disconnect (Disconnect session_client).1
     = ((Disconnect session_client).1, Ok tt)
  /\ reachable stuck_client
  /\ Disconnect stuck_client
     = (stuck_client, Err (CloseError (NetError "close failed"))).
Proof.
  split; [exact session_client_reachable|].
  destruct (Disconnect_outcome session_client session_client_reachable)
    as (_ & Hok & _).
  destruct (Disconnect_outcome stuck_client stuck_client_reachable)
    as (_ & _ & _ & _ & Hfail & _).
  assert (Hrun : Disconnect session_client
                 = ((Disconnect session_client).1, Ok tt)) by reflexivity.
  destruct (Hok _ Hrun) as (H1 & H2 & H3 & H4).
  split; [rewrite Hrun; reflexivity|].
  split; [exact H1|]. split; [exact H2|]. split; [exact H3|].
  split; [exact H4|]. split; [exact stuck_client_reachable|].
  exact (Hfail (unclosable []) (NetError "close failed") eq_refl eq_refl eq_refl).
Defined.

(** ** The session manager *)

Lemma on_client_Some {A} (m : M Client A) l st c :
  clients st !! l = Some c ->
  on_client l m st = (set_clients (<[l := (m c).1]> (clients st)) st, (m c).2).
Proof. intros Hl. unfold on_client. rewrite Hl. destruct (m c); reflexivity. Qed.

Lemma fresh_client_unused st : clients st !! fresh (dom (clients st)) = None.
Proof. apply not_elem_of_dom, is_fresh. Qed.

Lemma GetSession_run id st :
  GetSession id st
  = (st, match sessions st !! id with
         | Some session => Ok session
         | None => Err (SessionNotFound id)
         end).
Proof.
  unfold GetSession, bind, gets. simpl. destruct (sessions st !! id); reflexivity.
Qed.

Lemma CreateSession_duplicate now id name address st existing :
  sessions st !! id = Some existing ->
  CreateSession now id name address st = (st, Err (DuplicateSession id)).
Proof.
  intros Hid. unfold CreateSession, bind, gets. simpl. rewrite Hid. reflexivity.
Qed.

Lemma CreateSession_new now id name address st :
  sessions st !! id = None ->
  let l := fresh (dom (clients st)) in
  let session := mkSession id l address name now in
  CreateSession now id name address st
  = (mkStore (<[l := NewClient]> (clients st)) (<[id := session]> (sessions st)),
     Ok session).
Proof.
  intros Hid. unfold CreateSession, bind, gets. simpl. rewrite Hid. reflexivity.
Qed.

(** C8. [CreateSession] on an identifier already bound fails with
    [DuplicateSession] and changes nothing: the session bound before is
    still what [GetSession] returns.  On an unbound identifier it allocates
    a client at a location not in use, which is [NewClient()] (disconnected,
    not authenticated, no connection, request id 1), binds under the
    identifier a session with this client, the given name and address and
    the timestamp of the call, returns that session, and touches no other
    client and no other binding. *)
Theorem CreateSession_outcome (now : Z) (id name address : string) (st : Store) :
  (forall existing,
      sessions st !! id = Some existing ->
      CreateSession now id name address st = (st, Err (DuplicateSession id))
      /\ GetSession id st = (st, Ok existing))
  /\ (sessions st !! id = None ->
      exists l st',
        let session := mkSession id l address name now in
        clients st !! l = None
        /\ CreateSession now id name address st = (st', Ok session)
        /\ GetSession id st' = (st', Ok session)
        /\ sessions st' = <[id := session]> (sessions st)
        /\ clients st' = <[l := NewClient]> (clients st)
        /\ clients st' !! l = Some (mkClient None 1 false false)).
Proof.
  split.
  - intros existing Hid. split.
    + apply (CreateSession_duplicate _ _ _ _ _ _ Hid).
    + rewrite GetSession_run, Hid. reflexivity.
  - intros Hid. eexists _, _. cbv zeta.
    split; [apply fresh_client_unused|].
    split; [apply (CreateSession_new _ _ _ _ _ Hid)|].
    split; [|split; [reflexivity|split; [reflexivity|]]].
    + rewrite GetSession_run. simpl. rewrite lookup_insert_eq. reflexivity.
    + simpl. apply lookup_insert_eq.
Qed.

Lemma CreateSession_outcome_witness :
  let st1 := (CreateSession 100 "x" "first" "127.0.0.1:25575" NewSessionManager).1 in
  (CreateSession 200 "x" "second" "127.0.0.1:25576" st1).2
  = Err (DuplicateSession "x")
  /\ (GetSession "x" (CreateSession 200 "x" "second" "127.0.0.1:25576" st1).1).2
     = Ok (mkSession "x" 1%positive "127.0.0.1:25575" "first" 100).
Proof.
  intros st1.
  destruct (CreateSession_outcome 200 "x" "second" "127.0.0.1:25576" st1)
    as [Hdup _].
  destruct (Hdup (mkSession "x" 1%positive "127.0.0.1:25575" "first" 100))
    as [Hcreate Hget].
  - vm_compute. reflexivity.
  - rewrite Hcreate. simpl. rewrite Hget. split; reflexivity.
Defined.

Lemma RemoveSession_absent id st :
  sessions st !! id = None ->
  RemoveSession id st = (st, Err (SessionNotFound id)).
Proof.
  intros Hid. unfold RemoveSession, bind, gets. simpl. rewrite Hid. reflexivity.
Qed.

Lemma set_clients_id st c l :
  clients st !! l = Some c -> set_clients (<[l := c]> (clients st)) st = st.
Proof.
  intros Hl. unfold set_clients. rewrite (insert_id _ _ _ Hl).
  destruct st; reflexivity.
Qed.

Lemma RemoveSession_present id st session c :
  sessions st !! id = Some session ->
  clients st !! Session_Client session = Some c ->
  RemoveSession id st =
    if isConnected c
    then match Disconnect c with
         | (c', Ok _) =>
             (mkStore (<[Session_Client session := c']> (clients st))
                (delete id (sessions st)), Ok tt)
         | (c', Err e) =>
             (mkStore (<[Session_Client session := c']> (clients st))
                (sessions st), Err (DisconnectClientError e))
         | (c', Panic) =>
             (mkStore (<[Session_Client session := c']> (clients st))
                (sessions st), Panic)
         end
    else (mkStore (clients st) (delete id (sessions st)), Ok tt).
Proof.
  intros Hid Hl. unfold RemoveSession, bind, gets. simpl. rewrite Hid.
  rewrite (on_client_Some IsConnected _ _ _ Hl).
  unfold IsConnected, gets. simpl. rewrite (set_clients_id _ _ _ Hl).
  destruct (isConnected c).
  - unfold wrap. rewrite (on_client_Some Disconnect _ _ _ Hl).
    destruct (Disconnect c) as [c' [[]|e|]]; reflexivity.
  - reflexivity.
Qed.

Lemma RemoveSession_dangling id st session :
  sessions st !! id = Some session ->
  clients st !! Session_Client session = None ->
  RemoveSession id st = (st, Panic).
Proof.
  intros Hid Hl. unfold RemoveSession, bind, gets. simpl. rewrite Hid.
  unfold on_client. rewrite Hl. reflexivity.
Qed.

(** C2, as stated, fails: when the disconnect that [RemoveSession] triggers
    fails, the error is returned and the entry stays, and [GetSession] still
    finds the session; so it is not true that the entry of a bound
    identifier is removed in every case. *)
Lemma RemoveSession_disconnect_failure_keeps_entry :
  (RemoveSession "s1" stuck_store).2
  = Err (DisconnectClientError (CloseError (NetError "close failed")))
  /\ (GetSession "s1" (RemoveSession "s1" stuck_store).1).2
     = Ok (mkSession "s1" 1%positive "127.0.0.1:25575" "" 0)
  /\ ~ (forall id st session,
          sessions st !! id = Some session ->
          (GetSession id (RemoveSession id st).1).2 = Err (SessionNotFound id)).
Proof.
  assert (Hget : (GetSession "s1" (RemoveSession "s1" stuck_store).1).2
                 = Ok (mkSession "s1" 1%positive "127.0.0.1:25575" "" 0))
    by (vm_compute; reflexivity).
  split; [vm_compute; reflexivity|]. split; [exact Hget|].
  intros Hclaim.
  assert (Hbound : sessions stuck_store !! "s1"
                   = Some (mkSession "s1" 1%positive "127.0.0.1:25575" "" 0))
    by (vm_compute; reflexivity).
  rewrite (Hclaim _ _ _ Hbound) in Hget. discriminate Hget.
Qed.

(** C2, amended. [RemoveSession] fails with [SessionNotFound] on an unbound
    identifier.  On a bound one whose client is not connected it removes the
    entry.  On a bound one whose client is connected it disconnects the
    client first: if that succeeds the entry is removed; if that fails the
    error is returned (wrapped) and the entry stays.  Whenever
    [RemoveSession] succeeds the entry is gone, so that [GetSession] on the
    identifier fails with [SessionNotFound]. *)
Theorem RemoveSession_outcome (id : string) (st : Store) :
  (sessions st !! id = None ->
   RemoveSession id st = (st, Err (SessionNotFound id)))
  /\ (forall session c,
        sessions st !! id = Some session ->
        clients st !! Session_Client session = Some c ->
        let l := Session_Client session in
        (isConnected c = false ->
         RemoveSession id st
         = (mkStore (clients st) (delete id (sessions st)), Ok tt))
        /\ (isConnected c = true ->
            forall c', Disconnect c = (c', Ok tt) ->
            RemoveSession id st
            = (mkStore (<[l := c']> (clients st)) (delete id (sessions st)),
               Ok tt))
        /\ (isConnected c = true ->
            forall c' e, Disconnect c = (c', Err e) ->
            RemoveSession id st
            = (mkStore (<[l := c']> (clients st)) (sessions st),
               Err (DisconnectClientError e))))
  /\ (forall st',
        RemoveSession id st = (st', Ok tt) ->
        sessions st' = delete id (sessions st)
        /\ GetSession id st' = (st', Err (SessionNotFound id))).
Proof.
  split; [apply RemoveSession_absent|]. split.
  - intros session c Hid Hl l.
    rewrite (RemoveSession_present _ _ _ _ Hid Hl). fold l.
    split; [intros ->; reflexivity|].
    split; intros ->.
    + intros c' ->. reflexivity.
    + intros c' e ->. reflexivity.
  - intros st' Hrun.
    assert (Hdel : sessions st' = delete id (sessions st)).
    { destruct (sessions st !! id) as [session|] eqn:Hid.
      - destruct (clients st !! Session_Client session) as [c|] eqn:Hl.
        + rewrite (RemoveSession_present _ _ _ _ Hid Hl) in Hrun.
          destruct (isConnected c).
          * destruct (Disconnect c) as [c' [[]|e|]]; inversion Hrun; reflexivity.
          * inversion Hrun; reflexivity.
        + rewrite (RemoveSession_dangling _ _ _ Hid Hl) in Hrun. discriminate.
      - rewrite (RemoveSession_absent _ _ Hid) in Hrun. discriminate. }
    split; [exact Hdel|].
    rewrite GetSession_run, Hdel, lookup_delete_eq. reflexivity.
Qed.

Lemma RemoveSession_outcome_witness :
  (RemoveSession "s1" live_store).2 = Ok tt
  /\ (GetSession "s1" (RemoveSession "s1" live_store).1).2
     = Err (SessionNotFound "s1").
Proof.
  assert (Hrun : RemoveSession "s1" live_store
                 = ((RemoveSession "s1" live_store).1, Ok tt))
    by (vm_compute; reflexivity).
  destruct (RemoveSession_outcome "s1" live_store) as (_ & _ & Hgone).
  destruct (Hgone _ Hrun) as [_ Hget].
  split; [rewrite Hrun; reflexivity | rewrite Hget; reflexivity].
Defined.

(** ** The connect tool *)

Lemma Authenticate_endpoint password c k :
  conn c = Some k ->
  exists k', conn (Authenticate password c).1 = Some k'
             /\ same_endpoint k k'
             /\ isConnected (Authenticate password c).1 = isConnected c.
Proof.
  intros Hk.
  assert (Hsame : same_endpoint k k) by (unfold same_endpoint; tauto).
  destruct (Authenticate_state password c) as [-> | [_ [n H]]]; [eauto|].
  cbv zeta in H.
  destruct H as [-> | [-> | ->]]; unfold consume, emit; simpl; rewrite Hk; simpl;
    (eexists; split; [reflexivity|]; split; [|reflexivity]);
    unfold same_endpoint; simpl; tauto.
Qed.

Lemma Connect_tool_run now dial params st :
  sessions st !! mcp.SessionID params = None ->
  let id := mcp.SessionID params in
  let l := fresh (dom (clients st)) in
  let session := mkSession id l (mcp.Address params) (mcp.Name params) now in
  let bound c := mkStore (<[l := c]> (clients st)) (<[id := session]> (sessions st)) in
  mcp.Connect now dial params st =
    match dial (mcp.Address params) with
    | inr cause =>
        (mkStore (<[l := NewClient]> (clients st)) (sessions st),
         Err (ConnectFailed (ConnectionError cause)))
    | inl k =>
        match Authenticate (mcp.Password params) (mkClient (Some k) 1 true false) with
        | (c2, Ok _) =>
            (bound c2,
             Ok ("Connected to RCON server at " ++ mcp.Address params
                   ++ " (session: " ++ id ++ ")")%string)
        | (c2, Err e) =>
            match RemoveSession id (bound c2) with
            | (st', Panic) => (st', Panic)
            | (st', _) => (st', Err (AuthenticateFailed e))
            end
        | (c2, Panic) => (bound c2, Panic)
        end
    end.
Proof.
  intros Hid id l session bound.
  unfold mcp.Connect, bind, wrap, on_error, discard.
  rewrite (CreateSession_new _ _ _ _ _ Hid). fold id l session. simpl.
  set (st1 := mkStore (<[l := NewClient]> (clients st))
                (<[id := session]> (sessions st))).
  assert (Hl1 : clients st1 !! l = Some NewClient) by apply lookup_insert_eq.
  rewrite (on_client_Some _ _ _ _ Hl1), Connect_run. simpl.
  destruct (dial (mcp.Address params)) as [k|cause]; simpl.
  - unfold set_clients. simpl. rewrite insert_insert_eq.
    set (st2 := mkStore (<[l := mkClient (Some k) 1 true false]> (clients st))
                  (<[id := session]> (sessions st))).
    assert (Hl2 : clients st2 !! l = Some (mkClient (Some k) 1 true false))
      by apply lookup_insert_eq.
    rewrite (on_client_Some _ _ _ _ Hl2).
    destruct (Authenticate _ _) as [c2 [[]|e|]]; simpl;
      unfold set_clients; simpl; rewrite insert_insert_eq; fold (bound c2);
      try reflexivity.
    destruct (RemoveSession id (bound c2)) as [st' [[]|e'|]]; reflexivity.
  - rewrite insert_insert_eq.
    change (set_clients (<[l:=NewClient]> (clients st)) st1) with st1.
    assert (Hs1 : sessions st1 !! id = Some session) by apply lookup_insert_eq.
    assert (Hc1 : clients st1 !! Session_Client session = Some NewClient)
      by apply lookup_insert_eq.
    rewrite (RemoveSession_present _ _ _ _ Hs1 Hc1). simpl.
    rewrite (delete_insert_id _ _ _ Hid). reflexivity.
Qed.

(** C9, as stated, fails: when the server rejects the password and the
    connection then cannot be closed, the connect tool returns the
    authentication error and the session it created is still in the
    registry; so it is not true that no entry remains after every failed
    connect. *)
Lemma Connect_failed_rollback_keeps_session :
  sessions NewSessionManager !! "s1" = None
  /\ failed_connect.2 = Err (AuthenticateFailed AuthenticationFailed)
  /\ sessions failed_connect.1 !! "s1"
     = Some (mkSession "s1" 1%positive "127.0.0.1:25575" "" 0)
  /\ (GetSession "s1" failed_connect.1).2
     = Ok (mkSession "s1" 1%positive "127.0.0.1:25575" "" 0)
  /\ ~ (forall now dial params st st' e,
          sessions st !! mcp.SessionID params = None ->
          mcp.Connect now dial params st = (st', Err e) ->
          sessions st' !! mcp.SessionID params = None).
Proof.
  assert (Hkept : sessions failed_connect.1 !! "s1"
                  = Some (mkSession "s1" 1%positive "127.0.0.1:25575" "" 0))
    by (vm_compute; reflexivity).
  split; [reflexivity|]. split; [vm_compute; reflexivity|].
  split; [exact Hkept|]. split; [vm_compute; reflexivity|].
  intros Hclaim.
  assert (Hrun : mcp.Connect 0 rejecting_unclosable_dialer connect_params
                   NewSessionManager
                 = (failed_connect.1, Err (AuthenticateFailed AuthenticationFailed)))
    by (vm_compute; reflexivity).
  assert (Hfree : sessions NewSessionManager !! mcp.SessionID connect_params = None)
    by reflexivity.
  pose proof (Hclaim _ _ _ _ _ _ Hfree Hrun) as Hgone.
  change (mcp.SessionID connect_params) with "s1" in Hgone.
  rewrite Hkept in Hgone. discriminate Hgone.
Qed.

(** C9, amended. The connect tool runs [CreateSession], then [Connect] on
    the new client, then [Authenticate]: on a bound identifier it fails
    before any dial and changes nothing; when the dial fails the session is
    removed again and the error returned; when the authentication succeeds
    the session stays, bound to the authenticated client; when the
    authentication fails the tool calls [RemoveSession], and if the
    connection closes the client is disconnected and the session removed.
    So after a failed connect on an unbound identifier, over a connection
    that closes, the registry is what it was and [GetSession] fails. *)
Theorem Connect_rollback (now : Z) (dial : Dialer) (params : mcp.ConnectParams)
    (st : Store) :
  let id := mcp.SessionID params in
  (forall existing,
      sessions st !! id = Some existing ->
      mcp.Connect now dial params st
      = (st, Err (CreateSessionFailed (DuplicateSession id))))
  /\ (sessions st !! id = None ->
      let l := fresh (dom (clients st)) in
      let session := mkSession id l (mcp.Address params) (mcp.Name params) now in
      let dialled k := mkClient (Some k) 1 true false in
      (forall cause,
          dial (mcp.Address params) = inr cause ->
          mcp.Connect now dial params st
          = (mkStore (<[l := NewClient]> (clients st)) (sessions st),
             Err (ConnectFailed (ConnectionError cause))))
      /\ (forall k c2,
            dial (mcp.Address params) = inl k ->
            Authenticate (mcp.Password params) (dialled k) = (c2, Ok tt) ->
            mcp.Connect now dial params st
            = (mkStore (<[l := c2]> (clients st)) (<[id := session]> (sessions st)),
               Ok ("Connected to RCON server at " ++ mcp.Address params
                     ++ " (session: " ++ id ++ ")")%string))
      /\ (forall k c2 e,
            dial (mcp.Address params) = inl k ->
            Authenticate (mcp.Password params) (dialled k) = (c2, Err e) ->
            closeErr k = None ->
            mcp.Connect now dial params st
            = (mkStore (<[l := mkClient None (requestID c2) false false]> (clients st))
                 (sessions st),
               Err (AuthenticateFailed e)))
      /\ (forall st' e,
            mcp.Connect now dial params st = (st', Err e) ->
            (forall k, dial (mcp.Address params) = inl k -> closeErr k = None) ->
            sessions st' = sessions st
            /\ GetSession id st' = (st', Err (SessionNotFound id)))).
Proof.
  intros id. split.
  - intros existing Hid. unfold mcp.Connect, bind, wrap.
    rewrite (CreateSession_duplicate _ _ _ _ _ _ Hid). reflexivity.
  - intros Hid l session dialled.
    pose proof (Connect_tool_run now dial params st Hid) as Hrun.
    cbv zeta in Hrun. fold id l session in Hrun.
    assert (Hfail : forall k c2 e,
               dial (mcp.Address params) = inl k ->
               Authenticate (mcp.Password params) (dialled k) = (c2, Err e) ->
               closeErr k = None ->
               mcp.Connect now dial params st
               = (mkStore (<[l := mkClient None (requestID c2) false false]> (clients st))
                    (sessions st),
                  Err (AuthenticateFailed e))).
    { intros k c2 e Hdial Hauth Hclose. unfold dialled in Hauth.
      rewrite Hrun, Hdial, Hauth.
      destruct (Authenticate_endpoint (mcp.Password params)
                  (mkClient (Some k) 1 true false) k eq_refl)
        as (k' & Hk' & Hsame & Hconn).
      rewrite Hauth in Hk', Hconn. simpl in Hk', Hconn.
      destruct Hsame as (_ & _ & _ & Hclose' & _). rewrite Hclose in Hclose'.
      set (st3 := mkStore (<[l := c2]> (clients st))
                    (<[id := session]> (sessions st))).
      assert (Hs3 : sessions st3 !! id = Some session) by apply lookup_insert_eq.
      assert (Hc3 : clients st3 !! Session_Client session = Some c2)
        by apply lookup_insert_eq.
      rewrite (RemoveSession_present _ _ _ _ Hs3 Hc3), Hconn.
      rewrite (Disconnect_connected _ _ Hconn Hk'), Hclose'. simpl.
      rewrite insert_insert_eq, (delete_insert_id _ _ _ Hid). reflexivity. }
    split; [|split; [|split; [exact Hfail|]]].
    + intros cause Hdial. rewrite Hrun, Hdial. reflexivity.
    + intros k c2 Hdial Hauth. unfold dialled in Hauth.
      rewrite Hrun, Hdial, Hauth. reflexivity.
    + intros st' e Hres Hcloses.
      assert (Hsess : sessions st' = sessions st).
      { destruct (dial (mcp.Address params)) as [k|cause] eqn:Hdial.
        - destruct (Authenticate (mcp.Password params) (dialled k))
            as [c2 [[]|e2|]] eqn:Hauth.
          + unfold dialled in Hauth. rewrite Hrun, Hauth in Hres. discriminate.
          + rewrite (Hfail k c2 e2 eq_refl Hauth (Hcloses k eq_refl)) in Hres.
            inversion Hres. reflexivity.
          + unfold dialled in Hauth. rewrite Hrun, Hauth in Hres. discriminate.
        - rewrite Hrun in Hres. inversion Hres. reflexivity. }
      split; [exact Hsess|].
      rewrite GetSession_run, Hsess, Hid. reflexivity.
Qed.

Lemma Connect_rollback_witness :
  sessions NewSessionManager !! "s1" = None
  /\ (mcp.Connect 0 refusing_dialer connect_params NewSessionManager).2
     = Err (ConnectFailed (ConnectionError (NetError "connection refused")))
  /\ sessions (mcp.Connect 0 refusing_dialer connect_params NewSessionManager).1
     = sessions NewSessionManager.
Proof.
  assert (Hid : sessions NewSessionManager !! mcp.SessionID connect_params = None)
    by reflexivity.
  destruct (Connect_rollback 0 refusing_dialer connect_params NewSessionManager)
    as [_ Hnew].
  destruct (Hnew Hid) as (Hdial & _).
  split; [exact Hid|].
  rewrite (Hdial (NetError "connection refused") eq_refl). split; reflexivity.
Defined.

(** * Further properties *)

(** ** The wire format *)

Lemma length_packetBytes p :
  length (packetBytes p)
  = (14 + length (list_byte_of_string (Body p)))%nat.
Proof.
  unfold packetBytes. rewrite !length_app, !length_put_int32_le. simpl. lia.
Qed.

(** X1. The frame [sendPacket] builds: for a body of fewer than 2^31 - 10
    bytes, the frame has 14 bytes more than the body, its first four bytes
    declare the number of bytes that follow them, then come the id and the
    type, the body starts at offset 12 and the last two bytes are zero. *)
Theorem packetBytes_layout (p : Packet) :
  Z.of_nat (length (list_byte_of_string (Body p))) + 10 < 2 ^ 31 ->
  let frame := packetBytes p in
  let n := length (list_byte_of_string (Body p)) in
  length frame = (14 + n)%nat
  /\ get_int32_le frame = Some (Z.of_nat (length frame) - 4)
  /\ get_int32_le (drop 4 frame) = Some (int32 (ID p))
  /\ get_int32_le (drop 8 frame) = Some (int32 (Type_ p))
  /\ take n (drop 12 frame) = list_byte_of_string (Body p)
  /\ drop (12 + n) frame = [x00; x00].
Proof.
  intros Hlen frame n. subst frame.
  assert (Hsize : packetSize p = Z.of_nat n + 10).
  { unfold packetSize. fold n. apply int32_of_range. unfold int32_range. lia. }
  split; [apply length_packetBytes|].
  split.
  { rewrite length_packetBytes. fold n. unfold packetBytes.
    rewrite get_put_int32_le, (int32_of_range (packetSize p))
      by (rewrite Hsize; unfold int32_range; lia).
    rewrite Hsize. f_equal. lia. }
  unfold packetBytes.
  split.
  { rewrite (drop_app_length' (put_int32_le (packetSize p))) by reflexivity.
    apply get_put_int32_le. }
  split.
  { rewrite app_assoc.
    rewrite (drop_app_length' (put_int32_le (packetSize p) ++ put_int32_le (ID p)))
      by reflexivity.
    apply get_put_int32_le. }
  rewrite !app_assoc, <- (app_assoc _ (list_byte_of_string (Body p))).
  split.
  - rewrite (drop_app_length' _ _ 12) by reflexivity.
    apply take_app_length'. reflexivity.
  - rewrite app_assoc.
    apply drop_app_length'. rewrite length_app. reflexivity.
Qed.

Lemma packetBytes_layout_witness :
  Z.of_nat (length (list_byte_of_string (Body player_response))) + 10 < 2 ^ 31
  /\ length (packetBytes player_response) = 31%nat
  /\ get_int32_le (packetBytes player_response) = Some 27.
Proof.
  assert (H : Z.of_nat (length (list_byte_of_string (Body player_response))) + 10
              < 2 ^ 31) by (vm_compute; reflexivity).
  destruct (packetBytes_layout player_response H) as (Hlen & Hdecl & _).
  split; [exact H|]. split.
  - rewrite Hlen. reflexivity.
  - rewrite Hdecl, Hlen. reflexivity.
Defined.

(** X2. [readPacket] is lenient about what it does not need: a frame whose
    declared length is right is decoded whatever its two last bytes are
    (they are not checked to be zero) and whatever bytes the body holds
    (zero bytes included); the body returned is the bytes between the
    header and the two last bytes. *)
Theorem readPacket_any_frame (c : Client) (k : Conn) (id type : Z)
    (body : list byte) (t1 t2 : byte) (rest : list byte) :
  conn c = Some k -> readable k ->
  Z.of_nat (length body) + 10 <= 4096 ->
  readBuf k
  = put_int32_le (Z.of_nat (length body) + 10) ++ put_int32_le id
      ++ put_int32_le type ++ body ++ [t1; t2] ++ rest ->
  readPacket c
  = (set_conn (Some (set_readBuf rest k)) c,
     Ok (mkPacket 0 (int32 id) (int32 type) (string_of_list_byte body))).
Proof.
  intros Hk Hread HB Hbuf.
  set (size := Z.of_nat (length body) + 10) in *.
  set (payload := (put_int32_le id ++ put_int32_le type) ++ body ++ [t1; t2]).
  assert (Hlen : length payload = Z.to_nat size).
  { unfold payload. rewrite !length_app, !length_put_int32_le. simpl.
    unfold size. lia. }
  assert (Hbuf' : readBuf k =
            byte_of_Z size :: byte_of_Z (Z.shiftr size 8)
              :: byte_of_Z (Z.shiftr size 16)
              :: byte_of_Z (Z.shiftr size 24) :: payload ++ rest).
  { rewrite Hbuf. unfold payload. rewrite <- !app_assoc. reflexivity. }
  rewrite (readPacket_header _ _ _ _ _ _ _ Hk Hread Hbuf').
  rewrite uint32_le_put, int32_mod, (int32_of_range size)
    by (unfold int32_range, size; lia).
  unfold maxPacketSize.
  destruct (Z.ltb_spec size 10); [unfold size in *; lia|].
  destruct (Z.ltb_spec 4096 size); [lia|]. simpl orb. cbv iota.
  destruct (Nat.leb_spec (Z.to_nat size) (length (payload ++ rest)))
    as [_|Hlt]; [|rewrite length_app in Hlt; lia].
  cbv zeta.
  rewrite (take_app_length' payload rest) by (symmetry; exact Hlen).
  rewrite (drop_app_length' payload rest) by (symmetry; exact Hlen).
  assert (Hid : get_int32_le payload = Some (int32 id)).
  { unfold payload. rewrite <- !app_assoc. apply get_put_int32_le. }
  assert (Hty : get_int32_le (drop 4 payload) = Some (int32 type)).
  { unfold payload. rewrite <- !app_assoc.
    rewrite (drop_app_length' (put_int32_le id)) by reflexivity.
    apply get_put_int32_le. }
  assert (Hbody : bodySlice payload = body).
  { unfold payload. apply bodySlice_frame. reflexivity. }
  rewrite Hid, Hty, Hbody. reflexivity.
Qed.

Lemma readPacket_any_frame_witness :
  let k := loopback (put_int32_le 12 ++ put_int32_le 7 ++ put_int32_le 0
                       ++ [x00; x41] ++ [xff; x01] ++ [x2a]) in
  let c := mkClient (Some k) 1 true true in
  readable k
  /\ readPacket c
     = (set_conn (Some (set_readBuf [x2a] k)) c,
        Ok (mkPacket 0 7 0 (string_of_list_byte [x00; x41]))).
Proof.
  intros k c.
  assert (Hread : readable k) by (split; reflexivity).
  split; [exact Hread|].
  apply (readPacket_any_frame c k 7 0 [x00; x41] xff x01 [x2a] eq_refl Hread).
  - simpl. lia.
  - reflexivity.
Defined.

Lemma readPacket_deadline_error c k e :
  conn c = Some k -> readDeadlineErr k = Some e ->
  readPacket c = (c, Err (ReadDeadlineError e)).
Proof.
  intros Hk Hd. unfold readPacket, bind, wrap.
  rewrite (on_conn_Some _ _ _ Hk). unfold SetReadDeadline, of_err.
  rewrite Hd. simpl. rewrite (set_conn_id _ _ Hk). reflexivity.
Qed.

Lemma readPacket_read_error c k e :
  conn c = Some k -> readDeadlineErr k = None -> readErr k = Some e ->
  readPacket c = (c, Err e).
Proof.
  intros Hk Hd Hr. unfold readPacket, bind, wrap.
  rewrite (on_conn_Some _ _ _ Hk), (SetReadDeadline_ok _ Hd). simpl.
  rewrite (set_conn_id _ _ Hk), (on_conn_Some _ _ _ Hk).
  unfold ReadFull. rewrite Hr. simpl. rewrite (set_conn_id _ _ Hk). reflexivity.
Qed.

Lemma readPacket_no_conn c : conn c = None -> readPacket c = (c, Panic).
Proof.
  intros Hk. unfold readPacket, bind, wrap. rewrite (on_conn_None _ _ Hk).
  reflexivity.
Qed.

Lemma get_int32_le_take bs :
  (4 <= length bs)%nat -> get_int32_le (take 4 bs) = get_int32_le bs.
Proof.
  destruct bs as [|b0 [|b1 [|b2 [|b3 rest]]]]; simpl; intros H; try lia.
  reflexivity.
Qed.

Lemma get_int32_le_range bs v : get_int32_le bs = Some v -> int32_range v.
Proof.
  destruct bs as [|b0 [|b1 [|b2 [|b3 rest]]]]; simpl; intros [= <-].
  unfold int32, int32_range.
  pose proof (Z.mod_pos_bound (uint32_le b0 b1 b2 b3 + 2 ^ 31) (2 ^ 32)). lia.
Qed.

(** X3. What a packet returned by [readPacket] says about the stream: the
    connection was readable, its incoming bytes started with a length
    between 10 and 4096 and held that many bytes after it; exactly these
    [4 + length] bytes were consumed and nothing else of the client changed;
    the id and the type of the packet are the two 32-bit integers after the
    length, and its body is, byte for byte, what lies between them and the
    two last bytes of the frame, so it has [length - 10 <= 4086] bytes. *)
Theorem readPacket_sound (c c' : Client) (p : Packet) :
  readPacket c = (c', Ok p) ->
  exists k size,
    conn c = Some k /\ readable k
    /\ get_int32_le (readBuf k) = Some size
    /\ 10 <= size <= 4096
    /\ (4 + Z.to_nat size <= length (readBuf k))%nat
    /\ c' = consume (4 + Z.to_nat size) c
    /\ Size p = 0
    /\ get_int32_le (drop 4 (readBuf k)) = Some (ID p)
    /\ get_int32_le (drop 8 (readBuf k)) = Some (Type_ p)
    /\ int32_range (ID p) /\ int32_range (Type_ p)
    /\ list_byte_of_string (Body p)
       = take (Z.to_nat size - 10) (drop 12 (readBuf k))
    /\ Z.of_nat (length (list_byte_of_string (Body p))) = size - 10.
Proof.
  intros Hrun.
  destruct (conn c) as [k|] eqn:Hk;
    [|rewrite (readPacket_no_conn _ Hk) in Hrun; discriminate].
  destruct (readDeadlineErr k) as [e|] eqn:Hd;
    [rewrite (readPacket_deadline_error _ _ _ Hk Hd) in Hrun; discriminate|].
  destruct (readErr k) as [e|] eqn:Hr;
    [rewrite (readPacket_read_error _ _ _ Hk Hd Hr) in Hrun; discriminate|].
  assert (Hread : readable k) by (split; assumption).
  destruct (readBuf k) as [|b0 [|b1 [|b2 [|b3 rest]]]] eqn:Hbuf;
    try (pose proof (readPacket_short _ _ Hk Hread) as Hshort;
         rewrite Hbuf, Hrun in Hshort; simpl in Hshort;
         specialize (Hshort ltac:(lia)); discriminate).
  rewrite (readPacket_header _ _ _ _ _ _ _ Hk Hread Hbuf) in Hrun.
  set (size := int32 (uint32_le b0 b1 b2 b3)) in *. unfold maxPacketSize in Hrun.
  destruct (Z.ltb_spec size 10); [discriminate|].
  destruct (Z.ltb_spec 4096 size); [discriminate|]. simpl in Hrun.
  destruct (Nat.leb_spec (Z.to_nat size) (length rest)) as [Hle|Hlt];
    [|discriminate].
  set (packetBuf := take (Z.to_nat size) rest) in *.
  assert (HpLen : length packetBuf = Z.to_nat size)
    by (unfold packetBuf; rewrite length_take; lia).
  destruct (get_int32_le packetBuf) as [id|] eqn:Hid; [|discriminate].
  destruct (get_int32_le (drop 4 packetBuf)) as [ty|] eqn:Hty; [|discriminate].
  inversion Hrun as [[Hc' Hp]]. clear Hrun.
  assert (Hid' : get_int32_le rest = Some id).
  { rewrite <- Hid. unfold packetBuf.
    destruct rest as [|r0 [|r1 [|r2 [|r3 rest']]]]; simpl in Hle; try lia.
    destruct (Z.to_nat size) as [|[|[|[|n]]]] eqn:Hn; try lia. reflexivity. }
  assert (Hty' : get_int32_le (drop 4 rest) = Some ty).
  { rewrite <- Hty. unfold packetBuf.
    destruct rest as [|r0 [|r1 [|r2 [|r3 [|r4 [|r5 [|r6 [|r7 rest']]]]]]]];
      simpl in Hle; try lia.
    destruct (Z.to_nat size) as [|[|[|[|[|[|[|[|n]]]]]]]] eqn:Hn; try lia.
    reflexivity. }
  assert (Hbody : bodySlice packetBuf = take (Z.to_nat size - 10) (drop 8 rest)).
  { unfold bodySlice. rewrite HpLen. unfold packetBuf.
    replace (take (Z.to_nat size) rest)
      with (take (8 + (Z.to_nat size - 8)) rest) by (f_equal; lia).
    rewrite <- take_drop_commute, take_take.
    f_equal. lia. }
  exists k, size. rewrite (consume_Some _ _ _ Hk), Hbuf. simpl.
  split; [reflexivity|]. split; [exact Hread|]. split; [reflexivity|].
  split; [lia|]. split; [lia|]. split.
  { reflexivity. }
  split; [reflexivity|]. split; [exact Hid'|]. split; [exact Hty'|].
  split; [exact (get_int32_le_range _ _ Hid)|].
  split; [exact (get_int32_le_range _ _ Hty)|].
  rewrite list_byte_of_string_of_list_byte, Hbody.
  split; [reflexivity|].
  rewrite length_take, length_drop. lia.
Qed.

Lemma readPacket_sound_witness :
  let c := mkClient (Some (loopback (packetBytes player_response))) 2 true true in
  exists c' p,
    readPacket c = (c', Ok p)
    /\ int32_range (ID p)
    /\ Z.of_nat (length (list_byte_of_string (Body p))) = 27 - 10.
Proof.
  intros c. eexists _, _.
  assert (Hrun : readPacket c = ((readPacket c).1,
                                 Ok (mkPacket 0 2 PacketTypeResponse player_list)))
    by (vm_compute; reflexivity).
  destruct (readPacket_sound _ _ _ Hrun)
    as (k & size & Hk & _ & Hsize & _ & _ & _ & _ & _ & _ & HI & _ & _ & Hlen).
  split; [exact Hrun|]. split; [exact HI|].
  inversion Hk. subst k. vm_compute in Hsize. inversion Hsize. subst size.
  exact Hlen.
Defined.

(** X4. A stream that ends in the middle of a frame never gives a packet:
    when fewer than four bytes are there, or fewer bytes than the (valid)
    length declares, [readPacket] fails with [io.EOF] or
    [io.ErrUnexpectedEOF] and has consumed all the incoming bytes; it is
    [io.EOF] exactly when the step that failed had no byte to read. *)
Theorem readPacket_truncated (c : Client) (k : Conn) :
  conn c = Some k -> readable k ->
  (length (readBuf k) < 4)%nat
  \/ (exists size,
        get_int32_le (readBuf k) = Some size /\ 10 <= size <= 4096
        /\ (length (readBuf k) < 4 + Z.to_nat size)%nat) ->
  exists e,
    readPacket c = (set_conn (Some (set_readBuf [] k)) c, Err e)
    /\ (e = EOF \/ e = UnexpectedEOF)
    /\ (e = EOF <-> readBuf k = [] \/ length (readBuf k) = 4%nat).
Proof.
  intros Hk Hread [Hshort | (size & Hsize & Hrange & Hshort)].
  - exists (match readBuf k with [] => EOF | _ => UnexpectedEOF end).
    split.
    + destruct Hread as [Hd Hr]. unfold readPacket, bind, wrap.
      rewrite (on_conn_Some _ _ _ Hk), (SetReadDeadline_ok _ Hd). simpl.
      rewrite (set_conn_id _ _ Hk), (on_conn_Some _ _ _ Hk).
      rewrite ReadFull_short by assumption. reflexivity.
    + destruct (readBuf k) as [|b bs]; simpl in *.
      * split; [auto|]. split; auto.
      * split; [auto|]. split; [discriminate|]. intros [H|H]; [discriminate|lia].
  - destruct (readBuf k) as [|b0 [|b1 [|b2 [|b3 rest]]]] eqn:Hbuf;
      try discriminate.
    simpl in Hsize, Hshort. inversion Hsize as [Hs]. clear Hsize.
    exists (match rest with [] => EOF | _ => UnexpectedEOF end).
    split.
    + rewrite (readPacket_header _ _ _ _ _ _ _ Hk Hread Hbuf), Hs.
      unfold maxPacketSize.
      destruct (Z.ltb_spec size 10); [lia|].
      destruct (Z.ltb_spec 4096 size); [lia|]. simpl.
      destruct (Nat.leb_spec (Z.to_nat size) (length rest)); [lia|reflexivity].
    + destruct rest as [|r rest]; simpl.
      * split; [auto|]. split; auto.
      * split; [auto|]. split; [discriminate|].
        intros [H|H]; [discriminate|discriminate].
Qed.

Lemma readPacket_truncated_witness :
  let k := loopback (take 20 (packetBytes player_response)) in
  let c := mkClient (Some k) 2 true true in
  readable k /\ (readPacket c).2 = Err UnexpectedEOF.
Proof.
  intros k c.
  assert (Hread : readable k) by (split; reflexivity).
  split; [exact Hread|].
  destruct (readPacket_truncated c k eq_refl Hread) as (e & Hrun & Hor & Heof).
  - right. exists 27. split; [vm_compute; reflexivity|].
    split; [lia | vm_compute; lia].
  - rewrite Hrun. simpl. destruct Hor as [-> | ->]; [|reflexivity].
    destruct Heof as [Heof _]. destruct (Heof eq_refl); discriminate.
Defined.

(** X5. The bound of the round trip is sharp, and only the reader enforces
    it: [sendPacket] writes the frame of a body of more than 4086 bytes as
    it writes any other, and [readPacket] rejects that frame with
    [InvalidPacketSize]. *)
Theorem oversized_body_sent_not_read (p : Packet) (cs : Client) (ks : Conn) :
  4096 < Z.of_nat (length (list_byte_of_string (Body p))) + 10 < 2 ^ 31 ->
  conn cs = Some ks -> writable ks ->
  sendPacket p cs = (emit (packetBytes p) cs, Ok tt)
  /\ forall (cr : Client) (kr : Conn) (rest : list byte),
       conn cr = Some kr -> readable kr ->
       readBuf kr = packetBytes p ++ rest ->
       (readPacket cr).2
       = Err (InvalidPacketSize
                (Z.of_nat (length (list_byte_of_string (Body p))) + 10)).
Proof.
  intros Hlen Hks [Hwd Hw]. split.
  - rewrite (sendPacket_Some _ _ _ Hks), Hwd, Hw, (emit_Some _ _ _ Hks).
    reflexivity.
  - intros cr kr rest Hkr Hread Hbuf.
    assert (Hsize : packetSize p
                    = Z.of_nat (length (list_byte_of_string (Body p))) + 10).
    { unfold packetSize. apply int32_of_range. unfold int32_range. lia. }
    unfold packetBytes, put_int32_le at 1 in Hbuf. simpl in Hbuf.
    rewrite (readPacket_header _ _ _ _ _ _ _ Hkr Hread Hbuf).
    rewrite uint32_le_put, int32_mod, (int32_of_range (packetSize p))
      by (rewrite Hsize; unfold int32_range; lia).
    rewrite Hsize. unfold maxPacketSize.
    destruct (Z.ltb_spec (Z.of_nat (length (list_byte_of_string (Body p))) + 10) 10);
      [reflexivity|].
    destruct (Z.ltb_spec 4096
                (Z.of_nat (length (list_byte_of_string (Body p))) + 10));
      [reflexivity|lia].
Qed.

Lemma oversized_body_sent_not_read_witness :
  let p := mkPacket 0 5 PacketTypeCommand
             (string_of_list_byte (repeat x61 4087)) in
  (sendPacket p (mkClient (Some (loopback [])) 6 true true)).2 = Ok tt
  /\ (readPacket (mkClient (Some (loopback (packetBytes p))) 6 true true)).2
     = Err (InvalidPacketSize 4097).
Proof.
  intros p.
  assert (Hlen : Z.of_nat (length (list_byte_of_string (Body p))) + 10 = 4097)
    by (vm_compute; reflexivity).
  destruct (oversized_body_sent_not_read p
              (mkClient (Some (loopback [])) 6 true true) (loopback []))
    as [Hsend Hread].
  - rewrite Hlen. lia.
  - reflexivity.
  - split; reflexivity.
  - split; [rewrite Hsend; reflexivity|].
    rewrite (Hread (mkClient (Some (loopback (packetBytes p))) 6 true true)
               (loopback (packetBytes p)) [] eq_refl (conj eq_refl eq_refl)).
    + rewrite Hlen. reflexivity.
    + symmetry. apply app_nil_r.
Defined.

(** X6. Frames delimit themselves: on a stream that carries the frames of
    the packets [ps] one after the other, as many calls of [readPacket]
    return these packets, in order, and leave what follows the last
    frame. *)
Theorem readPackets_stream (ps : list Packet) :
  forall (c : Client) (k : Conn) (rest : list byte),
    Forall sendable ps ->
    conn c = Some k -> readable k ->
    readBuf k = concat (map packetBytes ps) ++ rest ->
    readPackets (length ps) c
    = (set_conn (Some (set_readBuf rest k)) c, Ok (map received ps)).
Proof.
  induction ps as [|p ps IH]; intros c k rest Hps Hk Hread Hbuf.
  - simpl in *. subst rest. rewrite set_readBuf_id, (set_conn_id _ _ Hk).
    reflexivity.
  - inversion Hps as [|? ? (HI & HT & HB) Hps']. subst.
    simpl in Hbuf. rewrite <- app_assoc in Hbuf.
    simpl. unfold bind at 1.
    rewrite (readPacket_packetBytes p c k _ HI HT HB Hk Hread Hbuf).
    set (k1 := set_readBuf (concat (map packetBytes ps) ++ rest) k).
    unfold bind at 1.
    rewrite (IH (set_conn (Some k1) c) k1 rest Hps' eq_refl Hread eq_refl).
    reflexivity.
Qed.

Lemma readPackets_stream_witness :
  Forall sendable [auth_rejection; player_response]
  /\ (readPackets 2
        (mkClient (Some (loopback (packetBytes auth_rejection
                                     ++ packetBytes player_response))) 1 true true)).2
     = Ok [auth_rejection; player_response].
Proof.
  assert (Hps : Forall sendable [auth_rejection; player_response]).
  { constructor; [|constructor; [|constructor]];
      vm_compute; intuition congruence. }
  split; [exact Hps|].
  assert (Hbuf : readBuf (loopback (packetBytes auth_rejection
                                      ++ packetBytes player_response))
                 = concat (map packetBytes [auth_rejection; player_response]) ++ [])
    by (vm_compute; reflexivity).
  pose proof (readPackets_stream [auth_rejection; player_response]
                (mkClient (Some (loopback (packetBytes auth_rejection
                                             ++ packetBytes player_response)))
                   1 true true)
                _ [] Hps eq_refl (conj eq_refl eq_refl) Hbuf) as Hrun.
  change (length [auth_rejection; player_response]) with 2%nat in Hrun.
  rewrite Hrun. reflexivity.
Defined.

(** ** The client *)

Lemma int32_eq_mod a b :
  int32 a = int32 b -> exists q, a - b = 2 ^ 32 * q.
Proof.
  unfold int32. intros H.
  assert (Hm : (a + 2 ^ 31) mod 2 ^ 32 = (b + 2 ^ 31) mod 2 ^ 32) by lia.
  pose proof (Z.div_mod (a + 2 ^ 31) (2 ^ 32) ltac:(lia)) as Ha.
  pose proof (Z.div_mod (b + 2 ^ 31) (2 ^ 32) ltac:(lia)) as Hb.
  exists ((a + 2 ^ 31) / 2 ^ 32 - (b + 2 ^ 31) / 2 ^ 32). lia.
Qed.

Lemma int32_succ a : int32 (int32 a + 1) = int32 (a + 1).
Proof.
  unfold int32.
  replace ((a + 2 ^ 31) mod 2 ^ 32 - 2 ^ 31 + 1 + 2 ^ 31)
    with ((a + 2 ^ 31) mod 2 ^ 32 + 1) by lia.
  rewrite Zplus_mod_idemp_l. f_equal. f_equal. lia.
Qed.

Lemma requestID_iter n c :
  int32_range (requestID c) ->
  requestID (Nat.iter n (fun c => (getNextRequestID c).1) c)
  = int32 (requestID c + Z.of_nat n).
Proof.
  intros Hr. induction n as [|n IH].
  - simpl. rewrite Z.add_0_r. symmetry. apply int32_of_range, Hr.
  - rewrite Nat.iter_succ.
    change (requestID (getNextRequestID ?x).1) with (int32 (requestID x + 1)).
    rewrite IH, int32_succ. f_equal. lia.
Qed.

(** X7. Request ids: the ids a client issues are consecutive 32-bit
    integers starting at its counter; the one issued after [n] others is
    [int32 (counter + n)], so after 2^31 - 1 comes -2^31, and no id is
    issued twice within 2^32 requests. *)
Theorem request_ids_not_reused (c : Client) :
  int32_range (requestID c) ->
  let issued n :=
    (getNextRequestID (Nat.iter n (fun c => (getNextRequestID c).1) c)).2 in
  (forall n, issued n = Ok (int32 (requestID c + Z.of_nat n)))
  /\ (forall n, requestID c + Z.of_nat n < 2 ^ 31 ->
                issued n = Ok (requestID c + Z.of_nat n))
  /\ (forall n, requestID c + Z.of_nat n = 2 ^ 31 -> issued n = Ok (- 2 ^ 31))
  /\ (forall m n, (m < n)%nat -> Z.of_nat n < 2 ^ 32 -> issued m <> issued n).
Proof.
  intros Hr issued.
  assert (Hissued : forall n, issued n = Ok (int32 (requestID c + Z.of_nat n))).
  { intros n. unfold issued. simpl. f_equal. apply requestID_iter, Hr. }
  split; [exact Hissued|]. split; [|split].
  - intros n Hn. rewrite Hissued. f_equal. apply int32_of_range.
    unfold int32_range in *. lia.
  - intros n Hn. rewrite Hissued, Hn. reflexivity.
  - intros m n Hmn Hn. rewrite !Hissued. intros [= Heq].
    apply int32_eq_mod in Heq. destruct Heq as [q Hq]. lia.
Qed.

Lemma request_ids_not_reused_witness :
  int32_range (requestID NewClient)
  /\ (getNextRequestID
        (Nat.iter 2 (fun c => (getNextRequestID c).1) NewClient)).2 = Ok 3.
Proof.
  assert (Hr : int32_range (requestID NewClient))
    by (unfold int32_range; simpl; lia).
  split; [exact Hr|].
  destruct (request_ids_not_reused NewClient Hr) as (_ & Hsmall & _).
  apply (Hsmall 2%nat). simpl. lia.
Defined.

Lemma sendPacket_no_panic packet c k :
  conn c = Some k -> (sendPacket packet c).2 <> Panic.
Proof.
  intros Hk. rewrite (sendPacket_Some _ _ _ Hk).
  destruct (writeDeadlineErr k); [discriminate|].
  destruct (writeErr k); discriminate.
Qed.

Lemma readPacket_no_panic c k :
  conn c = Some k -> (readPacket c).2 <> Panic.
Proof.
  intros Hk.
  destruct (readDeadlineErr k) as [e|] eqn:Hd;
    [rewrite (readPacket_deadline_error _ _ _ Hk Hd); discriminate|].
  destruct (readErr k) as [e|] eqn:Hr;
    [rewrite (readPacket_read_error _ _ _ Hk Hd Hr); discriminate|].
  assert (Hread : readable k) by (split; assumption).
  destruct (readBuf k) as [|b0 [|b1 [|b2 [|b3 rest]]]] eqn:Hbuf;
    try (rewrite (readPacket_short _ _ Hk Hread) by (rewrite Hbuf; simpl; lia);
         discriminate).
  rewrite (readPacket_header _ _ _ _ _ _ _ Hk Hread Hbuf).
  destruct (_ || _); [discriminate|].
  destruct (_ <=? _)%nat; [|discriminate]. cbv zeta. simpl.
  destruct (get_int32_le _); [|discriminate].
  destruct (get_int32_le _); discriminate.
Qed.

(** The two shapes of a call of [Authenticate]: a precondition check fails
    and nothing happens, or a request id is taken and an exchange is tried;
    the client is then authenticated exactly when the call succeeds. *)
Lemma Authenticate_shape password c :
  (isConnected c && negb (isAuthorized c) = false
   /\ Authenticate password c
      = (c, Err (if isConnected c then AlreadyAuthenticated else NotConnected)))
  \/ (isConnected c = true /\ isAuthorized c = false
      /\ exists n bs,
           let after := consume n (emit bs (getNextRequestID c).1) in
           ((Authenticate password c).1 = after
            /\ (Authenticate password c).2 <> Ok tt)
           \/ Authenticate password c = (set_isAuthorized true after, Ok tt)).
Proof.
  destruct (isConnected c) eqn:Hc; [destruct (isAuthorized c) eqn:Ha|].
  - left. split; [reflexivity|].
    unfold Authenticate, bind, gets. simpl. rewrite Hc. simpl. rewrite Ha.
    reflexivity.
  - right. split; [reflexivity|]. split; [reflexivity|].
    rewrite (Authenticate_run _ _ Hc Ha). cbv zeta.
    destruct (sendPacket _ _) as [c1 r1] eqn:Hs.
    destruct (exchange_state _ _ _ _ Hs) as [[-> Hr1]|[-> ->]].
    + exists 0%nat, []. rewrite emit_nil, consume_0. left.
      destruct r1 as [[]|e|]; [congruence|split; [reflexivity|discriminate]..].
    + destruct (readPacket_reads_only
                  (emit (packetBytes
                     (mkPacket 0 (requestID c) PacketTypeAuth password))
                     (getNextRequestID c).1)) as [n Hn].
      destruct (readPacket _) as [c2 r2]. simpl in Hn. subst c2.
      eexists n, _.
      destruct r2 as [response|e|];
        [|left; split; [reflexivity|discriminate]..].
      destruct (ID response =? -1);
        [left; split; [reflexivity|discriminate]|].
      destruct (ID response =? requestID c);
        [right; reflexivity | left; split; [reflexivity|discriminate]].
  - left. split; [reflexivity|].
    unfold Authenticate, bind, gets. simpl. rewrite Hc. reflexivity.
Qed.

(** X8. Frame of [Authenticate]: whatever it returns, the connected flag
    and the transport handle are what they were; the authenticated flag
    changes only when the call succeeds, which needs a connected client
    that was not authenticated; the request-id counter is untouched when a
    precondition check fails and advanced by one (as an [int32]) as soon as
    both pass, also when the exchange fails: a failed authentication does
    use up a request id. *)
Theorem Authenticate_frame (password : string) (c : Client) :
  let c' := (Authenticate password c).1 in
  let r := (Authenticate password c).2 in
  isConnected c' = isConnected c
  /\ handle_of c' = handle_of c
  /\ (r <> Ok tt -> isAuthorized c' = isAuthorized c)
  /\ (r = Ok tt ->
      isConnected c = true /\ isAuthorized c = false /\ isAuthorized c' = true)
  /\ requestID c'
     = (if isConnected c && negb (isAuthorized c)
        then int32 (requestID c + 1) else requestID c).
Proof.
  intros c' r. subst c' r.
  destruct (Authenticate_shape password c)
    as [[Hb ->]|(Hc & Ha & n & bs & [[Hst Hr]| Hrun])].
  - rewrite Hb. simpl. split; [reflexivity|]. split; [reflexivity|].
    split; [reflexivity|]. split; [|reflexivity].
    intros Hok. destruct (isConnected c); discriminate Hok.
  - rewrite Hst. split; [reflexivity|]. split.
    { unfold handle_of, consume, emit. destruct c as [[k|] i b1 b2]; reflexivity. }
    split; [reflexivity|]. split; [intros H; contradiction|].
    rewrite Hc, Ha. reflexivity.
  - rewrite Hrun. simpl. split; [reflexivity|]. split.
    { unfold handle_of, consume, emit. destruct c as [[k|] i b1 b2]; reflexivity. }
    split; [intros H; contradiction|]. split; [auto|].
    rewrite Hc, Ha. reflexivity.
Qed.

Lemma well_formed_never_panics (c : Client) :
  well_formed c ->
  forall dial address password command,
    (Connect dial address c).2 <> Panic
    /\ (Authenticate password c).2 <> Panic
    /\ (Execute command c).2 <> Panic
    /\ (Disconnect c).2 <> Panic.
Proof.
  intros Hreach dial address password command.
  unfold well_formed in Hreach.
  split.
  { rewrite Connect_run. destruct (isConnected c); [discriminate|].
    destruct (dial address); discriminate. }
  destruct (isConnected c) eqn:Hc.
  - destruct Hreach as [k Hk].
    assert (Hk0 : conn (getNextRequestID c).1 = Some k) by exact Hk.
    assert (Hexchange : forall packet,
               (sendPacket packet (getNextRequestID c).1).2 <> Panic
               /\ forall c1, sendPacket packet (getNextRequestID c).1 = (c1, Ok tt) ->
                             (readPacket c1).2 <> Panic).
    { intros packet. split; [apply (sendPacket_no_panic _ _ _ Hk0)|].
      intros c1 Hs. rewrite (sendPacket_Some _ _ _ Hk0) in Hs.
      destruct (writeDeadlineErr k); [discriminate|].
      destruct (writeErr k); [discriminate|].
      inversion Hs. eapply readPacket_no_panic. reflexivity. }
    split; [|split].
    + destruct (isAuthorized c) eqn:Ha.
      * unfold Authenticate, bind, gets. simpl. rewrite Hc. simpl. rewrite Ha.
        discriminate.
      * rewrite (Authenticate_run _ _ Hc Ha). cbv zeta.
        destruct (Hexchange (mkPacket 0 (requestID c) PacketTypeAuth password))
          as [Hs Hr].
        destruct (sendPacket _ _) as [c1 [[]|e|]]; [|discriminate|contradiction].
        specialize (Hr c1 eq_refl).
        destruct (readPacket c1) as [c2 [response|e|]];
          [|discriminate|contradiction].
        destruct (ID response =? -1); [discriminate|].
        destruct (ID response =? requestID c); discriminate.
    + destruct (isAuthorized c) eqn:Ha.
      * rewrite (Execute_run _ _ Hc Ha). cbv zeta.
        destruct (Hexchange (mkPacket 0 (requestID c) PacketTypeCommand command))
          as [Hs Hr].
        destruct (sendPacket _ _) as [c1 [[]|e|]]; [|discriminate|contradiction].
        specialize (Hr c1 eq_refl).
        destruct (readPacket c1) as [c2 [response|e|]];
          [|discriminate|contradiction].
        destruct (ID response =? requestID c); discriminate.
      * rewrite (Execute_not_authenticated _ _ Hc Ha). discriminate.
    + rewrite (Disconnect_connected _ _ Hc Hk). destruct (closeErr k); discriminate.
  - split; [|split].
    + unfold Authenticate, bind, gets. simpl. rewrite Hc. discriminate.
    + rewrite (Execute_not_connected _ _ Hc). discriminate.
    + rewrite (Disconnect_not_connected _ Hc). discriminate.
Qed.

(** X9. No nil dereference: on a client a program can build, none of the
    four operations panics, whatever the network does. *)
Theorem client_never_panics (c : Client) :
  reachable c ->
  forall dial address password command,
    (Connect dial address c).2 <> Panic
    /\ (Authenticate password c).2 <> Panic
    /\ (Execute command c).2 <> Panic
    /\ (Disconnect c).2 <> Panic.
Proof.
  intros Hreach. apply well_formed_never_panics, reachable_well_formed, Hreach.
Qed.

Lemma client_never_panics_witness :
  reachable stuck_client
  /\ (Authenticate "secret" stuck_client).2 <> Panic
  /\ (Disconnect stuck_client).2 <> Panic.
Proof.
  split; [exact stuck_client_reachable|].
  destruct (client_never_panics stuck_client stuck_client_reachable
              refusing_dialer "" "secret" "") as (_ & Ha & _ & Hd).
  split; assumption.
Defined.

(** X10. [Connect]: on a connected client it fails with [AlreadyConnected]
    and the connection held is kept, whatever the dial would give; when the
    dial fails it fails with [ConnectionError] around the cause and the
    client is as it was; when the dial succeeds the client holds the
    dialled connection, is connected, and is not authenticated; the
    request-id counter is never touched. *)
Theorem Connect_outcome (dial : Dialer) (address : string) (c : Client) :
  reachable c ->
  (isConnected c = true ->
   Connect dial address c = (c, Err AlreadyConnected))
  /\ (isConnected c = false ->
      forall cause, dial address = inr cause ->
      Connect dial address c = (c, Err (ConnectionError cause)))
  /\ (isConnected c = false ->
      forall k, dial address = inl k ->
      Connect dial address c = (mkClient (Some k) (requestID c) true false, Ok tt))
  /\ requestID (Connect dial address c).1 = requestID c.
Proof.
  intros Hreach. apply reachable_well_formed in Hreach.
  unfold well_formed in Hreach. rewrite Connect_run.
  destruct (isConnected c) eqn:Hc.
  - split; [reflexivity|]. split; [discriminate|]. split; [discriminate|reflexivity].
  - destruct Hreach as [_ Ha]. split; [discriminate|]. split; [|split].
    + intros _ cause ->. reflexivity.
    + intros _ k ->. rewrite Ha. reflexivity.
    + destruct (dial address); reflexivity.
Qed.

Lemma Connect_outcome_witness :
  reachable session_client
  /\ Connect refusing_dialer "127.0.0.1:1" session_client
     = (session_client, Err AlreadyConnected).
Proof.
  split; [exact session_client_reachable|].
  destruct (Connect_outcome refusing_dialer "127.0.0.1:1" session_client
              session_client_reachable) as (Hconnected & _).
  apply Hconnected. reflexivity.
Defined.

Lemma Authenticate_on_wire password c k resp rest :
  isConnected c = true -> isAuthorized c = false ->
  conn c = Some k -> writable k -> readable k -> sendable resp ->
  readBuf k = packetBytes resp ++ rest ->
  let authPacket := mkPacket 0 (requestID c) PacketTypeAuth password in
  let c2 := set_conn (Some (set_readBuf rest
              (set_writeBuf (writeBuf k ++ packetBytes authPacket) k)))
              (getNextRequestID c).1 in
  Authenticate password c =
    if ID resp =? -1 then (c2, Err AuthenticationFailed)
    else if ID resp =? requestID c then (set_isAuthorized true c2, Ok tt)
    else (c2, Err UnexpectedResponse).
Proof.
  intros Hc Ha Hk Hwr Hrd (HI & HT & HB) Hbuf authPacket c2.
  assert (Hk0 : conn (getNextRequestID c).1 = Some k) by exact Hk.
  destruct (exchange_on_wire authPacket resp _ k rest Hk0 Hwr Hrd HI HT HB Hbuf)
    as [Hs Hr].
  rewrite (Authenticate_run _ _ Hc Ha). cbv zeta. fold authPacket.
  rewrite Hs, Hr. reflexivity.
Qed.

Lemma Execute_on_wire command c k resp rest :
  isConnected c = true -> isAuthorized c = true ->
  conn c = Some k -> writable k -> readable k -> sendable resp ->
  readBuf k = packetBytes resp ++ rest ->
  let cmdPacket := mkPacket 0 (requestID c) PacketTypeCommand command in
  let c2 := set_conn (Some (set_readBuf rest
              (set_writeBuf (writeBuf k ++ packetBytes cmdPacket) k)))
              (getNextRequestID c).1 in
  Execute command c =
    if ID resp =? requestID c then (c2, Ok (Body resp))
    else (c2, Err ResponseMismatch).
Proof.
  intros Hc Ha Hk Hwr Hrd (HI & HT & HB) Hbuf cmdPacket c2.
  assert (Hk0 : conn (getNextRequestID c).1 = Some k) by exact Hk.
  destruct (exchange_on_wire cmdPacket resp _ k rest Hk0 Hwr Hrd HI HT HB Hbuf)
    as [Hs Hr].
  rewrite (Execute_run _ _ Hc Ha). cbv zeta. fold cmdPacket.
  rewrite Hs, Hr. reflexivity.
Qed.

(** X11. A whole session of a client.  Against a server that can be
    dialled, answers the first request (id 1) and then the second (id 2),
    and whose connection can be closed: [Connect], [Authenticate],
    [Execute] and [Disconnect] on a new client all succeed; [Execute]
    returns the body of the second answer; what was written to the
    connection is the Auth packet with id 1 and the password followed by
    the Command packet with id 2 and the command, what follows the two
    answers is left unread; and the client ends disconnected, not
    authenticated, without connection, its counter at 3. *)
Theorem client_session (dial : Dialer) (address password command : string)
    (k : Conn) (accept answer : Packet) (rest : list byte) :
  dial address = inl k ->
  readable k -> writable k -> closeErr k = None ->
  sendable accept -> ID accept = 1 ->
  sendable answer -> ID answer = 2 ->
  readBuf k = packetBytes accept ++ packetBytes answer ++ rest ->
  let c1 := mkClient (Some k) 1 true false in
  let sent1 := packetBytes (mkPacket 0 1 PacketTypeAuth password) in
  let sent2 := packetBytes (mkPacket 0 2 PacketTypeCommand command) in
  let k2 := set_readBuf (packetBytes answer ++ rest)
              (set_writeBuf (writeBuf k ++ sent1) k) in
  let c2 := mkClient (Some k2) 2 true true in
  let k3 := set_readBuf rest (set_writeBuf (writeBuf k ++ sent1 ++ sent2) k) in
  let c3 := mkClient (Some k3) 3 true true in
  Connect dial address NewClient = (c1, Ok tt)
  /\ Authenticate password c1 = (c2, Ok tt)
  /\ Execute command c2 = (c3, Ok (Body answer))
  /\ Disconnect c3 = (mkClient None 3 false false, Ok tt).
Proof.
  intros Hdial Hrd Hwr Hclose Haccept Hid1 Hanswer Hid2 Hbuf
    c1 sent1 sent2 k2 c2 k3 c3.
  split; [rewrite Connect_run, Hdial; reflexivity|].
  split.
  { rewrite (Authenticate_on_wire password c1 k accept (packetBytes answer ++ rest)
               eq_refl eq_refl eq_refl Hwr Hrd Haccept Hbuf).
    rewrite Hid1. reflexivity. }
  split.
  { assert (Hrd2 : readable k2) by exact Hrd.
    assert (Hwr2 : writable k2) by exact Hwr.
    rewrite (Execute_on_wire command c2 k2 answer rest
               eq_refl eq_refl eq_refl Hwr2 Hrd2 Hanswer eq_refl).
    rewrite Hid2. simpl. unfold c3, k3, set_conn, set_readBuf, set_writeBuf.
    simpl. rewrite <- app_assoc. reflexivity. }
  rewrite (Disconnect_connected c3 k3 eq_refl eq_refl).
  change (closeErr k3) with (closeErr k). rewrite Hclose. reflexivity.
Qed.

Lemma client_session_witness :
  let k := loopback (packetBytes (mkPacket 0 1 PacketTypeAuthResponse "")
                       ++ packetBytes player_response ++ []) in
  let dial : Dialer := fun _ => inl k in
  (Execute "list" (Authenticate "secret" (Connect dial "h:1" NewClient).1).1).2
  = Ok player_list.
Proof.
  intros k dial.
  assert (Haccept : sendable (mkPacket 0 1 PacketTypeAuthResponse ""))
    by (vm_compute; intuition congruence).
  assert (Hanswer : sendable player_response)
    by (vm_compute; intuition congruence).
  destruct (client_session dial "h:1" "secret" "list" k
              (mkPacket 0 1 PacketTypeAuthResponse "") player_response []
              eq_refl (conj eq_refl eq_refl) (conj eq_refl eq_refl) eq_refl
              Haccept eq_refl Hanswer eq_refl eq_refl)
    as (H1 & H2 & H3 & _).
  rewrite H1. cbn [fst]. rewrite H2. cbn [fst]. rewrite H3. reflexivity.
Defined.

(** X12. After a disconnect the client can connect again, but the
    authentication is gone and the counter is not reset: once [Disconnect]
    has succeeded on a client a program can build, a [Connect] whose dial
    succeeds gives a connected client with the same counter, on which
    [Execute] fails with [NotAuthenticated] until [Authenticate] is called
    again. *)
Theorem reconnect_needs_authentication (c c1 : Client) (dial : Dialer)
    (address command : string) (k : Conn) :
  reachable c ->
  Disconnect c = (c1, Ok tt) ->
  dial address = inl k ->
  let c2 := mkClient (Some k) (requestID c) true false in
  Connect dial address c1 = (c2, Ok tt)
  /\ Execute command c2 = (c2, Err NotAuthenticated).
Proof.
  intros Hreach Hdis Hdial c2.
  apply reachable_well_formed in Hreach. unfold well_formed in Hreach.
  assert (Hc1 : c1 = mkClient None (requestID c) false false).
  { destruct (isConnected c) eqn:Hc.
    - destruct Hreach as [k0 Hk0]. rewrite (Disconnect_connected _ _ Hc Hk0) in Hdis.
      destruct (closeErr k0); inversion Hdis. reflexivity.
    - destruct Hreach as [Hk0 Ha].
      rewrite (Disconnect_not_connected _ Hc) in Hdis. inversion Hdis. subst c1.
      destruct c; simpl in *. subst. reflexivity. }
  subst c1. split.
  - rewrite Connect_run. simpl. rewrite Hdial. reflexivity.
  - apply Execute_not_authenticated; reflexivity.
Qed.

Lemma reconnect_needs_authentication_witness :
  reachable session_client
  /\ (Execute "list"
        (Connect accepting_dialer "h:1" (Disconnect session_client).1).1).2
     = Err NotAuthenticated.
Proof.
  split; [exact session_client_reachable|].
  destruct (reconnect_needs_authentication session_client
              (Disconnect session_client).1 accepting_dialer "h:1" "list"
              (loopback (packetBytes (mkPacket 0 1 PacketTypeAuthResponse "")))
              session_client_reachable eq_refl eq_refl) as [Hconnect Hexec].
  rewrite Hconnect. cbn [fst]. rewrite Hexec. reflexivity.
Defined.

(** ** The registry *)

Lemma preserves_ret {A} (a : A) : preserves (ret a).
Proof. intros st H. exact H. Qed.

Lemma preserves_throw {A} e : preserves (@throw Store A e).
Proof. intros st H. exact H. Qed.

Lemma preserves_gets {A} (f : Store -> A) : preserves (gets f).
Proof. intros st H. exact H. Qed.

Lemma preserves_bind {A B} (m : M Store A) (f : A -> M Store B) :
  preserves m -> (forall a, preserves (f a)) -> preserves (bind m f).
Proof.
  intros Hm Hf st Hst. specialize (Hm st Hst). unfold bind.
  destruct (m st) as [st' [a|e|]]; simpl in *; [|assumption..].
  apply Hf, Hm.
Qed.

Lemma preserves_wrap {A} w (m : M Store A) : preserves m -> preserves (wrap w m).
Proof.
  intros Hm st Hst. specialize (Hm st Hst). unfold wrap.
  destruct (m st) as [st' [a|e|]]; exact Hm.
Qed.

Lemma preserves_attempt {A} (m : M Store A) : preserves m -> preserves (attempt m).
Proof.
  intros Hm st Hst. specialize (Hm st Hst). unfold attempt.
  destruct (m st) as [st' [a|e|]]; exact Hm.
Qed.

Lemma preserves_discard {A} (m : M Store A) : preserves m -> preserves (discard m).
Proof.
  intros Hm st Hst. specialize (Hm st Hst). unfold discard.
  destruct (m st) as [st' [a|e|]]; exact Hm.
Qed.

Lemma preserves_on_error {A} (m : M Store A) (h : error -> M Store A) :
  preserves m -> (forall e, preserves (h e)) -> preserves (on_error m h).
Proof.
  intros Hm Hh st Hst. specialize (Hm st Hst). unfold on_error.
  destruct (m st) as [st' [a|e|]]; simpl in *; [assumption| |assumption].
  apply Hh, Hm.
Qed.

Lemma registry_inv_update st l c' :
  registry_inv st ->
  (forall c, clients st !! l = Some c -> well_formed c -> well_formed c') ->
  registry_inv (set_clients (<[l := c']> (clients st)) st).
Proof.
  intros Hst Hc' id session Hid. simpl in Hid.
  destruct (Hst id session Hid) as (Hkey & (c & Hc & Hwf) & Hshare).
  split; [exact Hkey|]. split; [|exact Hshare].
  simpl. destruct (decide (l = Session_Client session)) as [->|Hne].
  - exists c'. rewrite lookup_insert_eq. split; [reflexivity|]. eauto.
  - exists c. rewrite lookup_insert_ne by exact Hne. auto.
Qed.

Lemma preserves_on_client {A} l (m : M Client A) :
  (forall c, well_formed c -> well_formed (m c).1) ->
  preserves (on_client l m).
Proof.
  intros Hm st Hst. unfold on_client.
  destruct (clients st !! l) as [c|] eqn:Hl; [|exact Hst].
  destruct (m c) as [c' r] eqn:Hrun. simpl.
  apply registry_inv_update; [exact Hst|].
  intros c0 Hc0 Hwf. rewrite Hl in Hc0. inversion Hc0. subst c0.
  specialize (Hm c Hwf). rewrite Hrun in Hm. exact Hm.
Qed.

Lemma registry_inv_remove st id :
  registry_inv st -> registry_inv (set_sessions (delete id (sessions st)) st).
Proof.
  intros Hst id1 session Hid1. simpl in Hid1.
  apply lookup_delete_Some in Hid1. destruct Hid1 as [Hne Hid1].
  destruct (Hst id1 session Hid1) as (Hkey & Hc & Hshare).
  split; [exact Hkey|]. split; [exact Hc|].
  intros id' session' Hid' Heq. simpl in Hid'.
  apply lookup_delete_Some in Hid'. destruct Hid' as [_ Hid'].
  eauto.
Qed.

Lemma registry_inv_bind st id l c address name now :
  registry_inv st -> clients st !! l = None -> well_formed c ->
  registry_inv (mkStore (<[l := c]> (clients st))
                  (<[id := mkSession id l address name now]> (sessions st))).
Proof.
  intros Hst Hl Hwf id1 session Hid1. simpl in *.
  assert (Hold : forall id0 s0, sessions st !! id0 = Some s0 -> Session_Client s0 <> l).
  { intros id0 s0 H0 Heq. destruct (Hst id0 s0 H0) as (_ & (c0 & Hc0 & _) & _).
    rewrite Heq, Hl in Hc0. discriminate. }
  destruct (decide (id = id1)) as [->|Hne].
  - rewrite lookup_insert_eq in Hid1. inversion Hid1. subst session. simpl.
    split; [reflexivity|]. split.
    + exists c. rewrite lookup_insert_eq. auto.
    + intros id' session' Hid' Heq.
      destruct (decide (id1 = id')) as [->|Hne']; [reflexivity|].
      rewrite lookup_insert_ne in Hid' by exact Hne'.
      exfalso. exact (Hold _ _ Hid' Heq).
  - rewrite lookup_insert_ne in Hid1 by exact Hne.
    destruct (Hst id1 session Hid1) as (Hkey & (c1 & Hc1 & Hwf1) & Hshare).
    split; [exact Hkey|]. split.
    + exists c1. rewrite lookup_insert_ne
        by (intros Heq; exact (Hold _ _ Hid1 (eq_sym Heq))).
      auto.
    + intros id' session' Hid' Heq.
      destruct (decide (id = id')) as [->|Hne'].
      * rewrite lookup_insert_eq in Hid'. inversion Hid'. subst session'.
        simpl in Heq. exfalso. exact (Hold _ _ Hid1 (eq_sym Heq)).
      * rewrite lookup_insert_ne in Hid' by exact Hne'. eauto.
Qed.

Lemma preserves_CreateSession now id name address :
  preserves (CreateSession now id name address).
Proof.
  intros st Hst. destruct (sessions st !! id) as [existing|] eqn:Hid.
  - rewrite (CreateSession_duplicate _ _ _ _ _ _ Hid). exact Hst.
  - rewrite (CreateSession_new _ _ _ _ _ Hid). simpl.
    apply registry_inv_bind; [exact Hst|apply fresh_client_unused|].
    unfold well_formed. simpl. auto.
Qed.

Lemma preserves_GetSession id : preserves (GetSession id).
Proof. intros st Hst. rewrite GetSession_run. exact Hst. Qed.

Lemma preserves_ListSessions range : preserves (ListSessions range).
Proof. intros st Hst. exact Hst. Qed.

Lemma well_formed_IsConnected c : well_formed c -> well_formed (IsConnected c).1.
Proof. intros H. exact H. Qed.

Lemma well_formed_IsAuthenticated c :
  well_formed c -> well_formed (IsAuthenticated c).1.
Proof. intros H. exact H. Qed.

Lemma preserves_RemoveSession id : preserves (RemoveSession id).
Proof.
  unfold RemoveSession. apply preserves_bind; [apply preserves_gets|].
  intros [session|]; [|apply preserves_throw].
  apply preserves_bind;
    [apply preserves_on_client, well_formed_IsConnected|].
  intros connected. apply preserves_bind.
  - destruct connected; [|apply preserves_ret].
    apply preserves_wrap, preserves_on_client, well_formed_Disconnect.
  - intros _ st Hst. apply registry_inv_remove, Hst.
Qed.

Lemma preserves_disconnectEach entries :
  forall errs, preserves (disconnectEach entries errs).
Proof.
  induction entries as [|[id session] rest IH]; intros errs; simpl.
  - apply preserves_ret.
  - apply preserves_bind;
      [apply preserves_on_client, well_formed_IsConnected|].
    intros [|]; [|apply IH].
    apply preserves_bind;
      [apply preserves_attempt, preserves_on_client, well_formed_Disconnect|].
    intros [err|[]]; apply IH.
Qed.

Lemma registry_inv_empty st : registry_inv (set_sessions ∅ st).
Proof. intros id session Hid. simpl in Hid. rewrite lookup_empty in Hid. discriminate. Qed.

Lemma preserves_DisconnectAll range : preserves (DisconnectAll range).
Proof.
  unfold DisconnectAll. apply preserves_bind; [apply preserves_gets|].
  intros entries. apply preserves_bind; [apply preserves_disconnectEach|].
  intros errs. apply preserves_bind.
  - intros st _. apply registry_inv_empty.
  - intros _. destruct (_ <? _)%nat; apply preserves_ret.
Qed.

Lemma preserves_tool_Connect now dial params :
  preserves (mcp.Connect now dial params).
Proof.
  unfold mcp.Connect.
  apply preserves_bind; [apply preserves_wrap, preserves_CreateSession|].
  intros session. apply preserves_bind.
  { apply preserves_on_error;
      [apply preserves_on_client, well_formed_Connect|].
    intros e. apply preserves_bind;
      [apply preserves_discard, preserves_RemoveSession|].
    intros _. apply preserves_throw. }
  intros _. apply preserves_bind; [|intros _; apply preserves_ret].
  apply preserves_on_error;
    [apply preserves_on_client, well_formed_Authenticate|].
  intros e. apply preserves_bind;
    [apply preserves_discard, preserves_RemoveSession|].
  intros _. apply preserves_throw.
Qed.

Lemma preserves_tool_Disconnect params : preserves (mcp.Disconnect params).
Proof.
  unfold mcp.Disconnect.
  apply preserves_bind; [apply preserves_attempt, preserves_RemoveSession|].
  intros [err|[]]; apply preserves_ret.
Qed.

Lemma preserves_tool_Execute params : preserves (mcp.Execute params).
Proof.
  unfold mcp.Execute.
  apply preserves_bind; [apply preserves_attempt, preserves_GetSession|].
  intros [err|session]; [apply preserves_ret|].
  apply preserves_bind.
  - apply preserves_attempt, preserves_on_client, well_formed_Execute.
  - intros [err|response]; apply preserves_ret.
Qed.

Lemma preserves_describeEach listed :
  forall sessionInfo, preserves (mcp.describeEach listed sessionInfo).
Proof.
  induction listed as [|session rest IH]; intros sessionInfo; simpl.
  - apply preserves_ret.
  - apply preserves_bind;
      [apply preserves_on_client, well_formed_IsConnected|].
    intros connected. apply preserves_bind; [|intros status; apply IH].
    destruct connected; [|apply preserves_ret].
    apply preserves_bind;
      [apply preserves_on_client, well_formed_IsAuthenticated|].
    intros [|]; apply preserves_ret.
Qed.

Lemma preserves_tool_ListSessions range : preserves (mcp.ListSessions range).
Proof.
  unfold mcp.ListSessions.
  apply preserves_bind; [apply preserves_ListSessions|].
  intros listed. destruct (_ =? _)%nat; [apply preserves_ret|].
  apply preserves_describeEach.
Qed.

Lemma reachable_store_inv st : reachable_store st -> registry_inv st.
Proof.
  induction 1 as [| now id name address st _ IH | id st _ IH | range st _ IH
                  | id st _ IH | range st _ IH | now dial params st _ IH
                  | params st _ IH | params st _ IH | range st _ IH
                  | st id session c k k' _ IH Hid Hc Hk Hh].
  - intros id session Hid. simpl in Hid. rewrite lookup_empty in Hid. discriminate.
  - apply preserves_CreateSession, IH.
  - apply preserves_GetSession, IH.
  - apply preserves_ListSessions, IH.
  - apply preserves_RemoveSession, IH.
  - apply preserves_DisconnectAll, IH.
  - apply preserves_tool_Connect, IH.
  - apply preserves_tool_Disconnect, IH.
  - apply preserves_tool_Execute, IH.
  - apply preserves_tool_ListSessions, IH.
  - apply registry_inv_update; [exact IH|].
    intros c0 Hc0 Hwf. rewrite Hc in Hc0. inversion Hc0. subst c0.
    unfold well_formed in *. destruct c as [q i [] b]; simpl in *.
    + eexists; reflexivity.
    + destruct Hwf as [Hq _]. congruence.
Qed.

(** X13. The invariant of the registry: in every store a program can build
    with the operations of the session manager and the four tools, whatever
    they return and whatever happens on the connections, each session is
    bound under its own identifier, its client is allocated and holds a
    connection exactly while it is connected (and is authenticated only
    while connected), and no two sessions share a client. *)
Theorem registry_invariant (st : Store) :
  reachable_store st ->
  forall id session,
    sessions st !! id = Some session ->
    Session_ID session = id
    /\ (exists c,
          clients st !! Session_Client session = Some c
          /\ (isConnected c = true <-> is_Some (conn c))
          /\ (isAuthorized c = true -> isConnected c = true))
    /\ (forall id' session',
          sessions st !! id' = Some session' ->
          Session_Client session' = Session_Client session -> id' = id).
Proof.
  intros Hreach id session Hid.
  destruct (reachable_store_inv st Hreach id session Hid)
    as (Hkey & (c & Hc & Hwf) & Hshare).
  split; [exact Hkey|]. split; [|exact Hshare].
  exists c. split; [exact Hc|].
  unfold well_formed in Hwf. destruct (isConnected c).
  - split; [tauto|auto].
  - destruct Hwf as [Hk Ha]. rewrite Hk, Ha. split.
    + split; [discriminate|]. intros [x Hx]. discriminate.
    + discriminate.
Qed.

Lemma live_store_reachable : reachable_store live_store.
Proof. apply store_tool_Connect, store_new. Defined.

Lemma registry_invariant_witness :
  reachable_store live_store
  /\ exists session c,
       sessions live_store !! "s1" = Some session
       /\ Session_ID session = "s1"
       /\ clients live_store !! Session_Client session = Some c
       /\ (isAuthorized c = true -> isConnected c = true).
Proof.
  split; [exact live_store_reachable|].
  assert (Hid : sessions live_store !! "s1"
                = Some (mkSession "s1" 1%positive "127.0.0.1:25575" "" 0))
    by (vm_compute; reflexivity).
  destruct (registry_invariant live_store live_store_reachable _ _ Hid)
    as (Hkey & (c & Hc & _ & Ha) & _).
  exists (mkSession "s1" 1%positive "127.0.0.1:25575" "" 0), c.
  split; [exact Hid|]. auto.
Defined.

Lemma on_client_registered {A} (m : M Client A) st id session :
  registry_inv st -> sessions st !! id = Some session ->
  exists c,
    clients st !! Session_Client session = Some c /\ well_formed c
    /\ on_client (Session_Client session) m st
       = (set_clients (<[Session_Client session := (m c).1]> (clients st)) st,
          (m c).2).
Proof.
  intros Hst Hid. destruct (Hst id session Hid) as (_ & (c & Hc & Hwf) & _).
  exists c. split; [exact Hc|]. split; [exact Hwf|].
  apply on_client_Some, Hc.
Qed.

Lemma on_client_IsConnected st l c :
  clients st !! l = Some c ->
  on_client l IsConnected st = (st, Ok (isConnected c)).
Proof.
  intros Hl. rewrite (on_client_Some _ _ _ _ Hl). simpl.
  rewrite (set_clients_id _ _ _ Hl). reflexivity.
Qed.

Lemma on_client_IsAuthenticated st l c :
  clients st !! l = Some c ->
  on_client l IsAuthenticated st = (st, Ok (isAuthorized c)).
Proof.
  intros Hl. rewrite (on_client_Some _ _ _ _ Hl). simpl.
  rewrite (set_clients_id _ _ _ Hl). reflexivity.
Qed.

(** One turn of the loop of [DisconnectAll] on a registered session: the
    client is replaced by what [Disconnect] makes of it (which is the client
    itself when it is not connected), and a failure is recorded. *)
Lemma disconnectEach_step id session rest errs st c :
  clients st !! Session_Client session = Some c -> well_formed c ->
  disconnectEach ((id, session) :: rest) errs st
  = disconnectEach rest
      (errs ++ match (Disconnect c).2 with
               | Err err => [DisconnectSessionError id err]
               | _ => []
               end)
      (set_clients (<[Session_Client session := (Disconnect c).1]> (clients st)) st).
Proof.
  intros Hc Hwf. simpl. unfold bind at 1.
  rewrite (on_client_IsConnected _ _ _ Hc).
  destruct (isConnected c) eqn:Hconn.
  - unfold bind at 1. unfold attempt.
    rewrite (on_client_Some Disconnect _ _ _ Hc).
    pose proof (well_formed_never_panics c Hwf refusing_dialer "" "" "")
      as (_ & _ & _ & Hnp).
    destruct (Disconnect c) as [c1 [[]|err|]]; simpl in *;
      [rewrite app_nil_r; reflexivity | reflexivity | contradiction].
  - rewrite (Disconnect_not_connected _ Hconn). simpl.
    rewrite (set_clients_id _ _ _ Hc), app_nil_r. reflexivity.
Qed.

Lemma disconnectEach_run entries :
  forall errs st,
    registry_inv st -> NoDup entries.*1 ->
    (forall id s, (id, s) ∈ entries -> sessions st !! id = Some s) ->
    exists st',
      disconnectEach entries errs st
      = (st', Ok (errs ++ omap (disconnectFailure st) entries))
      /\ sessions st' = sessions st
      /\ (forall id s, (id, s) ∈ entries ->
            clients st' !! Session_Client s
            = (fun c => (Disconnect c).1) <$> clients st !! Session_Client s)
      /\ (forall l, (forall id s, (id, s) ∈ entries -> Session_Client s <> l) ->
            clients st' !! l = clients st !! l).
Proof.
  induction entries as [|[id session] rest IH]; intros errs st Hst Hnd Hreg.
  - exists st. simpl. rewrite app_nil_r. split; [reflexivity|].
    split; [reflexivity|]. split; [|reflexivity].
    intros id s Hin. apply elem_of_nil in Hin. contradiction.
  - assert (Hid : sessions st !! id = Some session)
      by (apply Hreg; left).
    destruct (Hst id session Hid) as (_ & (c & Hc & Hwf) & Hshare).
    rewrite (disconnectEach_step _ _ _ _ _ _ Hc Hwf).
    set (st1 := set_clients
                  (<[Session_Client session := (Disconnect c).1]> (clients st)) st).
    simpl in Hnd. apply NoDup_cons in Hnd. destruct Hnd as [Hnotin Hnd].
    assert (Hother : forall id' s', (id', s') ∈ rest ->
                       Session_Client session <> Session_Client s').
    { intros id' s' Hin Heq.
      assert (Hid' : sessions st !! id' = Some s') by (apply Hreg; right; exact Hin).
      pose proof (Hshare _ _ Hid' (eq_sym Heq)) as ->.
      apply Hnotin. apply (list_elem_of_fmap_2 fst) in Hin. exact Hin. }
    assert (Hst1 : registry_inv st1).
    { apply registry_inv_update; [exact Hst|].
      intros c0 Hc0 _. rewrite Hc in Hc0. inversion Hc0. subst c0.
      apply well_formed_Disconnect, Hwf. }
    destruct (IH (errs ++ match (Disconnect c).2 with
                          | Err err => [DisconnectSessionError id err]
                          | _ => []
                          end) st1 Hst1 Hnd)
      as (st' & Hrun & Hsess & Hin' & Hout').
    { intros id' s' Hin. apply Hreg. right. exact Hin. }
    assert (Hsame : forall id' s', (id', s') ∈ rest ->
              clients st1 !! Session_Client s' = clients st !! Session_Client s').
    { intros id' s' Hin. unfold st1. simpl.
      apply lookup_insert_ne, (Hother _ _ Hin). }
    exists st'. split; [|split; [exact Hsess|split]].
    + rewrite Hrun. f_equal. f_equal. rewrite <- app_assoc. f_equal.
      simpl. unfold disconnectFailure at 2. simpl. rewrite Hc.
      assert (Hfail : omap (disconnectFailure st1) rest
                      = omap (disconnectFailure st) rest).
      { apply list_omap_ext. apply Forall2_same_length_lookup_2; [reflexivity|].
        intros i e1 e2 He1 He2. rewrite He1 in He2. inversion He2. subst e2.
        destruct e1 as [id' s']. unfold disconnectFailure. cbn [fst snd].
        rewrite (Hsame id' s'); [reflexivity|].
        apply list_elem_of_lookup. eauto. }
      rewrite Hfail. destruct (Disconnect c).2; reflexivity.
    + intros id' s' Hin. apply elem_of_cons in Hin.
      destruct Hin as [[= -> ->]|Hin].
      * rewrite Hout'.
        -- unfold st1. simpl. rewrite lookup_insert_eq, Hc. reflexivity.
        -- intros id' s' Hin Heq. exact (Hother _ _ Hin (eq_sym Heq)).
      * rewrite (Hin' _ _ Hin), (Hsame _ _ Hin). reflexivity.
    + intros l Hl. rewrite Hout'.
      * unfold st1. simpl. apply lookup_insert_ne. apply (Hl id session). left.
      * intros id' s' Hin. apply (Hl id' s'). right. exact Hin.
Qed.

Lemma range_ok_elem range (m : gmap string Session) id s :
  range_ok range -> (id, s) ∈ range m <-> m !! id = Some s.
Proof.
  intros Hrange. rewrite (Hrange m). apply elem_of_map_to_list.
Qed.

Lemma range_ok_NoDup range (m : gmap string Session) :
  range_ok range -> NoDup (range m).*1.
Proof.
  intros Hrange. rewrite (Hrange m). apply NoDup_fst_map_to_list.
Qed.

Lemma disconnectFailure_Some st entry f :
  registry_inv st -> sessions st !! entry.1 = Some entry.2 ->
  disconnectFailure st entry = Some f
  <-> exists c k cause,
        clients st !! Session_Client entry.2 = Some c
        /\ isConnected c = true /\ conn c = Some k /\ closeErr k = Some cause
        /\ f = DisconnectSessionError entry.1 (CloseError cause).
Proof.
  intros Hst Hid. destruct (Hst _ _ Hid) as (_ & (c & Hc & Hwf) & _).
  unfold disconnectFailure. rewrite Hc. unfold well_formed in Hwf.
  destruct (isConnected c) eqn:Hconn.
  - destruct Hwf as [k Hk]. rewrite (Disconnect_connected _ _ Hconn Hk).
    destruct (closeErr k) as [cause|] eqn:Hclose; simpl.
    + split.
      * intros [= <-]. exists c, k, cause. auto 10.
      * intros (c' & k' & cause' & Hc' & _ & Hk' & Hclose' & ->).
        inversion Hc'. subst c'. rewrite Hk in Hk'. inversion Hk'. subst k'.
        rewrite Hclose in Hclose'. inversion Hclose'. reflexivity.
    + split; [discriminate|].
      intros (c' & k' & cause' & Hc' & _ & Hk' & Hclose' & _).
      inversion Hc'. subst c'. rewrite Hk in Hk'. inversion Hk'. subst k'.
      rewrite Hclose in Hclose'. discriminate.
  - rewrite (Disconnect_not_connected _ Hconn). simpl.
    split; [discriminate|].
    intros (c' & k' & cause' & Hc' & Hconn' & _).
    inversion Hc'. subst c'. rewrite Hconn in Hconn'. discriminate.
Qed.

Lemma DisconnectAll_run range st :
  registry_inv st -> range_ok range ->
  let failures := omap (disconnectFailure st) (range (sessions st)) in
  exists h,
    DisconnectAll range st
    = (mkStore h ∅,
       Ok (match failures with [] => None | _ => Some (Join failures) end))
    /\ (forall id s, sessions st !! id = Some s ->
          h !! Session_Client s
          = (fun c => (Disconnect c).1) <$> clients st !! Session_Client s)
    /\ (forall l, (forall id s, sessions st !! id = Some s -> Session_Client s <> l) ->
          h !! l = clients st !! l).
Proof.
  intros Hst Hrange failures.
  destruct (disconnectEach_run (range (sessions st)) [] st Hst
              (range_ok_NoDup _ _ Hrange))
    as (st' & Hrun & Hsess & Hin & Hout).
  { intros id s Hin. apply (range_ok_elem _ _ _ _ Hrange), Hin. }
  exists (clients st'). split; [|split].
  - unfold DisconnectAll, bind, gets, modify. simpl. rewrite Hrun. simpl.
    fold failures. destruct failures; reflexivity.
  - intros id s Hid. apply (Hin id s), (range_ok_elem _ _ _ _ Hrange), Hid.
  - intros l Hl. apply Hout. intros id s Hi.
    apply (Hl id s), (range_ok_elem _ _ _ _ Hrange), Hi.
Qed.

Lemma length_omap_filter {A B} (f : A -> option B) (l : list A) :
  length (omap f l) = length (filter (fun x => is_Some (f x)) l).
Proof.
  induction l as [|x l IH]; [reflexivity|].
  rewrite filter_cons.
  change (omap f (x :: l))
    with (match f x with Some y => y :: omap f l | None => omap f l end).
  destruct (f x) as [y|].
  - rewrite decide_True by eauto. cbn [length]. rewrite IH. reflexivity.
  - rewrite decide_False by apply is_Some_None. exact IH.
Qed.

Lemma failedSession_omap st entries id :
  id ∈ failedSession <$> omap (disconnectFailure st) entries -> id ∈ entries.*1.
Proof.
  induction entries as [|entry rest IH]; simpl; [intros H; exact H|].
  unfold disconnectFailure at 1.
  destruct (clients st !! Session_Client entry.2) as [c|];
    [destruct (Disconnect c).2 as [u|err|]|]; simpl;
    try (intros H; right; apply IH, H).
  intros H. apply elem_of_cons in H. destruct H as [-> | H];
    [left|right; apply IH, H].
Qed.

Lemma failedSession_NoDup st entries :
  NoDup entries.*1 -> NoDup (failedSession <$> omap (disconnectFailure st) entries).
Proof.
  induction entries as [|entry rest IH]; simpl; [intros _; constructor|].
  intros Hnd. apply NoDup_cons in Hnd. destruct Hnd as [Hnotin Hnd].
  unfold disconnectFailure at 1.
  destruct (clients st !! Session_Client entry.2) as [c|];
    [destruct (Disconnect c).2 as [u|err|]|]; simpl;
    try (apply IH, Hnd).
  apply NoDup_cons. split; [|apply IH, Hnd].
  intros Hin. apply Hnotin, (failedSession_omap st), Hin.
Qed.

(** X14. [DisconnectAll]: on a registry that satisfies its invariant, and
    whatever the order of the range, it returns normally, the registry is
    empty afterwards also when disconnects failed, the client of every
    session that was registered has been through [Disconnect] once (clients
    that were not connected are untouched), and no other client is touched.
    Its error is [nil] exactly when no registered client is connected over
    a connection whose close fails; otherwise it joins one error for each
    such session and for no other: the errors joined are, in the order of
    the range, the failure of the disconnect of each entry that has one, so
    there is at least one, no two are about the same session, and there are
    as many as there are registered sessions whose close fails.  The clients
    whose close failed are still connected, and no longer registered. *)
Theorem DisconnectAll_outcome (range : RangeOrder) (st : Store) :
  registry_inv st -> range_ok range ->
  exists st' r,
    DisconnectAll range st = (st', Ok r)
    /\ sessions st' = ∅
    /\ (forall id s, sessions st !! id = Some s ->
          clients st' !! Session_Client s
          = (fun c => (Disconnect c).1) <$> clients st !! Session_Client s)
    /\ (forall l, (forall id s, sessions st !! id = Some s -> Session_Client s <> l) ->
          clients st' !! l = clients st !! l)
    /\ (r = None
        <-> forall id s c k,
              sessions st !! id = Some s ->
              clients st !! Session_Client s = Some c ->
              isConnected c = true -> conn c = Some k -> closeErr k = None)
    /\ (forall failures, r = Some (Join failures) ->
          forall id err,
            DisconnectSessionError id err ∈ failures
            <-> exists s c k cause,
                  sessions st !! id = Some s
                  /\ clients st !! Session_Client s = Some c
                  /\ isConnected c = true /\ conn c = Some k
                  /\ closeErr k = Some cause /\ err = CloseError cause
                  /\ clients st' !! Session_Client s = Some c)
    /\ (forall failures, r = Some (Join failures) ->
          failures = omap (disconnectFailure st) (range (sessions st))
          /\ failures <> []
          /\ NoDup (failedSession <$> failures)
          /\ NoDup failures
          /\ length failures
             = length (filter (fun entry => is_Some (disconnectFailure st entry))
                         (map_to_list (sessions st)))).
Proof.
  intros Hst Hrange.
  destruct (DisconnectAll_run range st Hst Hrange) as (h & Hrun & Hin & Hout).
  cbv zeta in Hrun.
  set (failures := omap (disconnectFailure st) (range (sessions st))) in *.
  assert (Hmem : forall id err,
             DisconnectSessionError id err ∈ failures
             <-> exists s c k cause,
                   sessions st !! id = Some s
                   /\ clients st !! Session_Client s = Some c
                   /\ isConnected c = true /\ conn c = Some k
                   /\ closeErr k = Some cause /\ err = CloseError cause).
  { intros id err. unfold failures. rewrite list_elem_of_omap. split.
    - intros ([id' s] & Hentry & Hfail).
      apply (range_ok_elem _ _ _ _ Hrange) in Hentry.
      apply (disconnectFailure_Some st (id', s) _ Hst Hentry) in Hfail.
      destruct Hfail as (c & k & cause & Hc & Hconn & Hk & Hclose & Heq).
      simpl in *. inversion Heq. subst. exists s, c, k, cause. auto 10.
    - intros (s & c & k & cause & Hid & Hc & Hconn & Hk & Hclose & ->).
      exists (id, s). split; [apply (range_ok_elem _ _ _ _ Hrange), Hid|].
      apply (disconnectFailure_Some st (id, s) _ Hst Hid).
      exists c, k, cause. auto 10. }
  eexists _, _. split; [exact Hrun|]. split; [reflexivity|].
  split; [exact Hin|]. split; [exact Hout|]. split; [|split].
  - split.
    + intros Hr id s c k Hid Hc Hconn Hk.
      destruct (closeErr k) as [cause|] eqn:Hclose; [|reflexivity].
      assert (Hf : DisconnectSessionError id (CloseError cause) ∈ failures)
        by (apply Hmem; exists s, c, k, cause; auto 10).
      destruct failures; [|discriminate]. apply elem_of_nil in Hf. contradiction.
    + intros Hall. destruct failures as [|[id err] fs] eqn:Hfs; [reflexivity|].
      exfalso.
      assert (Hf : DisconnectSessionError id err ∈ DisconnectSessionError id err :: fs)
        by left.
      apply Hmem in Hf. destruct Hf as (s & c & k & cause & Hid & Hc & Hconn & Hk & Hclose & _).
      rewrite (Hall _ _ _ _ Hid Hc Hconn Hk) in Hclose. discriminate.
  - intros fs Hr id err.
    assert (Hfs : fs = failures) by (destruct failures; inversion Hr; reflexivity).
    subst fs. rewrite Hmem. split.
    + intros (s & c & k & cause & Hid & Hc & Hconn & Hk & Hclose & ->).
      exists s, c, k, cause.
      split; [exact Hid|]. split; [exact Hc|]. split; [exact Hconn|].
      split; [exact Hk|]. split; [exact Hclose|]. split; [reflexivity|].
      change (h !! Session_Client s = Some c). rewrite (Hin _ _ Hid), Hc. simpl.
      rewrite (Disconnect_connected _ _ Hconn Hk), Hclose. reflexivity.
    + intros (s & c & k & cause & Hid & Hc & Hconn & Hk & Hclose & -> & _).
      exists s, c, k, cause. auto 10.
  - intros fs Hr.
    assert (Hfs : fs = failures) by (destruct failures; inversion Hr; reflexivity).
    assert (Hids : NoDup (failedSession <$> failures))
      by (apply failedSession_NoDup, range_ok_NoDup, Hrange).
    subst fs. split; [reflexivity|].
    split; [destruct failures; [discriminate Hr|discriminate]|].
    split; [exact Hids|].
    split; [exact (NoDup_fmap_1 _ _ Hids)|].
    unfold failures. rewrite length_omap_filter.
    apply Permutation_length, filter_Permutation, Hrange.
Qed.

Lemma range_ok_map_to_list : range_ok map_to_list.
Proof. intros m. reflexivity. Qed.

Lemma stuck_store_inv : registry_inv stuck_store.
Proof.
  apply preserves_on_client; [intros c; apply well_formed_Connect|].
  apply preserves_CreateSession, reachable_store_inv, store_new.
Qed.

Lemma DisconnectAll_outcome_witness :
  registry_inv stuck_store /\ range_ok map_to_list
  /\ sessions (DisconnectAll map_to_list stuck_store).1 = ∅
  /\ (DisconnectAll map_to_list stuck_store).2
     = Ok (Some (Join [DisconnectSessionError "s1"
                         (CloseError (NetError "close failed"))])).
Proof.
  split; [exact stuck_store_inv|]. split; [exact range_ok_map_to_list|].
  destruct (DisconnectAll_outcome map_to_list stuck_store stuck_store_inv
              range_ok_map_to_list) as (st' & r & Hrun & Hempty & _).
  split.
  - rewrite Hrun. exact Hempty.
  - vm_compute. reflexivity.
Defined.

Lemma foldl_append_values (entries : list (string * Session)) sessions0 :
  foldl (fun sessions entry => sessions ++ [entry.2]) sessions0 entries
  = sessions0 ++ entries.*2.
Proof.
  revert sessions0. induction entries as [|entry rest IH]; intros sessions0; simpl.
  - rewrite app_nil_r. reflexivity.
  - rewrite IH, <- app_assoc. reflexivity.
Qed.

Lemma ListSessions_run range st :
  ListSessions range st = (st, Ok (range (sessions st)).*2).
Proof.
  unfold ListSessions, bind, gets, ret. simpl.
  rewrite foldl_append_values. reflexivity.
Qed.



(** X16. No lost update: creating sessions one after the other for
    identifiers that are pairwise distinct and not yet bound succeeds for
    all of them, and the registry, and what [ListSessions] returns, has that
    many sessions more. *)
Theorem createEach_counts (now : Z) (name address : string)
    (range : RangeOrder) (ids : list string) :
  forall st,
    NoDup ids -> (forall id, id ∈ ids -> sessions st !! id = None) ->
    range_ok range ->
    exists st' listed,
      createEach now ids name address st = (st', Ok tt)
      /\ size (sessions st') = (size (sessions st) + length ids)%nat
      /\ (forall id, is_Some (sessions st' !! id)
                     <-> is_Some (sessions st !! id) \/ id ∈ ids)
      /\ ListSessions range st' = (st', Ok listed)
      /\ length listed = (size (sessions st) + length ids)%nat.
Proof.
  intros st Hnd Hfree Hrange.
  assert (Hmain : exists st',
             createEach now ids name address st = (st', Ok tt)
             /\ size (sessions st') = (size (sessions st) + length ids)%nat
             /\ (forall id, is_Some (sessions st' !! id)
                            <-> is_Some (sessions st !! id) \/ id ∈ ids)).
  { revert st Hfree. induction Hnd as [|id rest Hnotin Hnd IH]; intros st Hfree.
    - exists st. simpl. split; [reflexivity|]. split; [lia|].
      intros id. split; [auto|]. intros [H|H]; [exact H|].
      apply elem_of_nil in H. contradiction.
    - assert (Hid : sessions st !! id = None) by (apply Hfree; left).
      simpl. unfold bind at 1.
      rewrite (CreateSession_new _ _ _ _ _ Hid). cbv zeta.
      set (st1 := mkStore _ _).
      destruct (IH st1) as (st' & Hrun & Hsize & Hdom).
      { intros id' Hin. unfold st1. simpl.
        rewrite lookup_insert_ne by (intros ->; contradiction).
        apply Hfree. right. exact Hin. }
      exists st'. split; [exact Hrun|]. split.
      + rewrite Hsize. unfold st1. simpl.
        rewrite (map_size_insert_None _ _ _ Hid). simpl. lia.
      + intros id'. rewrite Hdom. unfold st1. simpl.
        rewrite elem_of_cons.
        destruct (decide (id = id')) as [->|Hne].
        * rewrite lookup_insert_eq. split; [auto|]. intros _. left. eauto.
        * rewrite lookup_insert_ne by exact Hne.
          split; [tauto|]. intros [H|[H|H]]; [tauto|congruence|tauto]. }
  destruct Hmain as (st' & Hrun & Hsize & Hdom).
  exists st', (range (sessions st')).*2.
  split; [exact Hrun|]. split; [exact Hsize|]. split; [exact Hdom|].
  split; [apply ListSessions_run|].
  rewrite (Hrange (sessions st')), length_fmap, length_map_to_list. exact Hsize.
Qed.

Lemma createEach_counts_witness :
  NoDup ["a"; "b"; "c"]
  /\ size (sessions (createEach 0 ["a"; "b"; "c"] "Test" "localhost:25575"
                       live_store).1) = 4%nat.
Proof.
  assert (Hnd : NoDup ["a"; "b"; "c"]).
  { repeat (apply NoDup_cons; split; [rewrite ?elem_of_cons, elem_of_nil;
      intuition discriminate|]). apply NoDup_nil. exact I. }
  split; [exact Hnd|].
  destruct (createEach_counts 0 "Test" "localhost:25575" map_to_list
              ["a"; "b"; "c"] live_store Hnd)
    as (st' & listed & Hrun & Hsize & _).
  - intros id Hin. rewrite !elem_of_cons, elem_of_nil in Hin.
    destruct Hin as [->|[->|[->|[]]]]; vm_compute; reflexivity.
  - exact range_ok_map_to_list.
  - rewrite Hrun. simpl. rewrite Hsize. vm_compute. reflexivity.
Defined.

(** ** The tools *)

Lemma append_assoc (a b c : string) : ((a ++ b) ++ c = a ++ (b ++ c))%string.
Proof.
  induction a as [|ch a IH]; [reflexivity|].
  change (String ch ((a ++ b) ++ c) = String ch (a ++ (b ++ c)))%string.
  rewrite IH. reflexivity.
Qed.

Lemma append_nil_r (a : string) : (a ++ "" = a)%string.
Proof.
  induction a as [|ch a IH]; [reflexivity|].
  change (String ch (a ++ "") = String ch a)%string.
  rewrite IH. reflexivity.
Qed.

Lemma describeEach_run listed :
  forall sessionInfo st,
    (forall s, s ∈ listed -> is_Some (clients st !! Session_Client s)) ->
    mcp.describeEach listed sessionInfo st
    = (st, Ok (sessionInfo ++ joinLines (describe st <$> listed))%string).
Proof.
  induction listed as [|session rest IH]; intros sessionInfo st Halloc.
  - simpl. unfold joinLines. simpl. rewrite append_nil_r. reflexivity.
  - destruct (Halloc session) as [c Hc]; [left|].
    simpl. unfold bind at 1. rewrite (on_client_IsConnected _ _ _ Hc).
    assert (Hstatus :
      (if isConnected c
       then
         let* authenticated := on_client (Session_Client session) IsAuthenticated in
         if (authenticated : bool)
         then ret "connected & authenticated"%string
         else ret "connected (not authenticated)"%string
       else ret "disconnected"%string) st
      = (st, Ok (statusOf c))).
    { unfold statusOf. destruct (isConnected c); [|reflexivity].
      unfold bind. rewrite (on_client_IsAuthenticated _ _ _ Hc).
      destruct (isAuthorized c); reflexivity. }
    unfold bind at 1. rewrite Hstatus.
    rewrite IH by (intros s Hs; apply Halloc; right; exact Hs).
    unfold joinLines. simpl. unfold describe at 2. rewrite Hc.
    unfold displayName. rewrite append_assoc. reflexivity.
Qed.

Lemma ListSessions_tool_run range st :
  registry_inv st -> range_ok range ->
  mcp.ListSessions range st
  = (st,
     Ok (match (range (sessions st)).*2 with
         | [] => "No active RCON sessions"
         | listed =>
             ("Active RCON sessions:" ++ mcp.nl
                ++ joinLines (describe st <$> listed))
         end)%string).
Proof.
  intros Hst Hrange. unfold mcp.ListSessions, bind.
  rewrite ListSessions_run.
  destruct ((range (sessions st)).*2) as [|s listed] eqn:Hlisted; [reflexivity|].
  change (length (s :: listed) =? 0)%nat with false. cbv iota.
  rewrite describeEach_run; [rewrite append_assoc; reflexivity|].
  intros s' Hs'. rewrite <- Hlisted in Hs'.
  apply list_elem_of_fmap in Hs'. destruct Hs' as ([id s0] & -> & Hin).
  apply (range_ok_elem _ _ _ _ Hrange) in Hin.
  destruct (Hst _ _ Hin) as (_ & (c & Hc & _) & _). simpl. eauto.
Qed.

Lemma Execute_tool_absent params st :
  sessions st !! mcp.Execute_SessionID params = None ->
  mcp.Execute params st
  = (st, Ok (inl (SessionLookupFailed
                    (SessionNotFound (mcp.Execute_SessionID params))))).
Proof.
  intros Hid. unfold mcp.Execute, bind, attempt.
  rewrite GetSession_run, Hid. reflexivity.
Qed.

Lemma Execute_tool_present params st session c :
  sessions st !! mcp.Execute_SessionID params = Some session ->
  clients st !! Session_Client session = Some c ->
  mcp.Execute params st
  = (set_clients
       (<[Session_Client session := (Execute (mcp.Execute_Command params) c).1]>
          (clients st)) st,
     match (Execute (mcp.Execute_Command params) c).2 with
     | Ok response => Ok (inr response)
     | Err err => Ok (inl (ExecuteFailed err))
     | Panic => Panic
     end).
Proof.
  intros Hid Hc. unfold mcp.Execute, bind, attempt.
  rewrite GetSession_run, Hid. simpl.
  rewrite (on_client_Some _ _ _ _ Hc).
  destruct (Execute _ c) as [c' [response|err|]]; reflexivity.
Qed.

Lemma Disconnect_tool_run params st :
  mcp.Disconnect params st
  = match RemoveSession (mcp.Disconnect_SessionID params) st with
    | (st', Ok _) =>
        (st', Ok (inr ("Disconnected session: "
                         ++ mcp.Disconnect_SessionID params)%string))
    | (st', Err err) => (st', Ok (inl (DisconnectFailed err)))
    | (st', Panic) => (st', Panic)
    end.
Proof.
  unfold mcp.Disconnect, bind, attempt.
  destruct (RemoveSession _ st) as [st' [[]|err|]]; reflexivity.
Qed.

Lemma RemoveSession_no_panic id st :
  registry_inv st -> (RemoveSession id st).2 <> Panic.
Proof.
  intros Hst. destruct (sessions st !! id) as [session|] eqn:Hid.
  - destruct (Hst _ _ Hid) as (_ & (c & Hc & Hwf) & _).
    rewrite (RemoveSession_present _ _ _ _ Hid Hc).
    destruct (isConnected c); [|discriminate].
    pose proof (well_formed_never_panics c Hwf refusing_dialer "" "" "")
      as (_ & _ & _ & Hnp).
    destruct (Disconnect c) as [c' [[]|err|]]; simpl in *;
      [discriminate|discriminate|contradiction].
  - rewrite (RemoveSession_absent _ _ Hid). discriminate.
Qed.

Lemma Connect_tool_no_panic now dial params st :
  registry_inv st -> (mcp.Connect now dial params st).2 <> Panic.
Proof.
  intros Hst. destruct (sessions st !! mcp.SessionID params) as [existing|] eqn:Hid.
  - unfold mcp.Connect, bind, wrap.
    rewrite (CreateSession_duplicate _ _ _ _ _ _ Hid). discriminate.
  - rewrite (Connect_tool_run _ _ _ _ Hid). cbv zeta.
    destruct (dial (mcp.Address params)) as [k|cause]; [|discriminate].
    assert (Hwf : well_formed (mkClient (Some k) 1 true false))
      by (unfold well_formed; simpl; eexists; reflexivity).
    pose proof (well_formed_never_panics _ Hwf refusing_dialer ""
                  (mcp.Password params) "") as (_ & Hnp & _).
    pose proof (well_formed_Authenticate (mcp.Password params) _ Hwf) as Hwf2.
    destruct (Authenticate _ _) as [c2 [[]|err|]]; simpl in *;
      [discriminate| |contradiction].
    pose proof (RemoveSession_no_panic (mcp.SessionID params)
                  (mkStore (<[fresh (dom (clients st)) := c2]> (clients st))
                     (<[mcp.SessionID params :=
                          mkSession (mcp.SessionID params) (fresh (dom (clients st)))
                            (mcp.Address params) (mcp.Name params) now]>
                        (sessions st)))) as Hrem.
    specialize (Hrem (registry_inv_bind _ _ _ _ _ _ _ Hst
                        (fresh_client_unused st) Hwf2)).
    destruct (RemoveSession _ _) as [st' [[]|err'|]]; simpl in *;
      [discriminate|discriminate|contradiction].
Qed.

(** X17. Nothing panics in the registry: on a store that satisfies the
    invariant of the registry, and whatever the order of the ranges, no
    operation of the session manager and no tool panics; [DisconnectAll] and
    the disconnect, execute and list tools always return normally, their
    error, if any, beside the result. *)
Theorem registry_never_panics (st : Store) (range : RangeOrder) :
  registry_inv st -> range_ok range ->
  forall now id name address dial cparams dparams eparams,
    (CreateSession now id name address st).2 <> Panic
    /\ (GetSession id st).2 <> Panic
    /\ (RemoveSession id st).2 <> Panic
    /\ (exists listed, (ListSessions range st).2 = Ok listed)
    /\ (exists err, (DisconnectAll range st).2 = Ok err)
    /\ (mcp.Connect now dial cparams st).2 <> Panic
    /\ (exists answer, (mcp.Disconnect dparams st).2 = Ok answer)
    /\ (exists answer, (mcp.Execute eparams st).2 = Ok answer)
    /\ (exists text, (mcp.ListSessions range st).2 = Ok text).
Proof.
  intros Hst Hrange now id name address dial cparams dparams eparams.
  split.
  { destruct (sessions st !! id) as [existing|] eqn:Hid.
    - rewrite (CreateSession_duplicate _ _ _ _ _ _ Hid). discriminate.
    - rewrite (CreateSession_new _ _ _ _ _ Hid). discriminate. }
  split.
  { rewrite GetSession_run. destruct (sessions st !! id); discriminate. }
  split; [apply RemoveSession_no_panic, Hst|].
  split; [rewrite ListSessions_run; eauto|].
  split.
  { destruct (DisconnectAll_run range st Hst Hrange) as (h & Hrun & _).
    rewrite Hrun. eauto. }
  split; [apply Connect_tool_no_panic, Hst|].
  split.
  { rewrite Disconnect_tool_run.
    pose proof (RemoveSession_no_panic (mcp.Disconnect_SessionID dparams) st Hst)
      as Hnp.
    destruct (RemoveSession _ st) as [st' [[]|err|]]; simpl in *;
      [eauto|eauto|contradiction]. }
  split.
  { destruct (sessions st !! mcp.Execute_SessionID eparams) as [session|] eqn:Hid.
    - destruct (Hst _ _ Hid) as (_ & (c & Hc & Hwf) & _).
      rewrite (Execute_tool_present _ _ _ _ Hid Hc).
      pose proof (well_formed_never_panics c Hwf refusing_dialer "" ""
                    (mcp.Execute_Command eparams)) as (_ & _ & Hnp & _).
      destruct (Execute _ c) as [c' [response|err|]]; simpl in *;
        [eauto|eauto|contradiction].
    - rewrite (Execute_tool_absent _ _ Hid). eauto. }
  rewrite (ListSessions_tool_run _ _ Hst Hrange). eauto.
Qed.

Lemma registry_never_panics_witness :
  registry_inv stuck_store /\ range_ok map_to_list
  /\ (mcp.Disconnect (mcp.mkDisconnectParams "s1") stuck_store).2
     = Ok (inl (DisconnectFailed
                  (DisconnectClientError (CloseError (NetError "close failed"))))).
Proof.
  split; [exact stuck_store_inv|]. split; [exact range_ok_map_to_list|].
  destruct (registry_never_panics stuck_store map_to_list stuck_store_inv
              range_ok_map_to_list 0 "" "" "" refusing_dialer connect_params
              (mcp.mkDisconnectParams "s1") (mcp.mkExecuteParams "s1" ""))
    as (_ & _ & _ & _ & _ & _ & [answer Hanswer] & _).
  rewrite Hanswer. f_equal.
  assert (H : (mcp.Disconnect (mcp.mkDisconnectParams "s1") stuck_store).2
              = Ok (inl (DisconnectFailed
                  (DisconnectClientError (CloseError (NetError "close failed"))))))
    by (vm_compute; reflexivity).
  rewrite Hanswer in H. inversion H. reflexivity.
Defined.

(** ** Sessions do not interfere *)

Lemma same_session_refl id st : same_session id st st.
Proof. split; [reflexivity|]. intros; reflexivity. Qed.

Lemma same_session_trans id st1 st2 st3 :
  same_session id st1 st2 -> same_session id st2 st3 -> same_session id st1 st3.
Proof.
  intros [Hs12 Hc12] [Hs23 Hc23]. split; [congruence|].
  intros session Hid. rewrite Hc23 by congruence. apply Hc12, Hid.
Qed.

(** A change of the binding of [id] and of the client it names. *)
Lemma same_session_change st id session h m id' :
  registry_inv st -> sessions st !! id = Some session -> id' <> id ->
  (forall l, l <> Session_Client session -> h !! l = clients st !! l) ->
  (forall i, i <> id -> m !! i = sessions st !! i) ->
  same_session id' st (mkStore h m).
Proof.
  intros Hst Hid Hne Hh Hm. split; simpl; [apply Hm, Hne|].
  intros session' Hid'. apply Hh. intros Heq.
  destruct (Hst _ _ Hid) as (_ & _ & Hshare).
  apply Hne, (Hshare _ _ Hid' Heq).
Qed.

(** A new binding of [id], to a client at an unused address. *)
Lemma same_session_bind st id l c session id' :
  registry_inv st -> clients st !! l = None -> id' <> id ->
  same_session id' st
    (mkStore (<[l := c]> (clients st)) (<[id := session]> (sessions st))).
Proof.
  intros Hst Hl Hne. split; simpl; [apply lookup_insert_ne; congruence|].
  intros session' Hid'. apply lookup_insert_ne. intros Heq.
  destruct (Hst _ _ Hid') as (_ & (c' & Hc' & _) & _). congruence.
Qed.

Lemma RemoveSession_same_session st id id' :
  registry_inv st -> id' <> id -> same_session id' st (RemoveSession id st).1.
Proof.
  intros Hst Hne. destruct (sessions st !! id) as [session|] eqn:Hid.
  - destruct (Hst _ _ Hid) as (_ & (c & Hc & _) & _).
    rewrite (RemoveSession_present _ _ _ _ Hid Hc).
    destruct (isConnected c);
      [destruct (Disconnect c) as [c' [[]|err|]]|]; simpl;
      apply (same_session_change _ _ _ _ _ _ Hst Hid Hne);
      intros; try reflexivity;
      try (apply lookup_insert_ne; congruence);
      try (apply lookup_delete_ne; congruence).
  - rewrite (RemoveSession_absent _ _ Hid). apply same_session_refl.
Qed.

Lemma Connect_tool_same_session now dial params st id' :
  registry_inv st -> id' <> mcp.SessionID params ->
  same_session id' st (mcp.Connect now dial params st).1.
Proof.
  intros Hst Hne.
  destruct (sessions st !! mcp.SessionID params) as [existing|] eqn:Hid.
  - unfold mcp.Connect, bind, wrap.
    rewrite (CreateSession_duplicate _ _ _ _ _ _ Hid). apply same_session_refl.
  - rewrite (Connect_tool_run _ _ _ _ Hid). cbv zeta.
    pose proof (fresh_client_unused st) as Hfresh.
    destruct (dial (mcp.Address params)) as [k|cause].
    + assert (Hwf : well_formed (mkClient (Some k) 1 true false))
        by (unfold well_formed; simpl; eexists; reflexivity).
      pose proof (well_formed_Authenticate (mcp.Password params) _ Hwf) as Hwf2.
      destruct (Authenticate _ _) as [c2 [[]|err|]]; simpl in *;
        try (apply same_session_bind; assumption).
      apply (same_session_trans _ _
               (mkStore (<[fresh (dom (clients st)) := c2]> (clients st))
                  (<[mcp.SessionID params :=
                       mkSession (mcp.SessionID params) (fresh (dom (clients st)))
                         (mcp.Address params) (mcp.Name params) now]>
                     (sessions st))));
        [apply same_session_bind; assumption|].
      pose proof (RemoveSession_same_session _ (mcp.SessionID params) id'
                    (registry_inv_bind _ (mcp.SessionID params) _ _
                       (mcp.Address params) (mcp.Name params) now
                       Hst Hfresh Hwf2) Hne) as Hrem.
      destruct (RemoveSession _ _) as [st' [[]|err'|]]; exact Hrem.
    + simpl. split; simpl; [reflexivity|].
      intros session' Hid'. apply lookup_insert_ne. intros Heq.
      destruct (Hst _ _ Hid') as (_ & (c' & Hc' & _) & _). congruence.
Qed.

(** X18. Sessions do not interfere: on a store that satisfies the invariant
    of the registry, creating or removing session [id], and the connect,
    disconnect and execute tools called for [id], leave every other session
    as it was, whatever they return: the same binding, and the same state of
    its client. *)
Theorem sessions_independent (st : Store) (id id' : string) :
  registry_inv st -> id' <> id ->
  forall now name address password command dial,
    same_session id' st (CreateSession now id name address st).1
    /\ same_session id' st (RemoveSession id st).1
    /\ same_session id' st
         (mcp.Connect now dial (mcp.mkConnectParams id name address password) st).1
    /\ same_session id' st (mcp.Disconnect (mcp.mkDisconnectParams id) st).1
    /\ same_session id' st (mcp.Execute (mcp.mkExecuteParams id command) st).1.
Proof.
  intros Hst Hne now name address password command dial.
  split.
  { destruct (sessions st !! id) as [existing|] eqn:Hid.
    - rewrite (CreateSession_duplicate _ _ _ _ _ _ Hid). apply same_session_refl.
    - rewrite (CreateSession_new _ _ _ _ _ Hid). cbv zeta. simpl.
      apply (same_session_bind _ _ _ _ _ _ Hst (fresh_client_unused st) Hne). }
  split; [apply RemoveSession_same_session; assumption|].
  split; [apply Connect_tool_same_session; assumption|].
  split.
  { rewrite Disconnect_tool_run. simpl.
    pose proof (RemoveSession_same_session st id id' Hst Hne) as Hrem.
    destruct (RemoveSession id st) as [st' [[]|err|]]; exact Hrem. }
  destruct (sessions st !! id) as [session|] eqn:Hid.
  - destruct (Hst _ _ Hid) as (_ & (c & Hc & _) & _).
    rewrite (Execute_tool_present (mcp.mkExecuteParams id command) _ _ _ Hid Hc).
    simpl.
    apply (same_session_change _ _ _ _ _ _ Hst Hid Hne); intros;
      [apply lookup_insert_ne; congruence|reflexivity].
  - rewrite (Execute_tool_absent (mcp.mkExecuteParams id command) _ Hid).
    apply same_session_refl.
Qed.

Lemma sessions_independent_witness :
  registry_inv live_store /\ "s1"%string <> "s2"%string
  /\ same_session "s1" live_store
       (mcp.Connect 0 accepting_dialer
          (mcp.mkConnectParams "s2" "" "host:27015" "secret") live_store).1.
Proof.
  assert (Hst : registry_inv live_store)
    by exact (reachable_store_inv _ live_store_reachable).
  split; [exact Hst|]. split; [discriminate|].
  exact (proj1 (proj2 (proj2
    (sessions_independent live_store "s2" "s1" Hst ltac:(discriminate)
       0 "" "host:27015" "secret" "" accepting_dialer)))).
Defined.

(** ** What the tools answer *)

Lemma set_clients_same st l c :
  clients st !! l = Some c -> set_clients (<[l := c]> (clients st)) st = st.
Proof.
  intros Hc. destruct st as [h m]. unfold set_clients. simpl in *.
  rewrite insert_id by exact Hc. reflexivity.
Qed.

(** X19. The execute tool.  On a store that satisfies the invariant of the
    registry the tool never adds or removes a session, also when the
    command fails.  For an unknown session it answers
    [SessionLookupFailed (SessionNotFound id)] and changes nothing.  For a
    registered session it is [Execute] on the client of the session: the
    client is left as [Execute] leaves it, the answer is the response of
    [Execute], or its error wrapped in [ExecuteFailed]; and when the client
    is not connected or not authenticated the store is unchanged. *)
Theorem Execute_tool_outcome (params : mcp.ExecuteParams) (st : Store) :
  registry_inv st ->
  let id := mcp.Execute_SessionID params in
  let command := mcp.Execute_Command params in
  sessions (mcp.Execute params st).1 = sessions st
  /\ (sessions st !! id = None ->
      mcp.Execute params st
      = (st, Ok (inl (SessionLookupFailed (SessionNotFound id)))))
  /\ (forall session,
        sessions st !! id = Some session ->
        exists c,
          clients st !! Session_Client session = Some c
          /\ clients (mcp.Execute params st).1 !! Session_Client session
             = Some (Execute command c).1
          /\ (forall response,
                (Execute command c).2 = Ok response
                <-> (mcp.Execute params st).2 = Ok (inr response))
          /\ (forall err,
                (Execute command c).2 = Err err
                <-> (mcp.Execute params st).2 = Ok (inl (ExecuteFailed err)))
          /\ (isConnected c && isAuthorized c = false ->
              (mcp.Execute params st).1 = st)).
Proof.
  intros Hst id command.
  destruct (sessions st !! id) as [session|] eqn:Hid.
  - destruct (Hst _ _ Hid) as (_ & (c & Hc & Hwf) & _).
    pose proof (Execute_tool_present params st session c Hid Hc) as Hrun.
    fold command in Hrun.
    pose proof (well_formed_never_panics c Hwf refusing_dialer "" "" command)
      as (_ & _ & Hnp & _).
    split; [rewrite Hrun; reflexivity|].
    split; [discriminate|].
    intros session' Hsession'. inversion Hsession'; subst session'.
    exists c. split; [exact Hc|]. rewrite Hrun. cbn [fst snd].
    split; [simpl; apply lookup_insert_eq|].
    split; [|split].
    + intros response.
      destruct (Execute command c).2 as [r|e|]; [|split; discriminate|contradiction].
      split; intros H; inversion H; reflexivity.
    + intros err.
      destruct (Execute command c).2 as [r|e|]; [split; discriminate| |contradiction].
      split; intros H; inversion H; reflexivity.
    + intros Hoff.
      destruct (Execute_state command c) as [[_ Hsame]|[Hon _]]; [|congruence].
      rewrite Hsame. apply set_clients_same, Hc.
  - rewrite (Execute_tool_absent params st Hid).
    split; [reflexivity|]. split; [reflexivity|]. discriminate.
Qed.

Lemma Execute_tool_outcome_witness :
  registry_inv stuck_store
  /\ sessions (mcp.Execute (mcp.mkExecuteParams "s1" "list") stuck_store).1
     = sessions stuck_store.
Proof.
  split; [exact stuck_store_inv|].
  exact (proj1 (Execute_tool_outcome (mcp.mkExecuteParams "s1" "list") stuck_store
                  stuck_store_inv)).
Defined.





(** ** Sessions through the tools *)

(** X21. Connect, then disconnect.  When the connect tool has succeeded for
    session [id], over a connection that can be closed, the disconnect tool
    called for [id] succeeds and gives the registry back as it was before
    the connect: the same sessions, [id] not among them, every client that
    existed before untouched; after that the execute tool answers for [id]
    that the session is not found. *)
Theorem Connect_Disconnect_round_trip (now : Z) (dial : Dialer)
    (params : mcp.ConnectParams) (st : Store) (k : Conn) :
  registry_inv st ->
  dial (mcp.Address params) = inl k -> closeErr k = None ->
  (exists text, (mcp.Connect now dial params st).2 = Ok text) ->
  let id := mcp.SessionID params in
  let st1 := (mcp.Connect now dial params st).1 in
  exists st2,
    mcp.Disconnect (mcp.mkDisconnectParams id) st1
    = (st2, Ok (inr ("Disconnected session: " ++ id)%string))
    /\ sessions st1 !! id
       = Some (mkSession id (fresh (dom (clients st))) (mcp.Address params)
                 (mcp.Name params) now)
    /\ sessions st2 = sessions st
    /\ sessions st2 !! id = None
    /\ (forall l, is_Some (clients st !! l) -> clients st2 !! l = clients st !! l)
    /\ (forall command,
          mcp.Execute (mcp.mkExecuteParams id command) st2
          = (st2, Ok (inl (SessionLookupFailed (SessionNotFound id))))).
Proof.
  intros Hst Hdial Hclose [text Hok] id st1.
  destruct (sessions st !! id) as [existing|] eqn:Hid.
  { exfalso. revert Hok. unfold mcp.Connect, bind, wrap.
    rewrite (CreateSession_duplicate _ _ _ _ _ _ Hid). discriminate. }
  pose proof (Connect_tool_run now dial params st Hid) as Hrun.
  cbv zeta in Hrun. rewrite Hdial in Hrun. fold id in Hrun.
  destruct (Authenticate_endpoint (mcp.Password params)
              (mkClient (Some k) 1 true false) k eq_refl)
    as (k' & Hk' & Hsame & Hconn).
  destruct (Authenticate (mcp.Password params) (mkClient (Some k) 1 true false))
    as [c2 [[]|err|]];
    [|exfalso; rewrite Hrun in Hok;
      destruct (RemoveSession _ _) as [st' [[]|err'|]]; discriminate
     |exfalso; rewrite Hrun in Hok; discriminate].
  simpl in Hk', Hconn.
  set (l := fresh (dom (clients st))) in *.
  set (session := mkSession id l (mcp.Address params) (mcp.Name params) now) in *.
  assert (Hst1 : st1 = mkStore (<[l := c2]> (clients st))
                         (<[id := session]> (sessions st)))
    by (unfold st1; rewrite Hrun; reflexivity).
  assert (Hid1 : sessions st1 !! id = Some session)
    by (rewrite Hst1; simpl; apply lookup_insert_eq).
  assert (Hc2 : clients st1 !! Session_Client session = Some c2)
    by (rewrite Hst1; simpl; apply lookup_insert_eq).
  assert (Hclose' : closeErr k' = None).
  { destruct Hsame as (_ & _ & _ & H & _). congruence. }
  exists (mkStore (<[l := mkClient None (requestID c2) false false]> (clients st1))
            (delete id (sessions st1))).
  split.
  { rewrite Disconnect_tool_run. cbn [mcp.Disconnect_SessionID].
    rewrite (RemoveSession_present _ _ _ _ Hid1 Hc2), Hconn.
    rewrite (Disconnect_connected _ _ Hconn Hk'), Hclose'. reflexivity. }
  assert (Hsessions : delete id (sessions st1) = sessions st).
  { rewrite Hst1. simpl. rewrite delete_insert_eq. apply delete_id, Hid. }
  split; [exact Hid1|].
  split; [exact Hsessions|].
  split; [simpl; rewrite Hsessions; exact Hid|].
  split.
  { intros l' [c' Hc']. simpl. rewrite Hst1. simpl.
    assert (l' <> l).
    { intros ->. unfold l in Hc'. rewrite fresh_client_unused in Hc'. discriminate. }
    rewrite !lookup_insert_ne by congruence. reflexivity. }
  intros command.
  apply (Execute_tool_absent (mcp.mkExecuteParams id command)).
  simpl. rewrite Hsessions. exact Hid.
Qed.

Lemma Connect_Disconnect_round_trip_witness :
  registry_inv NewSessionManager
  /\ (exists text,
        (mcp.Connect 0 accepting_dialer
           (mcp.mkConnectParams "s1" "" "127.0.0.1:25575" "secret")
           NewSessionManager).2 = Ok text)
  /\ sessions (mcp.Disconnect (mcp.mkDisconnectParams "s1") live_store).1 = ∅.
Proof.
  assert (Hst : registry_inv NewSessionManager)
    by exact (registry_inv_empty NewSessionManager).
  assert (Hok : exists text,
        (mcp.Connect 0 accepting_dialer
           (mcp.mkConnectParams "s1" "" "127.0.0.1:25575" "secret")
           NewSessionManager).2 = Ok text)
    by (eexists; vm_compute; reflexivity).
  split; [exact Hst|]. split; [exact Hok|].
  destruct (Connect_Disconnect_round_trip 0 accepting_dialer
              (mcp.mkConnectParams "s1" "" "127.0.0.1:25575" "secret")
              NewSessionManager _ Hst eq_refl eq_refl Hok)
    as (st2 & Hrun & _ & Hsessions & _).
  unfold live_store. cbn [mcp.SessionID] in Hrun. rewrite Hrun. exact Hsessions.
Defined.




